(** * housing_app: agents, scheduler and market clearing

    Shallow embedding of [src/model/agents.py] and [src/model/schedule.py].

    Conventions of the embedding.
    - Python objects live in a heap addressed by object identity ([addr]);
      [unique_id] is an ordinary attribute, so two distinct objects may
      carry the same id.
    - Finite numbers ([int], finite [float]) are exact rationals [Q]: the
      rounding and the overflow of the four operations are not modelled.
      Python's [/] on ints and floats raises [ZeroDivisionError] on a zero
      divisor.  Where a number can be infinite or a NaN it is a [pyfloat]:
      the prices handed to [add_bid], [Bid] and [Allocation], and what is
      computed from a parcel's transport cost.  That cost is a
      [numpy.float64] (a product with the distance that scipy returns), so
      are the rents and prices of the parcel and the bank's bid on it, and
      a division of a [numpy.float64] by zero does not raise: it returns an
      infinity or a NaN.
    - A method is a function of the model state returning the new state
      together with either a value or the exception raised; the state
      reached when an exception is raised is kept, since Python does not
      roll back mutations.
    - [dict] and [defaultdict] whose iteration order is observed are
      insertion-ordered association lists; the scheduler's flat registry
      is a [gmap].
    - What the sources call but do not define is a parameter: mesa's grid,
      the draws of [model.random], exponentiation of floats ([Runtime]),
      and the value of [model.get_p_dot()]; the workforce registry follows
      its description in the specification.  [list.sort] and
      [random.shuffle] follow CPython.
    - Not embedded: the constructors of [Land], [Firm], [Bank], [Investor]
      and [Realtor], [Realtor.rent_homes] (it needs
      [model.create_newcomer]), the [__str__] methods and logging. *)

From Stdlib Require Import ZArith QArith Qabs Qminmax Qpower Qround Lia Lqa.
From Stdlib Require Import String Sorted.
From stdpp Require Import base option list sorting gmap.


(** ** Exceptions and results *)

Inductive exn : Set :=
| ValueError | TypeError | KeyError | IndexError | AttributeError
| ZeroDivisionError | OverflowError.

Inductive result (A : Type) : Type :=
| Ok (a : A)
| Raise (e : exn).
Arguments Ok {A} a.
Arguments Raise {A} e.

#[global] Instance exn_eq_dec : EqDecision exn.
Proof. solve_decision. Defined.

#[global] Instance result_ret : MRet result := @Ok.
#[global] Instance result_bind : MBind result :=
  fun A B f r => match r with Ok a => f a | Raise e => Raise e end.

(** ** Numbers *)

Definition Qltb (a b : Q) : bool :=
  match (a ?= b)%Q with Lt => true | _ => false end.

(** Python's [a / b] on finite numbers. *)
Definition pydiv (a b : Q) : result Q :=
  if Qeq_bool b 0 then Raise ZeroDivisionError else Ok (a / b)%Q.

(** *** Floats

    A float is a finite number, [-0.0], an infinity or a NaN; [Fin q] with
    [q] zero is [+0.0].  The operations follow IEEE 754 on the special
    values, and are exact on the finite ones. *)
Inductive pyfloat : Type :=
| Fin (q : Q)
| NZero
| PInf
| NInf
| NaN.

Definition is_nan (x : pyfloat) : bool :=
  match x with NaN => true | _ => false end.

Definition is_zero (x : pyfloat) : bool :=
  match x with Fin q => Qeq_bool q 0 | NZero => true | _ => false end.

(** The sign bit. *)
Definition is_negative (x : pyfloat) : bool :=
  match x with
  | Fin q => Qltb q 0
  | NZero | NInf => true
  | PInf | NaN => false
  end.

Definition signed_zero (negative : bool) : pyfloat :=
  if negative then NZero else Fin 0.

Definition signed_inf (negative : bool) : pyfloat :=
  if negative then NInf else PInf.

(** [x < y]: false when either is a NaN; the two zeros are equal. *)
Definition flt (x y : pyfloat) : bool :=
  match x, y with
  | NaN, _ | _, NaN => false
  | _, NInf => false
  | NInf, _ => true
  | PInf, _ => false
  | _, PInf => true
  | Fin a, Fin b => Qltb a b
  | Fin a, NZero => Qltb a 0
  | NZero, Fin b => Qltb 0 b
  | NZero, NZero => false
  end.

(** [x + y] *)
Definition fadd (x y : pyfloat) : pyfloat :=
  match x, y with
  | NaN, _ | _, NaN => NaN
  | PInf, NInf | NInf, PInf => NaN
  | PInf, _ | _, PInf => PInf
  | NInf, _ | _, NInf => NInf
  | Fin a, Fin b => Fin (a + b)
  | Fin a, NZero => Fin a
  | NZero, Fin b => Fin b
  | NZero, NZero => NZero
  end.

(** [x - y] *)
Definition fsub (x y : pyfloat) : pyfloat :=
  match x, y with
  | NaN, _ | _, NaN => NaN
  | PInf, PInf | NInf, NInf => NaN
  | PInf, _ | _, NInf => PInf
  | NInf, _ | _, PInf => NInf
  | Fin a, Fin b => Fin (a - b)
  | Fin a, NZero => Fin a
  | NZero, Fin b => if Qeq_bool b 0 then NZero else Fin (- b)
  | NZero, NZero => Fin 0
  end.

(** [x * y]: the sign of a zero or infinite product is the exclusive or of
    the signs. *)
Definition fmul (x y : pyfloat) : pyfloat :=
  let negative := xorb (is_negative x) (is_negative y) in
  match x, y with
  | NaN, _ | _, NaN => NaN
  | (PInf | NInf), z | z, (PInf | NInf) =>
      if is_zero z then NaN else signed_inf negative
  | Fin a, Fin b =>
      if Qeq_bool (a * b) 0 && negative then NZero else Fin (a * b)
  | _, _ => signed_zero negative
  end.

(** [x / y] of IEEE 754, which is that of [numpy.float64]: a zero divisor
    gives an infinity, or a NaN for [0 / 0]. *)
Definition fdiv (x y : pyfloat) : pyfloat :=
  let negative := xorb (is_negative x) (is_negative y) in
  match x, y with
  | NaN, _ | _, NaN => NaN
  | (PInf | NInf), (PInf | NInf) => NaN
  | (PInf | NInf), _ => signed_inf negative
  | _, (PInf | NInf) => signed_zero negative
  | Fin a, Fin b =>
      if Qeq_bool b 0 then
        if Qeq_bool a 0 then NaN else signed_inf negative
      else if Qeq_bool a 0 && negative then NZero else Fin (a / b)
  | NZero, Fin b => if Qeq_bool b 0 then NaN else signed_zero negative
  | Fin a, NZero => if Qeq_bool a 0 then NaN else signed_inf negative
  | NZero, NZero => NaN
  end.

(** [x / y] of Python's [float]: a zero divisor raises. *)
Definition pyfdiv (x y : pyfloat) : result pyfloat :=
  if is_zero y then Raise ZeroDivisionError else Ok (fdiv x y).

(** [x <= y]: false when either is a NaN. *)
Definition fle (x y : pyfloat) : bool :=
  negb (is_nan x) && negb (is_nan y) && negb (flt y x).

(** Python's two-argument [min(a, b)]: [b] when [b < a], else [a]. *)
Definition fmin (a b : pyfloat) : pyfloat := if flt b a then b else a.

(** The class of a float operand: Python's [float] or [numpy.float64]. *)
Inductive pynumber : Type :=
| py_float (x : pyfloat)
| np_float64 (x : pyfloat).

Definition number_value (n : pynumber) : pyfloat :=
  match n with py_float x | np_float64 x => x end.

(** [x / y] where the class of the result is that of [n]: a product or
    quotient with a [numpy.float64] is a [numpy.float64]. *)
Definition truediv_as (n : pynumber) (x y : pyfloat) : result pyfloat :=
  match n with
  | py_float _ => pyfdiv x y
  | np_float64 _ => Ok (fdiv x y)
  end.

(** ** Insertion-ordered dictionaries *)

Section pydict.
Context {K V : Type} `{EqDecision K}.

Fixpoint dict_get (k : K) (d : list (K * V)) : option V :=
  match d with
  | [] => None
  | (k', v) :: d' => if decide (k = k') then Some v else dict_get k d'
  end.

(** [d[k] = v]: an existing key keeps its position. *)
Fixpoint dict_set (k : K) (v : V) (d : list (K * V)) : list (K * V) :=
  match d with
  | [] => [(k, v)]
  | (k', v') :: d' =>
      if decide (k = k') then (k', v) :: d' else (k', v') :: dict_set k v d'
  end.

(** [del d[k]]: [None] stands for the [KeyError] of a missing key. *)
Definition dict_del (k : K) (d : list (K * V)) : option (list (K * V)) :=
  match dict_get k d with
  | Some _ => Some (filter (fun e => e.1 <> k) d)
  | None => None
  end.

Definition dict_keys (d : list (K * V)) : list K := d.*1.

(** [d[k]] on a [defaultdict]: a missing key is first bound to [dflt]. *)
Definition defaultdict_get (dflt : V) (k : K) (d : list (K * V))
  : V * list (K * V) :=
  match dict_get k d with
  | Some v => (v, d)
  | None => (dflt, d ++ [(k, dflt)])
  end.
End pydict.

(** [l.remove(x)]: drops the first occurrence, [None] stands for the
    [ValueError] raised when there is none. *)
Fixpoint list_remove {A} `{EqDecision A} (x : A) (l : list A)
  : option (list A) :=
  match l with
  | [] => None
  | y :: l' =>
      if decide (x = y) then Some l'
      else l'' ← list_remove x l'; Some (y :: l'')
  end.

(** ** Sorting

    [list.sort] as CPython runs it on a list of fewer than 64 elements:
    the initial run (reversed in place when it is strictly descending) is
    extended by binary insertion.  [lt x y] is the comparison [key(x) <
    key(y)], the only one the sort makes.  On keys that [<] orders totally
    the result is that of any stable sort, so it is also the result for
    longer lists, which CPython sorts by merging such runs; on other keys
    (a NaN among floats) it is the order this sequence of comparisons
    leaves. *)
Section list_sort.
Context {A : Type} (lt : A -> A -> bool).

(** The length of the run that continues after [prev]. *)
Fixpoint run_descending (prev : A) (l : list A) : nat :=
  match l with
  | x :: l' => if lt x prev then S (run_descending x l') else 0%nat
  | [] => 0%nat
  end.

Fixpoint run_ascending (prev : A) (l : list A) : nat :=
  match l with
  | x :: l' => if lt x prev then 0%nat else S (run_ascending x l')
  | [] => 0%nat
  end.

(** [count_run]: the length of the run at the head of the list, and
    whether it is strictly descending. *)
Definition count_run (l : list A) : nat * bool :=
  match l with
  | x :: y :: l' =>
      if lt y x then (2 + run_descending y l', true)%nat
      else (2 + run_ascending y l', false)%nat
  | _ => (length l, false)
  end.

(** The binary search of [binarysort] for the place of [pivot] between
    the positions [l] and [r] of the sorted prefix [s]. *)
Fixpoint bisect (fuel : nat) (pivot : A) (s : list A) (l r : nat) : nat :=
  match fuel with
  | O => l
  | S fuel' =>
      if decide (l < r)%nat then
        let p := (l + (r - l) / 2)%nat in
        match s !! p with
        | Some x =>
            if lt pivot x then bisect fuel' pivot s l p
            else bisect fuel' pivot s (S p) r
        | None => l
        end
      else l
  end.

Definition binary_insert (s : list A) (pivot : A) : list A :=
  let i := bisect (length s) pivot s 0 (length s) in
  take i s ++ pivot :: drop i s.

(** [l.sort(key=...)] *)
Definition list_sort (l : list A) : list A :=
  let '(n, descending) := count_run l in
  let run := take n l in
  foldl binary_insert (if descending then reverse run else run) (drop n l).

(** [l.sort(key=..., reverse=True)]: the list is reversed, sorted and
    reversed again, which keeps the sort stable. *)
Definition list_sort_reverse (l : list A) : list A :=
  reverse (list_sort (reverse l)).

(** Insertion behind the elements that are not above [x]. *)
Fixpoint insert_upper (x : A) (s : list A) : list A :=
  match s with
  | [] => [x]
  | y :: s' => if lt x y then x :: y :: s' else y :: insert_upper x s'
  end.

Definition insertion_sort_from (s0 l : list A) : list A :=
  foldl (fun s x => insert_upper x s) s0 l.

(** Sorted lists: no element is below an earlier one; every element is
    below the earlier ones. *)
Definition ascending : list A -> Prop :=
  StronglySorted (fun a b => lt b a = false).

Definition strictly_descending : list A -> Prop :=
  StronglySorted (fun a b => lt b a = true).

End list_sort.

(** ** Shuffling

    [random.shuffle(x)] of CPython: for [i] from the last index down to 1,
    [x[i]] is exchanged with [x[j]] for a [j] drawn below [i + 1]. *)
Definition list_swap {A} (i j : nat) (x : list A) : list A :=
  match x !! i, x !! j with
  | Some a, Some b => <[i := b]> (<[j := a]> x)
  | _, _ => x
  end.

Section random_shuffle.
Context {G A : Type} (randbelow : nat -> G -> nat * G).

Fixpoint shuffle_from (i : nat) (x : list A) (g : G) : list A * G :=
  match i with
  | O => (x, g)
  | S i' =>
      let '(j, g') := randbelow (S i) g in
      shuffle_from i' (list_swap i j x) g'
  end.

Definition random_shuffle (x : list A) (g : G) : list A * G :=
  shuffle_from (length x - 1) x g.

End random_shuffle.

(** ** Values and objects *)

Definition addr := nat.

Inductive klass : Set := CLand | CPerson | CFirm | CBank | CInvestor | CRealtor.

#[global] Instance klass_eq_dec : EqDecision klass.
Proof. solve_decision. Defined.

(** Values that reach the argument checks of [Bid], [Allocation] and
    [Realtor.add_bid]. *)
Inductive pyval : Type :=
| VNone
| VBool (b : bool)
| VInt (z : Z)
| VFloat (x : pyfloat)
| VStr (s : string)
| VRef (a : addr).

(** [isinstance(v, (float, int))] together with the number held; [bool] is
    a subclass of [int], [numpy.float64] one of [float], and a float may be
    an infinity or a NaN. *)
Definition as_number (v : pyval) : option pyfloat :=
  match v with
  | VInt z => Some (Fin (inject_Z z))
  | VFloat x => Some x
  | VBool b => Some (Fin (if b then 1 else 0))
  | _ => None
  end.

(** ** Records of the agent classes

    Only attributes read or written by the methods below are kept.  An
    agent's [pos] is maintained by mesa's grid ([place_agent],
    [move_agent], [remove_agent] rewrite it), so for a [Person] it is part
    of the grid component of the model. *)

Record Land : Type := mkLand {
  Land_unique_id : Z;
  Land_pos : Z * Z;
  Land_property_tax_rate : Q;
  Land_resident : option addr;
  Land_owner : option addr;
  Land_distance_from_center : Q;
  Land_transport_cost : Q
}.

Definition set_Land_owner (l : Land) (o : option addr) : Land :=
  mkLand (Land_unique_id l) (Land_pos l) (Land_property_tax_rate l)
         (Land_resident l) o (Land_distance_from_center l)
         (Land_transport_cost l).

Definition set_Land_resident (l : Land) (r : option addr) : Land :=
  mkLand (Land_unique_id l) (Land_pos l) (Land_property_tax_rate l)
         r (Land_owner l) (Land_distance_from_center l)
         (Land_transport_cost l).

(** [wealth] is an attribute created by the first working [step]. *)
Record Person : Type := mkPerson {
  Person_unique_id : Z;
  Person_init_working_period : Z;
  Person_working_period : Z;
  Person_savings : Q;
  Person_properties_owned : list addr;
  Person_residence : option addr;
  Person_count : Z;
  Person_wealth : option Q
}.

Definition set_Person_working_period (p : Person) (x : Z) : Person :=
  mkPerson (Person_unique_id p) (Person_init_working_period p) x
           (Person_savings p) (Person_properties_owned p)
           (Person_residence p) (Person_count p) (Person_wealth p).

Definition set_Person_savings (p : Person) (x : Q) : Person :=
  mkPerson (Person_unique_id p) (Person_init_working_period p)
           (Person_working_period p) x (Person_properties_owned p)
           (Person_residence p) (Person_count p) (Person_wealth p).

Definition set_Person_properties_owned (p : Person) (x : list addr) : Person :=
  mkPerson (Person_unique_id p) (Person_init_working_period p)
           (Person_working_period p) (Person_savings p) x
           (Person_residence p) (Person_count p) (Person_wealth p).

Definition set_Person_residence (p : Person) (x : option addr) : Person :=
  mkPerson (Person_unique_id p) (Person_init_working_period p)
           (Person_working_period p) (Person_savings p)
           (Person_properties_owned p) x (Person_count p) (Person_wealth p).

Definition set_Person_count (p : Person) (x : Z) : Person :=
  mkPerson (Person_unique_id p) (Person_init_working_period p)
           (Person_working_period p) (Person_savings p)
           (Person_properties_owned p) (Person_residence p) x
           (Person_wealth p).

Definition set_Person_wealth (p : Person) (x : option Q) : Person :=
  mkPerson (Person_unique_id p) (Person_init_working_period p)
           (Person_working_period p) (Person_savings p)
           (Person_properties_owned p) (Person_residence p)
           (Person_count p) x.

Record Investor : Type := mkInvestor {
  Investor_unique_id : Z;
  Investor_properties_owned : list addr
}.

Definition set_Investor_properties_owned (i : Investor) (x : list addr)
  : Investor :=
  mkInvestor (Investor_unique_id i) x.

(** [MPL], [wage_target], [y_target] and [k_target] are attributes created
    by the first [step]; they are written there before they are read. *)
Record Firm : Type := mkFirm {
  Firm_unique_id : Z;
  Firm_subsistence_wage : Q;
  Firm_alpha : Q;
  Firm_beta : Q;
  Firm_gamma : Q;
  Firm_price_of_output : Q;
  Firm_seed_population : Q;
  Firm_density : Q;
  Firm_A : Q;
  Firm_overhead : Q;
  Firm_mult : Q;
  Firm_c : Q;
  Firm_adjN : Q;
  Firm_adjk : Q;
  Firm_adjn : Q;
  Firm_adjF : Q;
  Firm_adjw : Q;
  Firm_dist : Q;
  Firm_r : Q;
  Firm_y : Q;
  Firm_Y : Q;
  Firm_F : Q;
  Firm_k : Q;
  Firm_n : Q;
  Firm_F_target : Q;
  Firm_N : Q;
  Firm_agglomeration_population : Q;
  Firm_wage_premium : Q;
  Firm_wage : Q;
  Firm_MPL : Q;
  Firm_wage_target : Q;
  Firm_y_target : Q;
  Firm_k_target : Q
}.

(** Attribute assignments [self.x = v] of [Firm.step]. *)

Definition set_Firm_N (self : Firm) (v : Q) : Firm :=
  mkFirm (Firm_unique_id self) (Firm_subsistence_wage self)
    (Firm_alpha self) (Firm_beta self) (Firm_gamma self)
    (Firm_price_of_output self) (Firm_seed_population self)
    (Firm_density self) (Firm_A self) (Firm_overhead self) (Firm_mult self)
    (Firm_c self) (Firm_adjN self) (Firm_adjk self) (Firm_adjn self)
    (Firm_adjF self) (Firm_adjw self) (Firm_dist self) (Firm_r self)
    (Firm_y self) (Firm_Y self) (Firm_F self) (Firm_k self) (Firm_n self)
    (Firm_F_target self) v (Firm_agglomeration_population self)
    (Firm_wage_premium self) (Firm_wage self) (Firm_MPL self)
    (Firm_wage_target self) (Firm_y_target self) (Firm_k_target self).

Definition set_Firm_agglomeration_population (self : Firm) (v : Q) : Firm :=
  mkFirm (Firm_unique_id self) (Firm_subsistence_wage self)
    (Firm_alpha self) (Firm_beta self) (Firm_gamma self)
    (Firm_price_of_output self) (Firm_seed_population self)
    (Firm_density self) (Firm_A self) (Firm_overhead self) (Firm_mult self)
    (Firm_c self) (Firm_adjN self) (Firm_adjk self) (Firm_adjn self)
    (Firm_adjF self) (Firm_adjw self) (Firm_dist self) (Firm_r self)
    (Firm_y self) (Firm_Y self) (Firm_F self) (Firm_k self) (Firm_n self)
    (Firm_F_target self) (Firm_N self) v (Firm_wage_premium self)
    (Firm_wage self) (Firm_MPL self) (Firm_wage_target self)
    (Firm_y_target self) (Firm_k_target self).

Definition set_Firm_n (self : Firm) (v : Q) : Firm :=
  mkFirm (Firm_unique_id self) (Firm_subsistence_wage self)
    (Firm_alpha self) (Firm_beta self) (Firm_gamma self)
    (Firm_price_of_output self) (Firm_seed_population self)
    (Firm_density self) (Firm_A self) (Firm_overhead self) (Firm_mult self)
    (Firm_c self) (Firm_adjN self) (Firm_adjk self) (Firm_adjn self)
    (Firm_adjF self) (Firm_adjw self) (Firm_dist self) (Firm_r self)
    (Firm_y self) (Firm_Y self) (Firm_F self) (Firm_k self) v
    (Firm_F_target self) (Firm_N self) (Firm_agglomeration_population self)
    (Firm_wage_premium self) (Firm_wage self) (Firm_MPL self)
    (Firm_wage_target self) (Firm_y_target self) (Firm_k_target self).

Definition set_Firm_y (self : Firm) (v : Q) : Firm :=
  mkFirm (Firm_unique_id self) (Firm_subsistence_wage self)
    (Firm_alpha self) (Firm_beta self) (Firm_gamma self)
    (Firm_price_of_output self) (Firm_seed_population self)
    (Firm_density self) (Firm_A self) (Firm_overhead self) (Firm_mult self)
    (Firm_c self) (Firm_adjN self) (Firm_adjk self) (Firm_adjn self)
    (Firm_adjF self) (Firm_adjw self) (Firm_dist self) (Firm_r self) v
    (Firm_Y self) (Firm_F self) (Firm_k self) (Firm_n self)
    (Firm_F_target self) (Firm_N self) (Firm_agglomeration_population self)
    (Firm_wage_premium self) (Firm_wage self) (Firm_MPL self)
    (Firm_wage_target self) (Firm_y_target self) (Firm_k_target self).

Definition set_Firm_MPL (self : Firm) (v : Q) : Firm :=
  mkFirm (Firm_unique_id self) (Firm_subsistence_wage self)
    (Firm_alpha self) (Firm_beta self) (Firm_gamma self)
    (Firm_price_of_output self) (Firm_seed_population self)
    (Firm_density self) (Firm_A self) (Firm_overhead self) (Firm_mult self)
    (Firm_c self) (Firm_adjN self) (Firm_adjk self) (Firm_adjn self)
    (Firm_adjF self) (Firm_adjw self) (Firm_dist self) (Firm_r self)
    (Firm_y self) (Firm_Y self) (Firm_F self) (Firm_k self) (Firm_n self)
    (Firm_F_target self) (Firm_N self) (Firm_agglomeration_population self)
    (Firm_wage_premium self) (Firm_wage self) v (Firm_wage_target self)
    (Firm_y_target self) (Firm_k_target self).

Definition set_Firm_wage_target (self : Firm) (v : Q) : Firm :=
  mkFirm (Firm_unique_id self) (Firm_subsistence_wage self)
    (Firm_alpha self) (Firm_beta self) (Firm_gamma self)
    (Firm_price_of_output self) (Firm_seed_population self)
    (Firm_density self) (Firm_A self) (Firm_overhead self) (Firm_mult self)
    (Firm_c self) (Firm_adjN self) (Firm_adjk self) (Firm_adjn self)
    (Firm_adjF self) (Firm_adjw self) (Firm_dist self) (Firm_r self)
    (Firm_y self) (Firm_Y self) (Firm_F self) (Firm_k self) (Firm_n self)
    (Firm_F_target self) (Firm_N self) (Firm_agglomeration_population self)
    (Firm_wage_premium self) (Firm_wage self) (Firm_MPL self) v
    (Firm_y_target self) (Firm_k_target self).

Definition set_Firm_wage (self : Firm) (v : Q) : Firm :=
  mkFirm (Firm_unique_id self) (Firm_subsistence_wage self)
    (Firm_alpha self) (Firm_beta self) (Firm_gamma self)
    (Firm_price_of_output self) (Firm_seed_population self)
    (Firm_density self) (Firm_A self) (Firm_overhead self) (Firm_mult self)
    (Firm_c self) (Firm_adjN self) (Firm_adjk self) (Firm_adjn self)
    (Firm_adjF self) (Firm_adjw self) (Firm_dist self) (Firm_r self)
    (Firm_y self) (Firm_Y self) (Firm_F self) (Firm_k self) (Firm_n self)
    (Firm_F_target self) (Firm_N self) (Firm_agglomeration_population self)
    (Firm_wage_premium self) v (Firm_MPL self) (Firm_wage_target self)
    (Firm_y_target self) (Firm_k_target self).

Definition set_Firm_wage_premium (self : Firm) (v : Q) : Firm :=
  mkFirm (Firm_unique_id self) (Firm_subsistence_wage self)
    (Firm_alpha self) (Firm_beta self) (Firm_gamma self)
    (Firm_price_of_output self) (Firm_seed_population self)
    (Firm_density self) (Firm_A self) (Firm_overhead self) (Firm_mult self)
    (Firm_c self) (Firm_adjN self) (Firm_adjk self) (Firm_adjn self)
    (Firm_adjF self) (Firm_adjw self) (Firm_dist self) (Firm_r self)
    (Firm_y self) (Firm_Y self) (Firm_F self) (Firm_k self) (Firm_n self)
    (Firm_F_target self) (Firm_N self) (Firm_agglomeration_population self)
    v (Firm_wage self) (Firm_MPL self) (Firm_wage_target self)
    (Firm_y_target self) (Firm_k_target self).

Definition set_Firm_F_target (self : Firm) (v : Q) : Firm :=
  mkFirm (Firm_unique_id self) (Firm_subsistence_wage self)
    (Firm_alpha self) (Firm_beta self) (Firm_gamma self)
    (Firm_price_of_output self) (Firm_seed_population self)
    (Firm_density self) (Firm_A self) (Firm_overhead self) (Firm_mult self)
    (Firm_c self) (Firm_adjN self) (Firm_adjk self) (Firm_adjn self)
    (Firm_adjF self) (Firm_adjw self) (Firm_dist self) (Firm_r self)
    (Firm_y self) (Firm_Y self) (Firm_F self) (Firm_k self) (Firm_n self) v
    (Firm_N self) (Firm_agglomeration_population self)
    (Firm_wage_premium self) (Firm_wage self) (Firm_MPL self)
    (Firm_wage_target self) (Firm_y_target self) (Firm_k_target self).

Definition set_Firm_F (self : Firm) (v : Q) : Firm :=
  mkFirm (Firm_unique_id self) (Firm_subsistence_wage self)
    (Firm_alpha self) (Firm_beta self) (Firm_gamma self)
    (Firm_price_of_output self) (Firm_seed_population self)
    (Firm_density self) (Firm_A self) (Firm_overhead self) (Firm_mult self)
    (Firm_c self) (Firm_adjN self) (Firm_adjk self) (Firm_adjn self)
    (Firm_adjF self) (Firm_adjw self) (Firm_dist self) (Firm_r self)
    (Firm_y self) (Firm_Y self) v (Firm_k self) (Firm_n self)
    (Firm_F_target self) (Firm_N self) (Firm_agglomeration_population self)
    (Firm_wage_premium self) (Firm_wage self) (Firm_MPL self)
    (Firm_wage_target self) (Firm_y_target self) (Firm_k_target self).

Definition set_Firm_y_target (self : Firm) (v : Q) : Firm :=
  mkFirm (Firm_unique_id self) (Firm_subsistence_wage self)
    (Firm_alpha self) (Firm_beta self) (Firm_gamma self)
    (Firm_price_of_output self) (Firm_seed_population self)
    (Firm_density self) (Firm_A self) (Firm_overhead self) (Firm_mult self)
    (Firm_c self) (Firm_adjN self) (Firm_adjk self) (Firm_adjn self)
    (Firm_adjF self) (Firm_adjw self) (Firm_dist self) (Firm_r self)
    (Firm_y self) (Firm_Y self) (Firm_F self) (Firm_k self) (Firm_n self)
    (Firm_F_target self) (Firm_N self) (Firm_agglomeration_population self)
    (Firm_wage_premium self) (Firm_wage self) (Firm_MPL self)
    (Firm_wage_target self) v (Firm_k_target self).

Definition set_Firm_k_target (self : Firm) (v : Q) : Firm :=
  mkFirm (Firm_unique_id self) (Firm_subsistence_wage self)
    (Firm_alpha self) (Firm_beta self) (Firm_gamma self)
    (Firm_price_of_output self) (Firm_seed_population self)
    (Firm_density self) (Firm_A self) (Firm_overhead self) (Firm_mult self)
    (Firm_c self) (Firm_adjN self) (Firm_adjk self) (Firm_adjn self)
    (Firm_adjF self) (Firm_adjw self) (Firm_dist self) (Firm_r self)
    (Firm_y self) (Firm_Y self) (Firm_F self) (Firm_k self) (Firm_n self)
    (Firm_F_target self) (Firm_N self) (Firm_agglomeration_population self)
    (Firm_wage_premium self) (Firm_wage self) (Firm_MPL self)
    (Firm_wage_target self) (Firm_y_target self) v.

Definition set_Firm_k (self : Firm) (v : Q) : Firm :=
  mkFirm (Firm_unique_id self) (Firm_subsistence_wage self)
    (Firm_alpha self) (Firm_beta self) (Firm_gamma self)
    (Firm_price_of_output self) (Firm_seed_population self)
    (Firm_density self) (Firm_A self) (Firm_overhead self) (Firm_mult self)
    (Firm_c self) (Firm_adjN self) (Firm_adjk self) (Firm_adjn self)
    (Firm_adjF self) (Firm_adjw self) (Firm_dist self) (Firm_r self)
    (Firm_y self) (Firm_Y self) (Firm_F self) v (Firm_n self)
    (Firm_F_target self) (Firm_N self) (Firm_agglomeration_population self)
    (Firm_wage_premium self) (Firm_wage self) (Firm_MPL self)
    (Firm_wage_target self) (Firm_y_target self) (Firm_k_target self).

(** ** Transaction records *)

Record Bid : Type := mkBid {
  Bid_bidder : addr;
  Bid_property : addr;
  Bid_price : pyfloat;
  Bid_mortgage : pyfloat
}.

Record Allocation : Type := mkAllocation {
  Allocation_property : addr;
  Allocation_successful_bidder : option addr;
  Allocation_highest_bid : pyfloat;
  Allocation_second_highest_bid : pyfloat;
  Allocation_final_price : pyfloat
}.

(** [bids] is a [defaultdict(list)] keyed by the property object. *)
Record Realtor : Type := mkRealtor {
  Realtor_unique_id : Z;
  Realtor_sale_listing : list addr;
  Realtor_rental_listing : list addr;
  Realtor_bids : list (addr * list Bid)
}.

Definition set_Realtor_sale_listing (r : Realtor) (x : list addr) : Realtor :=
  mkRealtor (Realtor_unique_id r) x (Realtor_rental_listing r) (Realtor_bids r).

Definition set_Realtor_rental_listing (r : Realtor) (x : list addr) : Realtor :=
  mkRealtor (Realtor_unique_id r) (Realtor_sale_listing r) x (Realtor_bids r).

Definition set_Realtor_bids (r : Realtor) (x : list (addr * list Bid))
  : Realtor :=
  mkRealtor (Realtor_unique_id r) (Realtor_sale_listing r)
            (Realtor_rental_listing r) x.

(** ** Workforce registry *)

(** Modelled from the spec: the class of [model.workforce] is not among the
    sources.  Spec 4.2: three membership sets keyed by agent identity
    (newcomers, workers, retiring) with [add(agent, set)] idempotent,
    [remove(agent, set)] a no-op if absent, [remove_from_all(agent)] and
    [get_agent_count(set)].  The sources test membership with
    [unique_id in workforce.newcomers], so the keys are unique ids. *)
Record Workforce : Type := mkWorkforce {
  newcomers : gset Z;
  workers : gset Z;
  retiring : gset Z
}.

Inductive wf_set : Set := WNewcomers | WWorkers | WRetiring.

Definition wf_members (s : wf_set) (wf : Workforce) : gset Z :=
  match s with
  | WNewcomers => newcomers wf
  | WWorkers => workers wf
  | WRetiring => retiring wf
  end.

Definition wf_update (s : wf_set) (f : gset Z -> gset Z) (wf : Workforce)
  : Workforce :=
  match s with
  | WNewcomers => mkWorkforce (f (newcomers wf)) (workers wf) (retiring wf)
  | WWorkers => mkWorkforce (newcomers wf) (f (workers wf)) (retiring wf)
  | WRetiring => mkWorkforce (newcomers wf) (workers wf) (f (retiring wf))
  end.

Definition Workforce_add (uid : Z) (s : wf_set) (wf : Workforce) : Workforce :=
  wf_update s (fun m => {[uid]} ∪ m) wf.

Definition Workforce_remove (uid : Z) (s : wf_set) (wf : Workforce)
  : Workforce :=
  wf_update s (fun m => m ∖ {[uid]}) wf.

Definition Workforce_remove_from_all (uid : Z) (wf : Workforce) : Workforce :=
  Workforce_remove uid WRetiring
    (Workforce_remove uid WNewcomers (Workforce_remove uid WWorkers wf)).

Definition Workforce_get_agent_count (s : wf_set) (wf : Workforce) : Z :=
  Z.of_nat (size (wf_members s wf)).

(** ** Scheduler state *)

(** [_agents] maps a unique id to the agent object; [agents_by_breed] is a
    [defaultdict(dict)] from the agent's class to such a map. *)
Record Schedule : Type := mkSchedule {
  Schedule_agents : gmap Z addr;
  agents_by_breed : list (klass * list (Z * addr));
  Schedule_steps : Z;
  Schedule_time : Z
}.

Definition set_Schedule_agents (s : Schedule) (x : gmap Z addr) : Schedule :=
  mkSchedule x (agents_by_breed s) (Schedule_steps s) (Schedule_time s).

Definition set_agents_by_breed (s : Schedule)
    (x : list (klass * list (Z * addr))) : Schedule :=
  mkSchedule (Schedule_agents s) x (Schedule_steps s) (Schedule_time s).

(** ** The heap and the model *)

(** The firm and the realtor are singletons reached through [model.firm]
    and [model.realtor]: their attributes are kept in the model record, and
    the heap only records where the object lives.  [Bank] has no attribute
    of its own besides its id. *)
Inductive obj : Type :=
| OLand (l : Land)
| OPerson (p : Person)
| OInvestor (i : Investor)
| OFirm
| OBank (unique_id : Z)
| ORealtor.

(** [type(agent)] *)
Definition type_of (o : obj) : klass :=
  match o with
  | OLand _ => CLand
  | OPerson _ => CPerson
  | OInvestor _ => CInvestor
  | OFirm => CFirm
  | OBank _ => CBank
  | ORealtor => CRealtor
  end.

Record Params : Type := mkParams {
  time_step : Z;
  r_prime : Q;
  r_target : Q;
  delta : Q;
  mortgage_period : Z;
  p_dot : Q;
  housing_services_share : Q;
  maintenance_share : Q;
  working_periods : Z;
  savings_per_step : Q;
  center_city : bool
}.

(** The dictionary appended to [model.step_price_data] by [Land.step]. *)
Record PriceData : Type := mkPriceData {
  pd_id : Z;
  pd_warranted_price : pyfloat;
  pd_time_step : Z;
  pd_transport_cost : Q;
  pd_wage : Q
}.

(** What the sources use of mesa and of Python's [random] and float power:
    the grid operations (which touch the grid only), the draw
    [_randbelow(n)] of the model's random source, [x ** y] for a float
    exponent, and [x ** T] for a float and an int, which is C's [pow] and
    raises [OverflowError] when the result is out of range. *)
Class Runtime : Type := mkRuntime {
  Grid : Type;
  grid_remove_agent : addr -> Grid -> Grid * result unit;
  grid_move_agent : addr -> Z * Z -> Grid -> Grid * result unit;
  Rng : Type;
  randbelow : nat -> Rng -> nat * Rng;
  fpow : Q -> Q -> result Q;
  float_pow : pyfloat -> Z -> result pyfloat
}.

Section model.
Context `{RT : Runtime}.

(** [model.random.shuffle(keys)] *)
Definition shuffle (keys : list Z) (rng : Rng) : list Z * Rng :=
  random_shuffle randbelow keys rng.

(** [p_dot] is the value returned by [model.get_p_dot()], a method that is
    not among the sources; the bank only uses its result. *)
Record Model : Type := mkModel {
  heap : gmap addr obj;
  firm : Firm;
  realtor : Realtor;
  workforce : Workforce;
  schedule : Schedule;
  grid : Grid;
  random : Rng;
  removed_agents : Z;
  step_price_data : list PriceData;
  params : Params
}.

Definition set_heap (w : Model) (x : gmap addr obj) : Model :=
  mkModel x (firm w) (realtor w) (workforce w) (schedule w) (grid w)
          (random w) (removed_agents w) (step_price_data w) (params w).

Definition set_firm (w : Model) (x : Firm) : Model :=
  mkModel (heap w) x (realtor w) (workforce w) (schedule w) (grid w)
          (random w) (removed_agents w) (step_price_data w) (params w).

Definition set_realtor (w : Model) (x : Realtor) : Model :=
  mkModel (heap w) (firm w) x (workforce w) (schedule w) (grid w)
          (random w) (removed_agents w) (step_price_data w) (params w).

Definition set_workforce (w : Model) (x : Workforce) : Model :=
  mkModel (heap w) (firm w) (realtor w) x (schedule w) (grid w)
          (random w) (removed_agents w) (step_price_data w) (params w).

Definition set_schedule (w : Model) (x : Schedule) : Model :=
  mkModel (heap w) (firm w) (realtor w) (workforce w) x (grid w)
          (random w) (removed_agents w) (step_price_data w) (params w).

Definition set_grid (w : Model) (x : Grid) : Model :=
  mkModel (heap w) (firm w) (realtor w) (workforce w) (schedule w) x
          (random w) (removed_agents w) (step_price_data w) (params w).

Definition set_random (w : Model) (x : Rng) : Model :=
  mkModel (heap w) (firm w) (realtor w) (workforce w) (schedule w) (grid w)
          x (removed_agents w) (step_price_data w) (params w).

Definition set_removed_agents (w : Model) (x : Z) : Model :=
  mkModel (heap w) (firm w) (realtor w) (workforce w) (schedule w) (grid w)
          (random w) x (step_price_data w) (params w).

Definition set_step_price_data (w : Model) (x : list PriceData) : Model :=
  mkModel (heap w) (firm w) (realtor w) (workforce w) (schedule w) (grid w)
          (random w) (removed_agents w) x (params w).

(** ** Methods as state transformers that may raise *)

Definition Py (A : Type) : Type := Model -> Model * result A.

Definition ret {A} (a : A) : Py A := fun w => (w, Ok a).
Definition bind {A B} (c : Py A) (k : A -> Py B) : Py B := fun w =>
  match c w with
  | (w', Ok a) => k a w'
  | (w', Raise e) => (w', Raise e)
  end.

Notation "'let!' x ':=' c 'in' k" := (bind c (fun x => k))
  (at level 10, x name, c at level 100, k at level 200).
Notation "c1 >>> c2" := (bind c1 (fun _ => c2))
  (at level 100, c2 at level 200, right associativity).

Definition raise {A} (e : exn) : Py A := fun w => (w, Raise e).
Definition read {A} (f : Model -> A) : Py A := fun w => (w, Ok (f w)).
Definition modify (f : Model -> Model) : Py unit := fun w => (f w, Ok tt).
Definition lift {A} (r : result A) : Py A := fun w => (w, r).
Definition or_raise {A} (e : exn) (o : option A) : Py A :=
  match o with Some a => ret a | None => raise e end.

(** [for x in l: body(x)] over a list fixed at loop entry. *)
Fixpoint for_each {A} (l : list A) (body : A -> Py unit) : Py unit :=
  match l with
  | [] => ret tt
  | x :: l' => body x >>> for_each l' body
  end.

(** [agent.unique_id] *)
Definition unique_id_of (w : Model) (o : obj) : Z :=
  match o with
  | OLand l => Land_unique_id l
  | OPerson p => Person_unique_id p
  | OInvestor i => Investor_unique_id i
  | OFirm => Firm_unique_id (firm w)
  | OBank u => u
  | ORealtor => Realtor_unique_id (realtor w)
  end.

(** Attribute access on an object that must be of the given class. *)
Definition get_land (a : addr) : Py Land := fun w =>
  match heap w !! a with
  | Some (OLand l) => (w, Ok l)
  | _ => (w, Raise AttributeError)
  end.

Definition get_person (a : addr) : Py Person := fun w =>
  match heap w !! a with
  | Some (OPerson p) => (w, Ok p)
  | _ => (w, Raise AttributeError)
  end.

Definition put_obj (a : addr) (o : obj) : Py unit :=
  modify (fun w => set_heap w (<[a := o]> (heap w))).

(** [isinstance(v, C)] for an agent class [C]: the object when the check
    passes. *)
Definition as_instance (w : Model) (v : pyval) (c : klass) : option addr :=
  match v with
  | VRef a =>
      match heap w !! a with
      | Some o => if decide (type_of o = c) then Some a else None
      | None => None
      end
  | _ => None
  end.

Definition isinstance (w : Model) (v : pyval) (c : klass) : bool :=
  bool_decide (is_Some (as_instance w v c)).

Definition get_obj (a : addr) : Py obj :=
  fun w => or_raise AttributeError (heap w !! a) w.

(** ** RandomActivationByBreed *)

(** [self.agents_by_breed[breed]] on the [defaultdict]. *)
Definition breed_partition (breed : klass) : Py (list (Z * addr)) := fun w =>
  let '(partition, by_breed) :=
    defaultdict_get [] breed (agents_by_breed (schedule w)) in
  (set_schedule w (set_agents_by_breed (schedule w) by_breed), Ok partition).

(** [self.agents_by_breed[breed] = partition], for the dictionary updated
    in place. *)
Definition set_breed_partition (breed : klass) (partition : list (Z * addr))
  : Py unit :=
  modify (fun w =>
    set_schedule w
      (set_agents_by_breed (schedule w)
         (dict_set breed partition (agents_by_breed (schedule w))))).

(** [add(agent)] *)
Definition Schedule_add (agent : addr) : Py unit :=
  let! o := get_obj agent in
  let! uid := read (fun w => unique_id_of w o) in
  modify (fun w =>
    set_schedule w
      (set_Schedule_agents (schedule w)
         (<[uid := agent]> (Schedule_agents (schedule w))))) >>>
  let agent_class := type_of o in
  let! partition := breed_partition agent_class in
  set_breed_partition agent_class (dict_set uid agent partition).

(** [remove(agent)] *)
Definition Schedule_remove (agent : addr) : Py unit :=
  let! o := get_obj agent in
  let! uid := read (fun w => unique_id_of w o) in
  let! registered := read (fun w => Schedule_agents (schedule w) !! uid) in
  or_raise KeyError registered >>>
  modify (fun w =>
    set_schedule w
      (set_Schedule_agents (schedule w)
         (delete uid (Schedule_agents (schedule w))))) >>>
  let agent_class := type_of o in
  let! partition := breed_partition agent_class in
  let! partition' := or_raise KeyError (dict_del uid partition) in
  set_breed_partition agent_class partition'.

(** [step_time()] *)
Definition Schedule_step_time : Py unit :=
  modify (fun w =>
    set_schedule w
      (mkSchedule (Schedule_agents (schedule w)) (agents_by_breed (schedule w))
         (Schedule_steps (schedule w) + 1) (Schedule_time (schedule w) + 1))).

(** [get_breed_count(breed_class)] *)
Definition Schedule_get_breed_count (breed_class : klass) : Py Z :=
  let! partition := breed_partition breed_class in
  ret (Z.of_nat (length partition)).

(** [get_breed_agents(breed_class)] *)
Definition Schedule_get_breed_agents (breed_class : klass) : Py (list addr) :=
  let! partition := breed_partition breed_class in
  ret (partition.*2).

(** ** Land *)

Definition Land_warranted_rent (self : Land) (w : Model) : Q :=
  let wage_premium := Firm_wage_premium (firm w) in
  let subsistence_wage := Firm_subsistence_wage (firm w) in
  let a := housing_services_share (params w) in
  (wage_premium - Land_transport_cost self + a * subsistence_wage)%Q.

Definition Land_market_rent (self : Land) (w : Model) : Q :=
  Land_warranted_rent self w.

(** The rent is a [numpy.float64], as the transport cost is: the
    quotient does not raise. *)
Definition Land_warranted_price (self : Land) (w : Model) : pyfloat :=
  fdiv (Fin (Land_warranted_rent self w)) (Fin (r_prime (params w))).

Definition Land_appraised_price (self : Land) (w : Model) : pyfloat :=
  Land_warranted_price self w.

Definition Land_property_tax (self : Land) (w : Model) : pyfloat :=
  let tau := Land_property_tax_rate self in
  let appraised_price := Land_appraised_price self w in
  fmul (Fin tau) appraised_price.

Definition Land_maintenance (self : Land) (w : Model) : Q :=
  let a := housing_services_share (params w) in
  let b := maintenance_share (params w) in
  let subsistence_wage := Firm_subsistence_wage (firm w) in
  (a * b * subsistence_wage)%Q.

Definition Land_net_rent (self : Land) (w : Model) : pyfloat :=
  fsub (Fin (Land_warranted_rent self w - Land_maintenance self w))
       (Land_property_tax self w).

(** [Land.step()] *)
Definition Land_step (a : addr) : Py unit :=
  let! self := get_land a in
  let! w := read id in
  let warranted_price := Land_warranted_price self w in
  modify (fun w =>
    set_step_price_data w
      (step_price_data w ++
         [mkPriceData (Land_unique_id self) warranted_price
            (time_step (params w)) (Land_transport_cost self)
            (Firm_wage (firm w))])).

(** ** Bank *)

(** [R_NT = ((1 + r)**T - 1) / r * R_N]: the rate is a Python float, so
    the division by it raises when it is zero. *)
Definition Bank_R_NT (R_N : pyfloat) (r : Q) (T : Z) : result pyfloat :=
  g ← float_pow (Fin (1 + r)) T;
  a ← pyfdiv (fsub g (Fin 1)) (Fin r);
  Ok (fmul a R_N).

(** The divisor [(1 - m) * r_target/(delta**T) - p_dot] of the returned
    quotient. *)
Definition Bank_discount (r_target m dlt : Q) (T : Z) (pdot : Q)
  : result pyfloat :=
  d ← float_pow (Fin dlt) T;
  x ← pyfdiv (fmul (Fin (1 - m)) (Fin r_target)) d;
  Ok (fsub x (Fin pdot)).

(** [get_max_bid(R_N, r, r_target, m, transport_cost)].  [R_NT] has the
    class of the net rent [R_N], and the last division is that of this
    class: it raises on a zero divisor for a Python float, and returns an
    infinity or a NaN for a [numpy.float64]. *)
Definition Bank_get_max_bid (R_N : pynumber) (r r_tgt m transport_cost : Q)
    (w : Model) : result pyfloat :=
  let T := mortgage_period (params w) in
  let dlt := delta (params w) in
  let pdot := p_dot (params w) in
  R_NT ← Bank_R_NT (number_value R_N) r T;
  den ← Bank_discount r_tgt m dlt T pdot;
  truediv_as R_N R_NT den.

(** ** Firm *)

(** [get_N()] *)
Definition Firm_get_N (w : Model) : Q :=
  let self := firm w in
  let worker_agent_count :=
    inject_Z (Workforce_get_agent_count WWorkers (workforce w)) in
  let N :=
    if center_city (params w) then (Firm_density self * worker_agent_count)%Q
    else (4 * Firm_density self * worker_agent_count)%Q in
  if Qeq_bool N 0 then 1%Q else N.

(** [self.x = rhs] on the firm, where evaluating [rhs] may raise. *)
Definition assign_firm (setter : Firm -> Q -> Firm) (rhs : Firm -> result Q)
  : Py unit := fun w =>
  match rhs (firm w) with
  | Ok v => (set_firm w (setter (firm w) v), Ok tt)
  | Raise e => (w, Raise e)
  end.

(** [step()], one assignment per line of the source. *)
Definition Firm_step : Py unit :=
  let! N := read Firm_get_N in
  assign_firm set_Firm_N (fun _ => Ok N) >>>
  assign_firm set_Firm_agglomeration_population (fun self =>
    Ok (Firm_mult self * Firm_N self + Firm_seed_population self)%Q) >>>
  assign_firm set_Firm_n (fun self => pydiv (Firm_N self) (Firm_F self)) >>>
  assign_firm set_Firm_y (fun self =>
    pg ← fpow (Firm_agglomeration_population self) (Firm_gamma self);
    pa ← fpow (Firm_k self) (Firm_alpha self);
    pb ← fpow (Firm_n self) (Firm_beta self);
    Ok (Firm_A self * pg * pa * pb)%Q) >>>
  assign_firm set_Firm_MPL (fun self =>
    pydiv (Firm_beta self * Firm_y self)%Q (Firm_n self)) >>>
  assign_firm set_Firm_wage_target (fun self =>
    x ← pydiv (Firm_MPL self - Firm_subsistence_wage self)%Q
              (1 + Firm_overhead self)%Q;
    Ok (Firm_subsistence_wage self + x)%Q) >>>
  assign_firm set_Firm_wage (fun self =>
    Ok ((1 - Firm_adjw self) * Firm_wage self
        + Firm_adjw self * Firm_wage_target self)%Q) >>>
  assign_firm set_Firm_wage_premium (fun self =>
    Ok (Firm_wage self - Firm_subsistence_wage self)%Q) >>>
  assign_firm set_Firm_F_target (fun self =>
    pydiv (Firm_F self * Firm_wage_target self)%Q (Firm_wage self)) >>>
  assign_firm set_Firm_F (fun self =>
    Ok ((1 - Firm_adjF self) * Firm_F self
        + Firm_adjF self * Firm_F_target self)%Q) >>>
  assign_firm set_Firm_y_target (fun self =>
    pg ← fpow (Firm_agglomeration_population self) (Firm_gamma self);
    pa ← fpow (Firm_k self) (Firm_alpha self);
    pb ← fpow (Firm_n self) (Firm_beta self);
    Ok (Firm_price_of_output self * Firm_A self * pg * pa * pb)%Q) >>>
  assign_firm set_Firm_k_target (fun self =>
    pydiv (Firm_alpha self * Firm_y_target self)%Q (Firm_r self)) >>>
  assign_firm set_Firm_k (fun self =>
    Ok ((1 - Firm_adjk self) * Firm_k self
        + Firm_adjk self * Firm_k_target self)%Q).

(** ** Bid and Allocation *)

(** [Bid(bidder, property, price, mortgage)] *)
Definition Bid_init (w : Model) (bidder property price mortgage : pyval)
  : result Bid :=
  match as_instance w bidder CPerson with
  | None => Raise ValueError
  | Some b =>
  match as_instance w property CLand with
  | None => Raise ValueError
  | Some l =>
  match as_number price with
  | None => Raise ValueError
  | Some p =>
  match as_number mortgage with
  | None => Raise ValueError
  | Some mo => Ok (mkBid b l p mo)
  end end end end.

(** The default value [0.0] of [mortgage], [second_highest_bid] and
    [final_price]. *)
Definition default_amount : pyval := VFloat (Fin 0).

(** [Allocation(property, successful_bidder, highest_bid,
    second_highest_bid, final_price)] *)
Definition Allocation_init (w : Model)
    (property successful_bidder highest_bid second_highest_bid final_price
     : pyval) : result Allocation :=
  match as_instance w property CLand with
  | None => Raise ValueError
  | Some l =>
  let bidder_check :=
    match successful_bidder with
    | VNone => Ok None
    | _ => match as_instance w successful_bidder CPerson with
           | Some b => Ok (Some b)
           | None => Raise ValueError
           end
    end in
  match bidder_check with
  | Raise e => Raise e
  | Ok sb =>
  match as_number highest_bid with
  | None => Raise ValueError
  | Some h =>
  match as_number second_highest_bid with
  | None => Raise ValueError
  | Some s =>
  match as_number final_price with
  | None => Raise ValueError
  | Some f => Ok (mkAllocation l sb h s f)
  end end end end end.

(** ** Realtor: bid intake *)

(** [self.bids[property].append(bid)] on the [defaultdict(list)]. *)
Definition book_append (bid : Bid) (book : list (addr * list Bid))
  : list (addr * list Bid) :=
  let '(property_bids, bids) := defaultdict_get [] (Bid_property bid) book in
  dict_set (Bid_property bid) (property_bids ++ [bid]) bids.

(** [add_bid(bidder, property, price)] *)
Definition Realtor_add_bid (bidder property price : pyval) : Py unit :=
  let! w := read id in
  if negb (isinstance w bidder CPerson) then raise ValueError else
  if negb (isinstance w property CLand) then raise ValueError else
  if negb (bool_decide (is_Some (as_number price))) then raise ValueError else
  let! bid := lift (Bid_init w bidder property price default_amount) in
  modify (fun w =>
    set_realtor w
      (set_Realtor_bids (realtor w)
         (book_append bid (Realtor_bids (realtor w))))).

(** ** Person *)

Definition update_person (self : addr) (f : Person -> Person) : Py unit :=
  let! p := get_person self in
  put_obj self (OPerson (f p)).

Definition update_land (a : addr) (f : Land -> Land) : Py unit :=
  let! l := get_land a in
  put_obj a (OLand (f l)).

Definition Person_individual_wealth_adjustment (self : Person) : Q := 2 # 1000.

Definition Person_borrowing_rate (self : Person) (w : Model) : Q :=
  (r_target (params w) + Person_individual_wealth_adjustment self)%Q.

Definition Person_get_wealth (self : Person) : Q := Person_savings self.

Definition Person_get_max_mortgage_share (self : Person) : Q := 8 # 10.

Definition Person_get_max_mortgage (self : Person) (w : Model) : result Q :=
  let S := Person_savings self in
  let r := Person_borrowing_rate self w in
  let wage := Firm_wage (firm w) in
  pydiv ((28 # 100) * (wage + r * S))%Q (r_prime (params w)).

(** A call of a grid method. *)
Definition on_grid (f : Grid -> Grid * result unit) : Py unit := fun w =>
  let '(g, r) := f (grid w) in (set_grid w g, r).

(** [remove()] *)
Definition Person_remove (self : addr) : Py unit :=
  modify (fun w => set_removed_agents w (removed_agents w + 1)) >>>
  let! p := get_person self in
  modify (fun w =>
    set_workforce w
      (Workforce_remove_from_all (Person_unique_id p) (workforce w))) >>>
  Schedule_remove self >>>
  on_grid (grid_remove_agent self).

(** [step()] *)
Definition Person_step (self : addr) : Py unit :=
  update_person self (fun p => set_Person_count p (Person_count p + 1)) >>>
  update_person self (fun p =>
    set_Person_working_period p (Person_working_period p + 1)) >>>
  let! p := get_person self in
  let! wf := read workforce in
  let uid := Person_unique_id p in
  if bool_decide (uid ∈ newcomers wf) then
    match Person_residence p with
    | None =>
        if (0 <? Person_count p)%Z then Person_remove self else ret tt
    | Some _ => ret tt
    end
  else
    match Person_residence p with
    | Some residence =>
        if bool_decide (uid ∉ retiring wf) then
          (let! w := read id in
           if (working_periods (params w) <? Person_working_period p)%Z then
             modify (fun w =>
               set_workforce w (Workforce_add uid WRetiring (workforce w))) >>>
             if bool_decide (residence ∈ Person_properties_owned p) then
               modify (fun w =>
                 set_realtor w
                   (set_Realtor_sale_listing (realtor w)
                      (Realtor_sale_listing (realtor w) ++ [residence])))
             else ret tt
           else
             let premium := Firm_wage_premium (firm w) in
             let! res := get_land residence in
             if Qltb (Land_transport_cost res) premium then
               modify (fun w =>
                 set_workforce w (Workforce_add uid WWorkers (workforce w)))
             else
               modify (fun w =>
                 set_workforce w
                   (Workforce_remove uid WWorkers (workforce w)))) >>>
          let! sps := read (fun w => savings_per_step (params w)) in
          update_person self (fun p =>
            set_Person_savings p (Person_savings p + sps)%Q) >>>
          update_person self (fun p =>
            set_Person_wealth p (Some (Person_get_wealth p)))
        else ret tt
    | None => ret tt
    end.

(** The body of the loop of [bid()] for one [sale_property]; the net rent
    of a parcel is a [numpy.float64]. *)
Definition Person_bid_on (self : addr) (S r m M r_tgt : Q)
    (sale_property : addr) : Py unit :=
  let! prop := get_land sale_property in
  let! w := read id in
  let R_N := np_float64 (Land_net_rent prop w) in
  let! P_max_bid :=
    lift (Bank_get_max_bid R_N r r_tgt m (Land_transport_cost prop) w) in
  let '(mortgage, P_bid) :=
    if flt (fmul (Fin m) P_max_bid) (Fin m)
    then (fmul (Fin m) P_max_bid,
          fmin (fadd (fmul (Fin m) P_max_bid) (Fin S)) P_max_bid)
    else (Fin M, fmin (fadd (Fin M) (Fin S)) P_max_bid) in
  let! bid :=
    lift (Bid_init w (VRef self) (VRef sale_property) (VFloat P_bid)
            (VFloat mortgage)) in
  if flt (Fin 0) (Bid_price bid) then
    Realtor_add_bid (VRef self) (VRef sale_property) (VFloat (Bid_price bid))
  else ret tt.

(** [bid()] *)
Definition Person_bid (self : addr) : Py unit :=
  let! p := get_person self in
  let! w := read id in
  let W := Person_get_wealth p in
  let S := Person_savings p in
  let r := Person_borrowing_rate p w in
  let m := Person_get_max_mortgage_share p in
  let! M := lift (Person_get_max_mortgage p w) in
  let r_tgt := r_target (params w) in
  for_each (Realtor_sale_listing (realtor w))
    (Person_bid_on self S r m M r_tgt).

(** [Person(unique_id, model, pos, init_working_period, savings, debt,
    residence_owned)]: the new object, [residence_owned] being a parcel or
    [None].  The position goes to the grid and [debt] is not stored;
    [count] is set by the last assignment. *)
Definition Person_init (unique_id init_working_period : Z) (savings : Q)
    (residence_owned : option addr) : Py addr :=
  let! self := read (fun w => fresh (dom (heap w))) in
  put_obj self
    (OPerson (mkPerson unique_id init_working_period init_working_period
                savings [] residence_owned 0 None)) >>>
  match residence_owned with
  | Some residence =>
      update_person self (fun p =>
        set_Person_properties_owned p
          (Person_properties_owned p ++ [residence])) >>>
      update_land residence (fun l => set_Land_owner l (Some self)) >>>
      update_land residence (fun l => set_Land_resident l (Some self))
  | None => ret tt
  end >>>
  update_person self (fun p => set_Person_count p 0) >>>
  ret self.

(** ** Realtor: clearing and settlement *)

(** [l.sort(key=lambda x: x.price, reverse=True)] *)
Definition price_lt (a b : Bid) : bool := flt (Bid_price a) (Bid_price b).

Definition sort_by_price_desc (l : list Bid) : list Bid :=
  list_sort_reverse price_lt l.

(** [agent.properties_owned], an attribute of persons and investors. *)
Definition properties_owned_of (o : obj) : option (list addr) :=
  match o with
  | OPerson p => Some (Person_properties_owned p)
  | OInvestor i => Some (Investor_properties_owned i)
  | _ => None
  end.

Definition with_properties_owned (o : obj) (l : list addr) : obj :=
  match o with
  | OPerson p => OPerson (set_Person_properties_owned p l)
  | OInvestor i => OInvestor (set_Investor_properties_owned i l)
  | _ => o
  end.

(** In-place update of [agent.properties_owned]; [agent] may be [None]. *)
Definition update_properties_owned (agent : option addr)
    (f : list addr -> result (list addr)) : Py unit := fun w =>
  match agent with
  | None => (w, Raise AttributeError)
  | Some a =>
      match heap w !! a ≫= properties_owned_of, heap w !! a with
      | Some l, Some o =>
          match f l with
          | Ok l' => (set_heap w (<[a := with_properties_owned o l']> (heap w)),
                      Ok tt)
          | Raise e => (w, Raise e)
          end
      | _, _ => (w, Raise AttributeError)
      end
  end.

(** [transfer_property(seller, buyer, sale_property)] *)
Definition Realtor_transfer_property (seller buyer : option addr)
    (sale_property : addr) : Py unit :=
  update_properties_owned buyer (fun l => Ok (l ++ [sale_property])) >>>
  update_properties_owned seller (fun l =>
    match list_remove sale_property l with
    | Some l' => Ok l'
    | None => Raise ValueError
    end) >>>
  update_land sale_property (fun l => set_Land_owner l buyer).

(** [handle_investor_purchase(buyer, sale_property)] *)
Definition Realtor_handle_investor_purchase (buyer sale_property : addr)
  : Py unit :=
  modify (fun w =>
    set_realtor w
      (set_Realtor_rental_listing (realtor w)
         (Realtor_rental_listing (realtor w) ++ [sale_property]))).

(** [handle_person_purchase(buyer, sale_property, final_price)] *)
Definition Realtor_handle_person_purchase (buyer sale_property : addr)
    (final_price : pyfloat) : Py unit :=
  update_land sale_property (fun l => set_Land_resident l (Some buyer)) >>>
  update_person buyer (fun p => set_Person_residence p (Some sale_property)) >>>
  let! prop := get_land sale_property in
  on_grid (grid_move_agent buyer (Land_pos prop)) >>>
  let! b := get_person buyer in
  let! wf := read workforce in
  if bool_decide (Person_unique_id b ∈ newcomers wf) then
    modify (fun w =>
      set_workforce w
        (Workforce_remove (Person_unique_id b) WNewcomers (workforce w)))
  else ret tt.

(** [handle_seller_departure(seller)] *)
Definition Realtor_handle_seller_departure (seller : addr) : Py unit :=
  let! s := get_person seller in
  let! wf := read workforce in
  if bool_decide (Person_unique_id s ∈ retiring wf) then Person_remove seller
  else ret tt.

(** The body of the loop of [complete_transactions] for one allocation. *)
Definition Realtor_complete_transaction (allocation : Allocation) : Py unit :=
  let buyer := Allocation_successful_bidder allocation in
  let! prop := get_land (Allocation_property allocation) in
  let seller := Land_owner prop in
  let final_price := Allocation_final_price allocation in
  Realtor_transfer_property seller buyer (Allocation_property allocation) >>>
  let! w := read id in
  (match buyer with
   | Some b =>
       if isinstance w (VRef b) CInvestor then
         Realtor_handle_investor_purchase b (Allocation_property allocation)
       else if isinstance w (VRef b) CPerson then
         Realtor_handle_person_purchase b (Allocation_property allocation)
           final_price
       else ret tt
   | None => ret tt
   end) >>>
  match seller with
  | Some s =>
      if isinstance w (VRef s) CPerson then Realtor_handle_seller_departure s
      else ret tt
  | None => ret tt
  end.

(** [complete_transactions(allocations)] *)
Definition Realtor_complete_transactions (allocations : list Allocation)
  : Py unit :=
  for_each allocations Realtor_complete_transaction.

(** The body of the loop of [sell_homes] for one key of [self.bids]; the
    sort is in place, so the sorted list is written back to the book. *)
Definition Realtor_sell_home (property : addr) (allocations : list Allocation)
  : Py (list Allocation) :=
  let! w := read id in
  if negb (isinstance w (VRef property) CLand) then raise TypeError else
  let '(property_bids, bids) :=
    defaultdict_get [] property (Realtor_bids (realtor w)) in
  modify (fun w => set_realtor w (set_Realtor_bids (realtor w) bids)) >>>
  if bool_decide (0 < length property_bids)%nat then
    let property_bids := sort_by_price_desc property_bids in
    modify (fun w =>
      set_realtor w
        (set_Realtor_bids (realtor w)
           (dict_set property property_bids (Realtor_bids (realtor w))))) >>>
    let! highest_bid := or_raise IndexError (property_bids !! 0%nat) in
    let! second_highest_bid :=
      if bool_decide (1 < length property_bids)%nat then
        let! b := or_raise IndexError (property_bids !! 1%nat) in
        ret (VFloat (Bid_price b))
      else ret (VInt 0) in
    let final_price := Bid_price highest_bid in
    let! allocation :=
      lift (Allocation_init w (VRef property)
              (VRef (Bid_bidder highest_bid))
              (VFloat (Bid_price highest_bid)) second_highest_bid
              (VFloat final_price)) in
    ret (allocations ++ [allocation])
  else ret allocations.

Fixpoint Realtor_sell_homes_loop (keys : list addr)
    (allocations : list Allocation) : Py (list Allocation) :=
  match keys with
  | [] => ret allocations
  | property :: keys' =>
      let! allocations := Realtor_sell_home property allocations in
      Realtor_sell_homes_loop keys' allocations
  end.

(** The allocation loop of [sell_homes], up to the call of
    [complete_transactions]. *)
Definition Realtor_allocate : Py (list Allocation) :=
  let! keys := read (fun w => dict_keys (Realtor_bids (realtor w))) in
  Realtor_sell_homes_loop keys [].

(** [sell_homes()] *)
Definition Realtor_sell_homes : Py (list Allocation) :=
  let! allocations := Realtor_allocate in
  Realtor_complete_transactions allocations >>>
  modify (fun w => set_realtor w (set_Realtor_bids (realtor w) [])) >>>
  ret allocations.

(** [Realtor.step()] is [pass]. *)
Definition Realtor_step : Py unit := ret tt.

(** ** Scheduler: activation *)

(** The names passed as [step_name]. *)
Inductive method_name : Set := m_step | m_bid.

(** [getattr(agent, step_name)()]: [Land], [Person], [Firm] and [Realtor]
    define [step]; [Bank] and [Investor] inherit mesa's empty
    [Agent.step]; [bid] is defined by [Person] and (as [pass]) by
    [Investor]. *)
Definition call_method (step_name : method_name) (agent : addr) : Py unit :=
  let! o := get_obj agent in
  match step_name, o with
  | m_step, OLand _ => Land_step agent
  | m_step, OPerson _ => Person_step agent
  | m_step, OFirm => Firm_step
  | m_step, ORealtor => Realtor_step
  | m_step, (OBank _ | OInvestor _) => ret tt
  | m_bid, OPerson _ => Person_bid agent
  | m_bid, OInvestor _ => ret tt
  | m_bid, _ => raise AttributeError
  end.

(** The first two lines of [step_breed]: the keys of the breed, shuffled
    by the model's random source. *)
Definition shuffled_keys (breed : klass) : Py (list Z) :=
  let! partition := breed_partition breed in
  fun w =>
    let '(agent_keys, rng) := shuffle (dict_keys partition) (random w) in
    (set_random w rng, Ok agent_keys).

(** [step_breed(breed, step_name)] *)
Definition Schedule_step_breed (breed : klass) (step_name : method_name)
  : Py unit :=
  let! agent_keys := shuffled_keys breed in
  for_each agent_keys (fun agent_key =>
    let! partition := breed_partition breed in
    let! agent := or_raise KeyError (dict_get agent_key partition) in
    call_method step_name agent).

(** [step(by_breed=True)]; with [by_breed=False] the call is passed on to
    mesa's [RandomActivation.step], which is not part of the sources. *)
Definition Schedule_step : Py unit :=
  let! breeds := read (fun w => dict_keys (agents_by_breed (schedule w))) in
  for_each breeds (fun agent_class => Schedule_step_breed agent_class m_step)
  >>> Schedule_step_time.

End model.

Notation "'let!' x ':=' c 'in' k" := (bind c (fun x => k))
  (at level 10, x name, c at level 100, k at level 200).
Notation "c1 >>> c2" := (bind c1 (fun _ => c2))
  (at level 100, c2 at level 200, right associativity).

(** * Predicates used in the statements *)

Section statements.
Context `{RT : Runtime}.

(** A property of the model kept by a method, whether it returns or
    raises. *)
Definition preserves {A} (P : Model -> Prop) (c : Py A) : Prop :=
  forall w, P w -> P (c w).1.

(** Every bid of the book carries the default mortgage. *)
Definition book_without_mortgage (w : Model) : Prop :=
  Forall (fun entry => Forall (fun b => Bid_mortgage b = Fin 0) entry.2)
         (Realtor_bids (realtor w)).

(** The operations of the sources that reach the bid book. *)
Inductive market_op : Type :=
| op_add_bid (bidder property price : pyval)
| op_sell_homes
| op_complete_transactions (allocations : list Allocation)
| op_step_breed (breed : klass) (step_name : method_name)
| op_call (step_name : method_name) (agent : addr)
| op_schedule_add (agent : addr)
| op_schedule_remove (agent : addr).

Definition run_op (o : market_op) (w : Model) : Model :=
  match o with
  | op_add_bid b p pr => (Realtor_add_bid b p pr w).1
  | op_sell_homes => (Realtor_sell_homes w).1
  | op_complete_transactions l => (Realtor_complete_transactions l w).1
  | op_step_breed b n => (Schedule_step_breed b n w).1
  | op_call n a => (call_method n a w).1
  | op_schedule_add a => (Schedule_add a w).1
  | op_schedule_remove a => (Schedule_remove a w).1
  end.


(** The price of the bid is a number, and so is every price in the
    book. *)
Definition comparable (b : Bid) : Prop := is_nan (Bid_price b) = false.

Definition prices_comparable (w : Model) : Prop :=
  forall property bids b,
    (property, bids) ∈ Realtor_bids (realtor w) -> b ∈ bids -> comparable b.

(** Number of occurrences of [x] in a list. *)
Definition occurrences (x : addr) (l : list addr) : nat :=
  length (filter (fun y => y = x) l).

(** [agent.properties_owned] of the object at [a]; the empty list for an
    object without that attribute. *)
Definition owned_by (w : Model) (a : addr) : list addr :=
  default [] (heap w !! a ≫= properties_owned_of).

(** How many times the parcel [l] is in [a.properties_owned], for an object
    that has the attribute. *)
Definition title_count (l : addr) (w : Model) (a : addr) : option nat :=
  occurrences l <$> (heap w !! a ≫= properties_owned_of).

(** [property.owner] of the parcel at [l]. *)
Definition owner_of (w : Model) (l : addr) : option addr :=
  match heap w !! l with
  | Some (OLand x) => Land_owner x
  | _ => None
  end.

(** The ownership records of parcel [l] are those of the model [w0]. *)
Definition same_title (l : addr) (w0 w : Model) : Prop :=
  (forall a, title_count l w a = title_count l w0 a) /\
  owner_of w l = owner_of w0 l.

(** [a] is not outbid by [b]. *)
Definition not_outbid (a b : Bid) : Prop :=
  fle (Bid_price b) (Bid_price a) = true.

(** The allocation [a] clears the bids [bids] on [property]: the winner is
    the first bid of highest price, and the second-highest bid is the
    highest price among the other bids, 0 when there is none. *)
Definition clears (property : addr) (bids : list Bid) (a : Allocation)
  : Prop :=
  Allocation_property a = property /\
  exists winner before after,
    bids = before ++ winner :: after /\
    (forall b, b ∈ before -> flt (Bid_price b) (Bid_price winner) = true) /\
    (forall b, b ∈ after -> fle (Bid_price b) (Bid_price winner) = true) /\
    Allocation_successful_bidder a = Some (Bid_bidder winner) /\
    Allocation_highest_bid a = Bid_price winner /\
    Allocation_final_price a = Bid_price winner /\
    match before ++ after with
    | [] => Allocation_second_highest_bid a = Fin 0
    | _ :: _ =>
        exists second,
          second ∈ before ++ after /\
          (forall b, b ∈ before ++ after ->
                     fle (Bid_price b) (Bid_price second) = true) /\
          Allocation_second_highest_bid a = Bid_price second
    end.

(** The bid book is a dictionary (its keys are distinct) from parcels to
    bids of persons, as built by [add_bid]. *)
Definition book_wf (w : Model) : Prop :=
  NoDup (dict_keys (Realtor_bids (realtor w))) /\
  forall property bids,
    (property, bids) ∈ Realtor_bids (realtor w) ->
    (exists land, heap w !! property = Some (OLand land)) /\
    forall b, b ∈ bids -> exists p, heap w !! Bid_bidder b = Some (OPerson p).

(** The book with each list of bids sorted, as [sell_homes] leaves it
    before settlement. *)
Definition sorted_book (book : list (addr * list Bid))
  : list (addr * list Bid) :=
  prod_map id sort_by_price_desc <$> book.

Definition with_book (w : Model) (book : list (addr * list Bid)) : Model :=
  set_realtor w (set_Realtor_bids (realtor w) book).

(** No person has a negative [count]. *)
Definition counts_nonneg (w : Model) : Prop :=
  forall a p, heap w !! a = Some (OPerson p) -> (0 <= Person_count p)%Z.

(** The partition of [breed] as a lookup leaves it: empty when the breed
    has no entry. *)
Definition partition_of (breed : klass) (w : Model) : list (Z * addr) :=
  default [] (dict_get breed (agents_by_breed (schedule w))).

(** The two registries of the scheduler agree: an id is in the flat
    registry exactly when a breed partition holds it, for the same agent,
    and the partition is that of the agent's class, under the agent's
    [unique_id]. *)
Definition schedule_wf (w : Model) : Prop :=
  (forall uid a,
     Schedule_agents (schedule w) !! uid = Some a <->
     exists breed, dict_get uid (partition_of breed w) = Some a) /\
  (forall breed uid a,
     dict_get uid (partition_of breed w) = Some a ->
     exists o, heap w !! a = Some o /\ type_of o = breed /\
               unique_id_of w o = uid).


(** The price record that [Land.step] appends for the parcel [l] in the
    model [w]. *)
Definition land_record (w : Model) (l : Land) (r : PriceData) : Prop :=
  pd_id r = Land_unique_id l /\
  pd_warranted_price r
  = fdiv (Fin (Land_warranted_rent l w)) (Fin (r_prime (params w))) /\
  pd_time_step r = time_step (params w) /\
  pd_transport_cost r = Land_transport_cost l /\
  pd_wage r = Firm_wage (firm w).

(** The person [p] after the two counters of [step()] have been
    incremented, and after a pay day on top of that. *)
Definition Person_ticked (p : Person) : Person :=
  mkPerson (Person_unique_id p) (Person_init_working_period p)
    (Person_working_period p + 1) (Person_savings p)
    (Person_properties_owned p) (Person_residence p) (Person_count p + 1)
    (Person_wealth p).

Definition Person_paid (p : Person) (savings_per_step : Q) : Person :=
  mkPerson (Person_unique_id p) (Person_init_working_period p)
    (Person_working_period p + 1) (Person_savings p + savings_per_step)
    (Person_properties_owned p) (Person_residence p) (Person_count p + 1)
    (Some (Person_savings p + savings_per_step)%Q).

(** The ownership records agree: a parcel occurs once in the
    [properties_owned] of its owner and in no other list. *)
Definition title_ok (l : addr) (w : Model) : Prop :=
  forall a n,
    title_count l w a = Some n ->
    n = if decide (owner_of w l = Some a) then 1%nat else 0%nat.

Definition titles_consistent (w : Model) : Prop := forall l, title_ok l w.

(** The sale listing of [w] extends [listing]. *)
Definition listing_extends (listing : list addr) (w : Model) : Prop :=
  listing `prefix_of` Realtor_sale_listing (realtor w).

(** The class of the object at an address, and models whose objects have
    the classes and whose realtor has the rental listing of [w0]. *)
Definition class_at (w : Model) (a : addr) : option klass :=
  type_of <$> heap w !! a.

Definition same_classes (w0 w : Model) : Prop :=
  forall a, class_at w a = class_at w0 a.

Definition rental_kept (w0 w : Model) : Prop :=
  same_classes w0 w /\
  Realtor_rental_listing (realtor w) = Realtor_rental_listing (realtor w0).

(** The buyer of an allocation is a [Person], or there is none. *)
Definition bought_by_person (w : Model) (allocation : Allocation) : Prop :=
  match Allocation_successful_bidder allocation with
  | Some b => class_at w b = Some CPerson
  | None => True
  end.

End statements.

(** * A concrete runtime and scenarios *)

(** The power of a float by an int for closed examples: exact inside the
    range of a double, [OverflowError] from the least magnitude that rounds
    to an infinity, a zero up to half the least subnormal. *)
Definition double_overflow : Q := inject_Z (2 ^ 1024 - 2 ^ 970).
Definition double_underflow : Q := 1 / inject_Z (2 ^ 1075).

Definition simple_float_pow (x : pyfloat) (T : Z) : result pyfloat :=
  if (T =? 0)%Z then Ok (Fin 1)
  else
    match x with
    | Fin b =>
        if Qeq_bool b 0 then
          if (T <? 0)%Z then Raise ZeroDivisionError else Ok (Fin 0)
        else
          let y := Qpower b T in
          if Qle_bool double_overflow (Qabs y) then Raise OverflowError
          else if Qle_bool (Qabs y) double_underflow
               then Ok (signed_zero (Qltb y 0))
               else Ok (Fin y)
    | NZero =>
        if (T <? 0)%Z then Raise ZeroDivisionError
        else Ok (signed_zero (Z.odd T))
    | PInf => Ok (if (T <? 0)%Z then Fin 0 else PInf)
    | NInf =>
        Ok (if (T <? 0)%Z then signed_zero (Z.odd T)
            else signed_inf (Z.odd T))
    | NaN => Ok NaN
    end.

(** A runtime for closed examples: the grid maps agents to cells, the
    draws below [n] are the successive states of the generator modulo [n],
    and powers by a float are taken at the integral part of the
    exponent. *)
Definition simple_runtime : Runtime :=
  {| Grid := gmap addr (Z * Z);
     grid_remove_agent a g := (delete a g, Ok tt);
     grid_move_agent a pos g := (<[a := pos]> g, Ok tt);
     Rng := nat;
     randbelow n s := ((s `mod` n)%nat, S s);
     fpow b e := Ok (Qpower b (Qfloor e));
     float_pow := simple_float_pow |}.

(** A market with one parcel (object 1) owned and inhabited by the
    retiring person 2, and three newcomers 3, 4 and 5 with savings 100, 150
    and 120; the firm, the bank and the realtor are objects 6, 7 and 8. *)
Definition scenario_person (uid : Z) (savings : Q) (owned : list addr)
    (residence : option addr) : Person :=
  mkPerson uid 0 0 savings owned residence 0 None.

Definition scenario_firm : Firm :=
  mkFirm 6 40000 (18 # 100) (75 # 100) (12 # 1000) 10 400 100 3000 1 2 300
    (15 # 100) (5 # 100) (25 # 100) (15 # 100) (2 # 100) 1 (5 # 100)
    100000 0 100 500 100 100 10000 0 8000 48000 0 0 0 0.

Definition scenario_params : Params :=
  mkParams 0 (5 # 100) (5 # 100) (95 # 100) 5 0 (3 # 10) (2 # 10) 40 1000 true.

Definition scenario_land : Land :=
  mkLand 1 (0, 0)%Z 0 (Some 2%nat) (Some 2%nat) 0 0.

Definition scenario_heap : gmap addr obj :=
  list_to_map
    [(1%nat, OLand scenario_land);
     (2%nat, OPerson (scenario_person 2 0 [1%nat] (Some 1%nat)));
     (3%nat, OPerson (scenario_person 3 100 [] None));
     (4%nat, OPerson (scenario_person 4 150 [] None));
     (5%nat, OPerson (scenario_person 5 120 [] None));
     (6%nat, OFirm); (7%nat, OBank 7); (8%nat, ORealtor)].

Definition scenario_unscheduled : @Model simple_runtime :=
  @mkModel simple_runtime scenario_heap scenario_firm
    (mkRealtor 8 [1%nat] [] [])
    (mkWorkforce {[3%Z; 4%Z; 5%Z]} ∅ {[2%Z]})
    (mkSchedule ∅ [] 0 0) (∅ : gmap addr (Z * Z)) 0%nat 0 []
    scenario_params.

(** The scenario with every agent added to the scheduler. *)
Definition scenario : @Model simple_runtime :=
  (for_each (seq 1 8) Schedule_add scenario_unscheduled).1.

(** The scenario with a second [Person] object (object 9) carrying the
    unique id 3 of the registered newcomer. *)
Definition scenario_twin : @Model simple_runtime :=
  set_heap scenario
    (<[9%nat := OPerson (scenario_person 3 7 [] None)]> (heap scenario)).

(** The three newcomers bid, then the realtor's book is cleared. *)
Definition scenario_ops : list market_op :=
  [op_call m_bid 3%nat; op_call m_bid 4%nat; op_call m_bid 5%nat].

(** The scenario under other model parameters. *)
Definition with_params (w : @Model simple_runtime) (x : Params)
  : @Model simple_runtime :=
  @mkModel simple_runtime (heap w) (firm w) (realtor w) (workforce w)
    (schedule w) (grid w) (random w) (removed_agents w) (step_price_data w) x.

(** A zero target rate and no expected appreciation: the discount
    denominator [(1 - m) * 0 / delta**T - 0] is zero. *)
Definition scenario_zero_discount : @Model simple_runtime :=
  with_params scenario
    (mkParams 0 (5 # 100) 0 (95 # 100) 5 0 (3 # 10) (2 # 10) 40 1000 true).

(** Expected appreciation above the discounted target rate: the discount
    denominator is negative. *)
Definition scenario_boom : @Model simple_runtime :=
  with_params scenario
    (mkParams 0 (5 # 100) (5 # 100) (95 # 100) 5 1 (3 # 10) (2 # 10) 40 1000
       true).

(** The same with the parcel so far from the centre that its net rent is
    negative. *)
Definition scenario_boom_remote : @Model simple_runtime :=
  set_heap scenario_boom
    (<[1%nat := OLand (mkLand 1 (0, 0)%Z 0 (Some 2%nat) (Some 2%nat) 0 100000)]>
       (heap scenario_boom)).

(** The quantities of [get_max_bid] for newcomer 3 and the parcel. *)
Definition scenario_R_N : pyfloat :=
  Eval vm_compute in Land_net_rent scenario_land scenario.
Definition scenario_r : Q := (5 # 100) + (2 # 1000).

Definition scenario_M : Q :=
  Eval vm_compute in
    match Person_get_max_mortgage (scenario_person 3 100 [] None) scenario with
    | Ok x => x
    | Raise _ => 0
    end.
(** The annuity values of the net rent and the discount denominators when
    prices boom, and with a zero target rate. *)
Definition scenario_R_NT : pyfloat :=
  Eval vm_compute in
    match @Bank_R_NT simple_runtime scenario_R_N scenario_r 5 with
    | Ok x => x
    | Raise _ => NaN
    end.

Definition scenario_boom_discount : pyfloat :=
  Eval vm_compute in
    match @Bank_discount simple_runtime (5 # 100) (8 # 10) (95 # 100) 5 1
    with
    | Ok x => x
    | Raise _ => NaN
    end.

Definition scenario_zero_R_NT : pyfloat :=
  Eval vm_compute in
    match @Bank_R_NT simple_runtime scenario_R_N (2 # 1000) 5 with
    | Ok x => x
    | Raise _ => NaN
    end.

Definition scenario_zero_denominator : pyfloat :=
  Eval vm_compute in
    match @Bank_discount simple_runtime 0 (8 # 10) (95 # 100) 5 0 with
    | Ok x => x
    | Raise _ => NaN
    end.

Definition scenario_zero_M : Q :=
  Eval vm_compute in
    match Person_get_max_mortgage (scenario_person 3 100 [] None)
            scenario_zero_discount with
    | Ok x => x
    | Raise _ => 0
    end.

Definition scenario_P_max_bid : pyfloat :=
  Eval vm_compute in
    match Bank_get_max_bid (np_float64 scenario_R_N) scenario_r (5 # 100)
            (8 # 10) 0 scenario with
    | Ok x => x
    | Raise _ => NaN
    end.

(** The allocation of the parcel to newcomer 4 for 150. *)
Definition scenario_allocation : Allocation :=
  mkAllocation 1%nat (Some 4%nat) (Fin 150) (Fin 120) (Fin 150).

(** How a parcel comes to be listed twice: a person (object 9) is
    constructed with the parcel of person 2 as its residence, which makes
    it the owner and leaves the parcel in the list of person 2; when
    person 2 then buys the parcel back, it is appended a second time. *)
Definition scenario_double_title : @Model simple_runtime :=
  ((Person_init 9 0 0 (Some 1%nat) >>>
    Realtor_complete_transactions
      [mkAllocation 1%nat (Some 2%nat) (Fin 90) (Fin 0) (Fin 90)])
     scenario).1.

(** The scenario after bids of 150, NaN and 200 on the parcel by the
    newcomers 3, 4 and 5. *)
Definition scenario_nan_bids : @Model simple_runtime :=
  (for_each [(3%nat, Fin 150); (4%nat, NaN); (5%nat, Fin 200)]
     (fun bid => Realtor_add_bid (VRef bid.1) (VRef 1%nat) (VFloat bid.2))
     scenario).1.

(** The scenario after bids of 100, 150 and 120 on the parcel by the
    newcomers 3, 4 and 5. *)
Definition scenario_bids : @Model simple_runtime :=
  (for_each [(3%nat, 100%Z); (4%nat, 150%Z); (5%nat, 120%Z)]
     (fun bid => Realtor_add_bid (VRef bid.1) (VRef 1%nat) (VInt bid.2))
     scenario).1.




(** The scenario after the settlement of [scenario_allocation], from the
    scenario and from the state with the doubled title. *)
Definition scenario_sold : @Model simple_runtime :=
  (Realtor_complete_transactions [scenario_allocation] scenario).1.

Definition scenario_resold : @Model simple_runtime :=
  (Realtor_complete_transactions [scenario_allocation]
     scenario_double_title).1.

(** The scenario with a stray parcel (object 9) that carries the unique id
    3 of the registered newcomer and was never added to the scheduler. *)
Definition scenario_stray : @Model simple_runtime :=
  set_heap scenario
    (<[9%nat := OLand (mkLand 3 (1, 1)%Z 0 None None 1 1)]> (heap scenario)).

(** The unscheduled scenario after [add] of newcomer 3. *)
Definition scenario_registered : @Model simple_runtime :=
  (Schedule_add 3%nat scenario_unscheduled).1.

(** The scenario where nobody is retiring yet and the retirement age is
    0: person 2 retires at its next step. *)
Definition scenario_elder : @Model simple_runtime :=
  with_params
    (set_workforce scenario (mkWorkforce {[3%Z; 4%Z; 5%Z]} ∅ ∅))
    (mkParams 0 (5 # 100) (5 # 100) (95 # 100) 5 0 (3 # 10) (2 # 10) 0 1000
       true).

(** The scenario with [r_prime = 0], and with nothing for sale. *)
Definition scenario_no_rate : @Model simple_runtime :=
  with_params scenario
    (mkParams 0 0 (5 # 100) (95 # 100) 5 0 (3 # 10) (2 # 10) 40 1000 true).

Definition scenario_unlisted : @Model simple_runtime :=
  set_realtor scenario (mkRealtor 8 [] [] []).

(** The scenario with no firm left. *)
Definition scenario_no_firms : @Model simple_runtime :=
  set_firm scenario
    (set_Firm_F scenario_firm 0).

(** The scenario with the parcel owned by nobody. *)
Definition scenario_unowned : @Model simple_runtime :=
  set_heap scenario
    (<[1%nat := OLand (mkLand 1 (0, 0)%Z 0 None None 0 0)]> (heap scenario)).

(** * Proofs *)

(** ** Floats *)

Lemma Qltb_lt a b : Qltb a b = true <-> (a < b)%Q.
Proof.
  unfold Qltb. rewrite Qlt_alt. by destruct (a ?= b)%Q.
Qed.

Lemma Qltb_ge a b : Qltb a b = false <-> (b <= a)%Q.
Proof.
  rewrite <- not_true_iff_false, Qltb_lt. split.
  - apply Qnot_lt_le.
  - intros H1 H2. by apply (Qlt_not_le _ _ H2).
Qed.

Ltac fl_cases :=
  repeat match goal with
  | x : pyfloat |- _ => destruct x
  end; simpl in *; try done.

Ltac Q_bools :=
  repeat match goal with
  | H : Qltb _ _ = true |- _ => apply Qltb_lt in H
  | H : Qltb _ _ = false |- _ => apply Qltb_ge in H
  | |- Qltb _ _ = true => apply Qltb_lt
  | |- Qltb _ _ = false => apply Qltb_ge
  end.

Lemma flt_irrefl x : flt x x = false.
Proof. destruct x; simpl; try done. apply Qltb_ge, Qle_refl. Qed.

Lemma flt_trans x y z : flt x y = true -> flt y z = true -> flt x z = true.
Proof. intros H1 H2. fl_cases; Q_bools; lra. Qed.

Lemma fle_trans x y z :
  is_nan x = false -> is_nan y = false -> is_nan z = false ->
  flt y x = false -> flt z y = false -> flt z x = false.
Proof. intros Hx Hy Hz H1 H2. fl_cases; Q_bools; lra. Qed.

Lemma fmin_le_r a b : flt b (fmin a b) = false.
Proof.
  unfold fmin. destruct (flt b a) eqn:E; [apply flt_irrefl | done].
Qed.

Lemma fmul_branch m P :
  (0 < m)%Q -> flt (fmul (Fin m) P) (Fin m) = flt P (Fin 1).
Proof.
  intros Hm. destruct P as [q| | | |]; simpl.
  - assert (Hneg : Qltb m 0 = false) by (apply Qltb_ge; lra).
    rewrite Hneg. simpl.
    destruct (Qeq_bool (m * q) 0 && Qltb q 0) eqn:E.
    { apply andb_prop in E as [E1 E2]. apply Qeq_bool_eq in E1. Q_bools. nra. }
    simpl. destruct (Qltb q 1) eqn:E1; Q_bools; nra.
  - assert (Hneg : Qltb m 0 = false) by (apply Qltb_ge; lra).
    assert (Hpos : Qltb 0 m = true) by (by apply Qltb_lt).
    rewrite Hneg. simpl. by rewrite Hpos.
  - assert (Hz : Qeq_bool m 0 = false).
    { apply not_true_iff_false. intros E. apply Qeq_bool_eq in E. lra. }
    assert (Hneg : Qltb m 0 = false) by (apply Qltb_ge; lra).
    by rewrite Hz, Hneg.
  - assert (Hz : Qeq_bool m 0 = false).
    { apply not_true_iff_false. intros E. apply Qeq_bool_eq in E. lra. }
    assert (Hneg : Qltb m 0 = false) by (apply Qltb_ge; lra).
    by rewrite Hz, Hneg.
  - done.
Qed.

Lemma price_not_positive m S P :
  (0 < m)%Q -> is_nan P = false -> flt (Fin 0) P = false ->
  flt (fmul (Fin m) P) (Fin m) = true /\
  flt (Fin 0) (fmin (fadd (fmul (Fin m) P) (Fin S)) P) = false.
Proof.
  intros Hm Hnan HP. split.
  { rewrite fmul_branch by done.
    destruct P; simpl in *; try done; Q_bools; lra. }
  pose proof (fmin_le_r (fadd (fmul (Fin m) P) (Fin S)) P) as Hle.
  destruct (flt (Fin 0) (fmin (fadd (fmul (Fin m) P) (Fin S)) P)) eqn:E;
    [|done].
  unfold fmin in *. destruct (flt P _) eqn:Hlt; [congruence|].
  exfalso. clear Hle.
  assert (Hneg : Qltb m 0 = false) by (apply Qltb_ge; lra).
  assert (Hz : Qeq_bool m 0 = false).
  { apply not_true_iff_false. intros Ez. apply Qeq_bool_eq in Ez. lra. }
  destruct P as [q| | | |]; simpl in *; try done.
  - rewrite Hneg in *. simpl in *.
    destruct (Qeq_bool (m * q) 0 && _) eqn:Ez.
    + apply andb_prop in Ez as [E1 E2]. apply Qeq_bool_eq in E1.
      Q_bools. nra.
    + simpl in *. destruct (Qltb q (m * q + S)) eqn:E3; simpl in *;
        Q_bools; lra.
  - rewrite Hneg in *. simpl in *.
    destruct (Qltb 0 S) eqn:E3; simpl in *; Q_bools; lra.
  - rewrite Hz, Hneg in *. simpl in *. done.
Qed.

(** The quotient by a zero. *)
Lemma fdiv_zero x y :
  is_zero y = true -> fdiv x y = PInf \/ fdiv x y = NInf \/ fdiv x y = NaN.
Proof.
  intros Hy. destruct x as [a| | | |], y as [b| | | |]; simpl in *;
    try done; rewrite ?Hy; unfold signed_inf; auto;
    repeat (case_match; simpl; auto).
Qed.

(** The price when the maximum bid is infinite or a NaN. *)
Lemma price_of_invalid_bid m M S P :
  (0 < m)%Q -> P = PInf \/ P = NInf \/ P = NaN ->
  let mortgage := if flt (fmul (Fin m) P) (Fin m) then fmul (Fin m) P
                  else Fin M in
  fmin (fadd mortgage (Fin S)) P
  = match P with NInf => NInf | _ => Fin (M + S) end.
Proof.
  intros Hm HP.
  assert (Hz : Qeq_bool m 0 = false).
  { apply not_true_iff_false. intros Ez. apply Qeq_bool_eq in Ez. lra. }
  assert (Hneg : Qltb m 0 = false) by (apply Qltb_ge; lra).
  destruct HP as [-> | [-> | ->]]; simpl; rewrite ?Hz, ?Hneg; done.
Qed.

(** The quotient of a number that is not negative by a negative one. *)
Lemma fdiv_negative R d :
  (d < 0)%Q -> is_nan R = false -> flt R (Fin 0) = false ->
  is_nan (fdiv R (Fin d)) = false /\ flt (Fin 0) (fdiv R (Fin d)) = false.
Proof.
  intros Hneg Hnan Hpos.
  assert (Hdz : Qeq_bool d 0 = false).
  { apply not_true_iff_false. intros Ez. apply Qeq_bool_eq in Ez. lra. }
  assert (Hdn : Qltb d 0 = true) by (by apply Qltb_lt).
  destruct R as [a| | | |]; simpl in *; try done;
    rewrite ?Hdz, ?Hdn; simpl; try done.
  apply Qltb_ge in Hpos.
  destruct (Qltb a 0) eqn:Ea; [apply Qltb_lt in Ea; lra|]. simpl.
  destruct (Qeq_bool a 0) eqn:Ez; simpl; [done|].
  split; [done|]. apply Qltb_ge.
  assert (Hinv : (/ d < 0)%Q).
  { apply Qnot_le_lt. intros Hge.
    assert (H1 : (d * / d == 1)%Q) by (apply Qmult_inv_r; lra).
    nra. }
  unfold Qdiv. nra.
Qed.

Lemma fle_of_not_lt x y :
  is_nan x = false -> is_nan y = false -> flt y x = false -> fle x y = true.
Proof. unfold fle. by intros -> -> ->. Qed.

(** The price offered is positive exactly when the maximum bid is. *)
Lemma price_positive_iff m M S P :
  (0 < m)%Q -> (0 <= S)%Q -> (0 < M + S)%Q -> is_nan P = false ->
  flt (Fin 0)
    (fmin (fadd (if flt P (Fin 1) then fmul (Fin m) P else Fin M) (Fin S)) P)
  = flt (Fin 0) P.
Proof.
  intros Hm HS HMS Hnan.
  assert (Hneg : Qltb m 0 = false) by (apply Qltb_ge; lra).
  assert (Hz : Qeq_bool m 0 = false).
  { apply not_true_iff_false. intros Ez. apply Qeq_bool_eq in Ez. lra. }
  unfold fmin.
  destruct P as [q| | | |]; simpl in *; try done;
    rewrite ?Hneg, ?Hz; simpl.
  - destruct (Qltb q 1) eqn:E1; simpl.
    + destruct (Qeq_bool (m * q) 0 && _) eqn:Ez.
      { apply andb_prop in Ez as [Ez1 Ez2]. apply Qeq_bool_eq in Ez1.
        Q_bools. nra. }
      simpl. destruct (Qltb q (m * q + S)) eqn:E2; simpl; [done|].
      destruct (Qltb 0 q) eqn:E3; Q_bools; nra.
    + destruct (Qltb q (M + S)) eqn:E2; simpl; [done|].
      destruct (Qltb 0 q) eqn:E3; Q_bools; nra.
  - destruct (Qltb 0 1) eqn:E1; [|Q_bools; lra]. simpl.
    destruct (Qltb 0 S) eqn:E2; simpl; [done|]. by rewrite E2.
  - by apply Qltb_lt.
  - done.
Qed.

Lemma price_below_bid a P :
  is_nan a = false -> is_nan P = false -> fle (fmin a P) P = true.
Proof.
  intros Ha HP. unfold fmin. destruct (flt P a) eqn:E.
  - apply fle_of_not_lt; auto using flt_irrefl.
  - by apply fle_of_not_lt.
Qed.

Lemma price_mortgage_number m M S P :
  (0 < m)%Q -> is_nan P = false ->
  is_nan (fadd (if flt P (Fin 1) then fmul (Fin m) P else Fin M) (Fin S))
  = false.
Proof.
  intros Hm Hnan.
  assert (Hneg : Qltb m 0 = false) by (apply Qltb_ge; lra).
  assert (Hz : Qeq_bool m 0 = false).
  { apply not_true_iff_false. intros Ez. apply Qeq_bool_eq in Ez. lra. }
  destruct P as [q| | | |]; simpl in *; try done;
    rewrite ?Hneg, ?Hz; simpl; try done.
  - destruct (Qltb q 1); simpl; [|done].
    by destruct (Qeq_bool (m * q) 0 && _).
Qed.

(** ** The sort

    For a comparison that is a strict order, and whose negation is
    transitive on the elements that satisfy [ok], the sort of a list of
    such elements is the stable sort. *)
Section list_sort_facts.
Context {A : Type} (lt : A -> A -> bool) (ok : A -> Prop).
Hypothesis lt_irrefl : forall x, lt x x = false.
Hypothesis lt_trans : forall x y z, lt x y = true -> lt y z = true -> lt x z = true.
Hypothesis le_trans : forall x y z, ok x -> ok y -> ok z ->
  lt y x = false -> lt z y = false -> lt z x = false.

Lemma lt_le_trans x y z :
  ok x -> ok y -> ok z -> lt x y = true -> lt z y = false -> lt x z = true.
Proof.
  intros Hx Hy Hz Hxy Hzy. destruct (lt x z) eqn:E; [done|].
  by rewrite (le_trans y z x) in Hxy.
Qed.

Lemma le_lt_trans x y z :
  ok x -> ok y -> ok z -> lt y x = false -> lt y z = true -> lt x z = true.
Proof.
  intros Hx Hy Hz Hyx Hyz. destruct (lt x z) eqn:E; [done|].
  by rewrite (le_trans z x y) in Hyz.
Qed.

Lemma ascending_lookup s i j x y :
  ascending lt s -> s !! i = Some x -> s !! j = Some y -> (i < j)%nat ->
  lt y x = false.
Proof.
  intros Hs Hi Hj Hij. unfold ascending in Hs.
  rewrite <- (take_drop (S i) s) in Hs.
  apply (StronglySorted_app_1_elem_of _ _ _ x y) in Hs; [done| |].
  - apply list_elem_of_lookup. exists i. apply lookup_take_Some. split; [done|lia].
  - apply list_elem_of_lookup. exists (j - S i)%nat.
    rewrite lookup_drop. by replace (S i + (j - S i))%nat with j by lia.
Qed.

Lemma half_bounds l r :
  (l < r)%nat ->
  let p := (l + (r - l) / 2)%nat in
  (l <= p < r)%nat /\ (2 * (p - l) <= r - l)%nat /\ (2 * (r - S p) < r - l)%nat.
Proof.
  intros Hlt p. subst p.
  pose proof (Nat.div_mod_eq (r - l) 2) as E.
  pose proof (Nat.mod_upper_bound (r - l) 2) as B. lia.
Qed.

(** [bisect] on an ascending lt list. *)
Lemma bisect_spec fuel pivot s : forall l r,
  ok pivot -> Forall ok s -> ascending lt s ->
  (l <= r <= length s)%nat -> (r - l < 2 ^ fuel)%nat ->
  Forall (fun x => lt pivot x = false) (take l s) ->
  Forall (fun x => lt pivot x = true) (drop r s) ->
  let i := bisect lt fuel pivot s l r in
  (i <= length s)%nat /\
  Forall (fun x => lt pivot x = false) (take i s) /\
  Forall (fun x => lt pivot x = true) (drop i s).
Proof.
  intros l r Hp Hok Hs. revert l r. rewrite Forall_forall in Hok.
  induction fuel as [|fuel IH]; intros l r Hlr Hfuel Hlow Hhigh;
    cbn [bisect]; cbv zeta.
  - simpl in Hfuel. assert (l = r) as -> by lia. split; [lia|done].
  - case_decide as Hlt.
    2:{ assert (l = r) as -> by lia. split; [lia|done]. }
    destruct (half_bounds l r Hlt) as (Hp1 & Hp2 & Hp3).
    set (p := (l + (r - l) / 2)%nat) in *.
    rewrite Nat.pow_succ_r' in Hfuel.
    destruct (s !! p) as [x|] eqn:Hx.
    2:{ apply lookup_ge_None in Hx. lia. }
    assert (Hokx : ok x) by (apply Hok; by eapply list_elem_of_lookup_2).
    destruct (lt pivot x) eqn:E.
    + apply IH; [lia|lia|done|].
      apply Forall_forall. intros y Hy.
      apply list_elem_of_lookup in Hy as [j Hj].
      rewrite lookup_drop in Hj.
      destruct j as [|j].
      { rewrite Nat.add_0_r, Hx in Hj. by injection Hj as <-. }
      assert (Hoky : ok y) by (apply Hok; by eapply list_elem_of_lookup_2).
      apply (lt_le_trans pivot x y); try done.
      apply (ascending_lookup s p (p + S j) x y); [done|done|done|lia].
    + apply IH; [lia|lia| |done].
      apply Forall_forall. intros y Hy.
      apply list_elem_of_lookup in Hy as [j Hj].
      apply lookup_take_Some in Hj as [Hj Hjp].
      destruct (decide (j = p)) as [->|Hne].
      { rewrite Hx in Hj. by injection Hj as <-. }
      assert (Hoky : ok y) by (apply Hok; by eapply list_elem_of_lookup_2).
      destruct (lt pivot y) eqn:E2; [|done].
      rewrite (lt_le_trans pivot y x) in E; try done.
      apply (ascending_lookup s j p y x); [done|done|done|lia].
Qed.

Lemma insert_upper_split x s1 s2 :
  Forall (fun y => lt x y = false) s1 ->
  Forall (fun y => lt x y = true) s2 ->
  insert_upper lt x (s1 ++ s2) = s1 ++ x :: s2.
Proof.
  intros H1 H2. induction H1 as [|y s1 Hy H1 IH]; simpl.
  - destruct H2 as [|y s2 Hy H2]; simpl; [done|]. by rewrite Hy.
  - by rewrite Hy, IH.
Qed.

Lemma lt_pow2 n : (n < 2 ^ n)%nat.
Proof. apply Nat.pow_gt_lin_r. lia. Qed.

Lemma binary_insert_upper s pivot :
  ok pivot -> Forall ok s -> ascending lt s ->
  binary_insert lt s pivot = insert_upper lt pivot s.
Proof.
  intros Hp Hok Hs. unfold binary_insert.
  destruct (bisect_spec (length s) pivot s 0 (length s)) as (Hi & Hlow & Hhigh);
    try done.
  - lia.
  - rewrite Nat.sub_0_r. apply lt_pow2.
  - by rewrite drop_all.
  - set (i := bisect _ _ _ _ _ _) in *.
    rewrite <- (take_drop i s) at 3. by rewrite insert_upper_split.
Qed.

Lemma binary_insert_Permutation s x : binary_insert lt s x ≡ₚ x :: s.
Proof.
  unfold binary_insert. rewrite <- Permutation_middle.
  by rewrite take_drop.
Qed.

Lemma insert_upper_Permutation x s : insert_upper lt x s ≡ₚ x :: s.
Proof.
  induction s as [|y s IH]; simpl; [done|].
  case_match; [done|]. rewrite IH. apply Permutation_swap.
Qed.

Lemma insert_upper_ascending x s :
  ok x -> Forall ok s -> ascending lt s -> ascending lt (insert_upper lt x s).
Proof.
  intros Hx Hok Hs. induction Hs as [|y s Hs IH Hy]; simpl.
  - by repeat constructor.
  - apply Forall_cons in Hok as [Hoky Hok].
    destruct (lt x y) eqn:E.
    + constructor; [by constructor|].
      constructor.
      * destruct (lt y x) eqn:E2; [|done].
        pose proof (lt_trans x y x E E2) as Hxx. by rewrite lt_irrefl in Hxx.
      * rewrite Forall_forall in Hy |- *. intros z Hz.
        destruct (lt z x) eqn:E2; [|done].
        pose proof (lt_trans z x y E2 E) as Hzy. by rewrite Hy in Hzy.
    + constructor; [by apply IH|].
      rewrite insert_upper_Permutation. by constructor.
Qed.

Lemma filter_none (P : A -> Prop) `{forall x, Decision (P x)} l :
  Forall (fun x => ~ P x) l -> filter P l = [].
Proof.
  induction 1 as [|x l Hx Hl IH]; [done|].
  by rewrite filter_cons_False.
Qed.

(** The insertion does not reorder elements none of which is below
    another. *)
Lemma insert_upper_stable (P : A -> Prop) `{forall x, Decision (P x)} x s :
  ok x -> Forall ok s -> ascending lt s ->
  (forall y, y ∈ s -> P x -> P y -> lt x y = false) ->
  filter P (insert_upper lt x s) = filter P (s ++ [x]).
Proof.
  intros Hx Hok Hs Hclass. induction Hs as [|y s Hs IH Hy]; simpl; [done|].
  apply Forall_cons in Hok as [Hoky Hok].
  destruct (lt x y) eqn:E.
  - change (y :: s ++ [x]) with ((y :: s) ++ [x]).
    rewrite (filter_cons _ x), filter_app, (filter_cons _ x), filter_nil.
    destruct (decide (P x)) as [HPx|HPx]; [|by rewrite app_nil_r].
    assert (Hnone : filter P (y :: s) = []).
    { apply filter_none, Forall_forall. intros z Hz HPz.
      assert (Hxz : lt x z = true).
      { apply elem_of_cons in Hz as [->|Hz]; [done|].
        rewrite Forall_forall in Hy, Hok.
        apply (lt_le_trans x y z); auto. }
      by rewrite Hclass in Hxz. }
    by rewrite Hnone.
  - rewrite !filter_cons. rewrite IH; [done|done|].
    intros z Hz. apply Hclass. by right.
Qed.

Lemma binary_insertion_sort s0 l :
  Forall ok s0 -> Forall ok l -> ascending lt s0 ->
  foldl (binary_insert lt) s0 l = insertion_sort_from lt s0 l.
Proof.
  intros H0 Hl. revert s0 H0. induction Hl as [|x l Hx Hl IH]; intros s0 H0 Hs0;
    simpl; [done|].
  rewrite binary_insert_upper by done.
  apply IH.
  - rewrite insert_upper_Permutation. by constructor.
  - by apply insert_upper_ascending.
Qed.

Lemma insertion_sort_from_Permutation s0 l : insertion_sort_from lt s0 l ≡ₚ s0 ++ l.
Proof.
  revert s0. induction l as [|x l IH]; intros s0; simpl.
  - by rewrite app_nil_r.
  - unfold insertion_sort_from in *. simpl. rewrite IH, insert_upper_Permutation.
    by rewrite <- Permutation_middle.
Qed.

Lemma insertion_sort_from_ascending s0 l :
  Forall ok s0 -> Forall ok l -> ascending lt s0 ->
  ascending lt (insertion_sort_from lt s0 l).
Proof.
  intros H0 Hl. revert s0 H0. induction Hl as [|x l Hx Hl IH]; intros s0 H0 Hs0;
    simpl; [done|].
  apply IH.
  - rewrite insert_upper_Permutation. by constructor.
  - by apply insert_upper_ascending.
Qed.

Lemma insertion_sort_from_stable (P : A -> Prop) `{forall x, Decision (P x)}
    s0 l :
  Forall ok s0 -> Forall ok l -> ascending lt s0 ->
  (forall x y, x ∈ s0 ++ l -> y ∈ s0 ++ l -> P x -> P y -> lt x y = false) ->
  filter P (insertion_sort_from lt s0 l) = filter P (s0 ++ l).
Proof.
  intros H0 Hl. revert s0 H0. induction Hl as [|x l Hx Hl IH];
    intros s0 H0 Hs0 Hclass; simpl.
  - by rewrite app_nil_r.
  - unfold insertion_sort_from in *. simpl. rewrite IH.
    + rewrite filter_app, insert_upper_stable; try done.
      * by rewrite <- filter_app, <- app_assoc.
      * intros y Hy. apply Hclass.
        -- apply elem_of_app. right. by left.
        -- apply elem_of_app. by left.
    + rewrite insert_upper_Permutation. by constructor.
    + by apply insert_upper_ascending.
    + intros y z Hy Hz.
      rewrite insert_upper_Permutation in Hy, Hz. simpl in Hy, Hz.
      rewrite Permutation_middle in Hy, Hz. by apply Hclass.
Qed.

Lemma StronglySorted_reverse (R : relation A) l :
  StronglySorted R l -> StronglySorted (flip R) (reverse l).
Proof.
  induction 1 as [|x l Hl IH Hx]; [constructor|].
  rewrite reverse_cons. apply StronglySorted_app_2.
  - intros y z Hy Hz. apply list_elem_of_singleton in Hz as ->.
    rewrite elem_of_reverse in Hy. rewrite Forall_forall in Hx.
    unfold flip. by apply Hx.
  - done.
  - by repeat constructor.
Qed.

Lemma elem_of_take_1 (x : A) n l : x ∈ take n l -> x ∈ l.
Proof.
  intros H. rewrite <- (take_drop n l). apply elem_of_app. by left.
Qed.

(** The initial run found by [count_run]. *)
Lemma run_ascending_sorted prev l :
  ok prev -> Forall ok l ->
  ascending lt (prev :: take (run_ascending lt prev l) l).
Proof.
  intros Hp Hl. revert prev Hp.
  induction Hl as [|x l Hx Hl IH]; intros prev Hp; simpl.
  - by repeat constructor.
  - destruct (lt x prev) eqn:E; simpl; [by repeat constructor|].
    specialize (IH x Hx). constructor; [done|].
    constructor; [done|].
    apply StronglySorted_inv in IH as [_ IH].
    rewrite Forall_forall in IH |- *. intros z Hz.
    apply (le_trans prev x z); auto.
    rewrite Forall_forall in Hl. apply Hl. by eapply elem_of_take_1.
Qed.

Lemma run_descending_sorted prev l :
  strictly_descending lt (prev :: take (run_descending lt prev l) l).
Proof.
  revert prev. induction l as [|x l IH]; intros prev; simpl.
  - by repeat constructor.
  - destruct (lt x prev) eqn:E; simpl; [|by repeat constructor].
    specialize (IH x). constructor; [done|].
    constructor; [done|].
    apply StronglySorted_inv in IH as [_ IH].
    rewrite Forall_forall in IH |- *. intros z Hz.
    by apply (lt_trans z x prev); auto.
Qed.

Lemma lt_asym x y : lt x y = true -> lt y x = false.
Proof.
  intros H. destruct (lt y x) eqn:E; [|done].
  pose proof (lt_trans x y x H E) as Hxx. by rewrite lt_irrefl in Hxx.
Qed.

Lemma strictly_descending_reverse l :
  strictly_descending lt l -> ascending lt (reverse l).
Proof.
  intros H. apply StronglySorted_reverse in H.
  unfold ascending. induction H as [|x k Hk IH Hx]; constructor; [done|].
  eapply Forall_impl; [exact Hx|]. intros y Hy. by apply lt_asym.
Qed.

(** At most one element of a strictly descending list belongs to a class
    of elements none of which is below another. *)
Lemma strictly_descending_filter (P : A -> Prop) `{forall x, Decision (P x)} l :
  strictly_descending lt l ->
  (forall x y, x ∈ l -> y ∈ l -> P x -> P y -> lt x y = false) ->
  filter P (reverse l) = filter P l.
Proof.
  intros Hl Hclass. rewrite filter_reverse.
  assert (Hshort : (length (filter P l) <= 1)%nat).
  { induction Hl as [|x l Hl IH Hx]; [simpl; lia|].
    rewrite filter_cons. destruct (decide (P x)) as [HPx|HPx].
    - rewrite filter_none; [simpl; lia|].
      rewrite Forall_forall in Hx |- *. intros y Hy HPy.
      specialize (Hx y Hy). rewrite Hclass in Hx; try done.
      + by right.
      + by left.
    - apply IH. intros y z Hy Hz. apply Hclass; by right. }
  destruct (filter P l) as [|x [|y k]]; try done. simpl in Hshort. lia.
Qed.

Lemma count_run_lt l : l <> [] -> (0 < (count_run lt l).1 <= length l)%nat.
Proof.
  destruct l as [|x [|y l]]; [done|simpl; lia|]. intros _.
  assert (Hd : forall prev k, (run_descending lt prev k <= length k)%nat).
  { intros prev k. revert prev. induction k as [|z k IH]; intros prev; simpl;
      [lia|]. case_match; [specialize (IH z)|]; lia. }
  assert (Ha : forall prev k, (run_ascending lt prev k <= length k)%nat).
  { intros prev k. revert prev. induction k as [|z k IH]; intros prev; simpl;
      [lia|]. case_match; [|specialize (IH z)]; lia. }
  simpl. specialize (Hd y l). specialize (Ha y l).
  destruct (lt y x); simpl; lia.
Qed.

(** The run that [list_sort] starts from. *)
Lemma initial_run_descending x y l :
  lt y x = true ->
  strictly_descending lt (take (2 + run_descending lt y l) (x :: y :: l)).
Proof.
  intros E. cbn [Nat.add take]. constructor.
  - apply run_descending_sorted.
  - pose proof (run_descending_sorted y l) as Hs.
    constructor; [done|].
    apply StronglySorted_inv in Hs as [_ Hs].
    eapply Forall_impl; [exact Hs|]. intros z Hz. cbv beta in *.
    by apply (lt_trans z y x).
Qed.

Lemma initial_run_ascending l :
  Forall ok l ->
  let '(n, descending) := count_run lt l in
  ascending lt (if descending then reverse (take n l) else take n l).
Proof.
  intros Hok. destruct l as [|x [|y l]].
  - constructor.
  - by repeat constructor.
  - cbn [count_run]. destruct (lt y x) eqn:E.
    + by apply strictly_descending_reverse, initial_run_descending.
    + apply Forall_cons in Hok as [Hx Hok]. apply Forall_cons in Hok as [Hy Hok].
      cbn [Nat.add take].
      pose proof (run_ascending_sorted y l Hy Hok) as Hs.
      constructor; [done|]. constructor; [done|].
      apply StronglySorted_inv in Hs as [_ Hs].
      rewrite Forall_forall in Hs |- *. intros z Hz.
      apply (le_trans x y z); auto.
      rewrite Forall_forall in Hok. apply Hok. by eapply elem_of_take_1.
Qed.

Lemma initial_run_filter (P : A -> Prop) `{forall x, Decision (P x)} l :
  (forall x y, x ∈ l -> y ∈ l -> P x -> P y -> lt x y = false) ->
  let '(n, descending) := count_run lt l in
  filter P (if descending then reverse (take n l) else take n l)
  = filter P (take n l).
Proof.
  intros Hclass. destruct l as [|x [|y l]]; [done|done|].
  cbn [count_run]. destruct (lt y x) eqn:E; [|done].
  apply strictly_descending_filter; [by apply initial_run_descending|].
  intros a b Ha Hb. apply Hclass; by eapply elem_of_take_1.
Qed.

Lemma list_sort_Permutation l : list_sort lt l ≡ₚ l.
Proof.
  unfold list_sort. destruct (count_run lt l) as [n descending].
  assert (Hfold : forall s0 k, foldl (binary_insert lt) s0 k ≡ₚ s0 ++ k).
  { intros s0 k. revert s0. induction k as [|x k IH]; intros s0; simpl.
    - by rewrite app_nil_r.
    - rewrite IH, binary_insert_Permutation. by rewrite <- Permutation_middle. }
  rewrite Hfold. destruct descending.
  - by rewrite reverse_Permutation, take_drop.
  - by rewrite take_drop.
Qed.

Lemma list_sort_is_insertion_sort l :
  Forall ok l ->
  list_sort lt l
  = let '(n, descending) := count_run lt l in
    insertion_sort_from lt (if descending then reverse (take n l) else take n l)
      (drop n l).
Proof.
  intros Hok. unfold list_sort.
  pose proof (initial_run_ascending l Hok) as Hrun.
  destruct (count_run lt l) as [n descending].
  apply binary_insertion_sort.
  - destruct descending; [rewrite reverse_Permutation|]; by apply Forall_take.
  - by apply Forall_drop.
  - done.
Qed.

Lemma list_sort_ascending l : Forall ok l -> ascending lt (list_sort lt l).
Proof.
  intros Hok. rewrite list_sort_is_insertion_sort by done.
  pose proof (initial_run_ascending l Hok) as Hrun.
  destruct (count_run lt l) as [n descending].
  apply insertion_sort_from_ascending.
  - destruct descending; [rewrite reverse_Permutation|]; by apply Forall_take.
  - by apply Forall_drop.
  - done.
Qed.

Lemma list_sort_stable (P : A -> Prop) `{forall x, Decision (P x)} l :
  Forall ok l ->
  (forall x y, x ∈ l -> y ∈ l -> P x -> P y -> lt x y = false) ->
  filter P (list_sort lt l) = filter P l.
Proof.
  intros Hok Hclass. rewrite list_sort_is_insertion_sort by done.
  pose proof (initial_run_ascending l Hok) as Hrun.
  pose proof (initial_run_filter P l Hclass) as Hfilter.
  destruct (count_run lt l) as [n descending].
  set (run := if descending then reverse (take n l) else take n l) in *.
  assert (Hperm : run ++ drop n l ≡ₚ l).
  { unfold run. destruct descending; [rewrite reverse_Permutation|];
      by rewrite take_drop. }
  rewrite insertion_sort_from_stable.
  - rewrite filter_app, Hfilter, <- filter_app.
    by rewrite take_drop.
  - unfold run. destruct descending; [rewrite reverse_Permutation|];
      by apply Forall_take.
  - by apply Forall_drop.
  - done.
  - intros x y Hx Hy. rewrite Hperm in Hx, Hy. by apply Hclass.
Qed.

(** The sort with [reverse=True]. *)
Lemma list_sort_reverse_Permutation l : list_sort_reverse lt l ≡ₚ l.
Proof.
  unfold list_sort_reverse.
  by rewrite reverse_Permutation, list_sort_Permutation, reverse_Permutation.
Qed.

Lemma list_sort_reverse_sorted l :
  Forall ok l ->
  StronglySorted (fun a b => lt a b = false) (list_sort_reverse lt l).
Proof.
  intros Hok. unfold list_sort_reverse.
  apply (StronglySorted_reverse (fun a b => lt b a = false)).
  apply list_sort_ascending. by rewrite reverse_Permutation.
Qed.

Lemma list_sort_reverse_stable (P : A -> Prop) `{forall x, Decision (P x)} l :
  Forall ok l ->
  (forall x y, x ∈ l -> y ∈ l -> P x -> P y -> lt x y = false) ->
  filter P (list_sort_reverse lt l) = filter P l.
Proof.
  intros Hok Hclass. unfold list_sort_reverse.
  rewrite filter_reverse, list_sort_stable.
  - by rewrite filter_reverse, reverse_involutive.
  - by rewrite reverse_Permutation.
  - intros x y Hx Hy. apply Hclass; by apply elem_of_reverse.
Qed.

Lemma filter_head (P : A -> Prop) `{forall x, Decision (P x)} l x rest :
  filter P l = x :: rest ->
  exists before after,
    l = before ++ x :: after /\ Forall (fun y => ~ P y) before.
Proof.
  induction l as [|y l IH]; [done|].
  rewrite filter_cons. destruct (decide (P y)) as [Hy|Hy].
  - intros [= -> <-]. by exists [], l.
  - intros Hf. destruct (IH Hf) as (before & after & -> & Hb).
    exists (y :: before), after. split; [done | by constructor].
Qed.

(** The head of the sorted list is the first of the highest elements. *)
Lemma list_sort_reverse_head l winner others :
  Forall ok l ->
  list_sort_reverse lt l = winner :: others ->
  exists before after,
    l = before ++ winner :: after /\
    (forall b, b ∈ before -> lt b winner = true) /\
    (forall b, b ∈ after -> lt winner b = false) /\
    others ≡ₚ before ++ after.
Proof.
  intros Hok Hsort.
  pose proof (list_sort_reverse_sorted l Hok) as Hsorted.
  pose proof (list_sort_reverse_Permutation l) as Hperm.
  rewrite Hsort in Hsorted, Hperm.
  apply StronglySorted_inv in Hsorted as [_ Htop].
  assert (Hall : forall b, b ∈ l -> lt winner b = false).
  { intros b Hb. rewrite <- Hperm in Hb.
    apply elem_of_cons in Hb as [->|Hb]; [apply lt_irrefl|].
    rewrite Forall_forall in Htop. by apply Htop. }
  set (P := fun b => lt b winner = false).
  assert (Hstable : filter P (list_sort_reverse lt l) = filter P l).
  { apply list_sort_reverse_stable; [done|].
    intros x y Hx Hy HPx HPy. unfold P in *.
    rewrite Forall_forall in Hok.
    apply (le_trans y winner x); auto.
    apply Hok. rewrite <- Hperm. by left. }
  rewrite Hsort, filter_cons_True in Hstable by apply lt_irrefl.
  symmetry in Hstable.
  destruct (filter_head P l winner _ Hstable) as (before & after & -> & Hb).
  exists before, after. split; [done|]. split; [|split].
  - intros b Hin. rewrite Forall_forall in Hb. specialize (Hb b Hin).
    unfold P in Hb. by destruct (lt b winner).
  - intros b Hin. apply Hall. apply elem_of_app. right. by right.
  - by apply Permutation_cons_app_inv in Hperm.
Qed.

End list_sort_facts.

(** ** The shuffle *)

Lemma list_swap_length {A} i j (x : list A) :
  length (list_swap i j x) = length x.
Proof.
  unfold list_swap. destruct (x !! i), (x !! j); try done.
  by rewrite !length_insert.
Qed.

Lemma list_swap_lookup {A} i j (x : list A) k :
  i < length x -> j < length x ->
  list_swap i j x !! k
  = x !! (if decide (k = i) then j else if decide (k = j) then i else k).
Proof.
  intros Hi Hj. unfold list_swap.
  destruct (lookup_lt_is_Some_2 x i Hi) as [a Ha].
  destruct (lookup_lt_is_Some_2 x j Hj) as [b Hb].
  rewrite Ha, Hb.
  destruct (decide (k = i)) as [->|Hki].
  - rewrite list_lookup_insert_eq by (by rewrite length_insert). done.
  - rewrite list_lookup_insert_ne by done.
    destruct (decide (k = j)) as [->|Hkj].
    + rewrite list_lookup_insert_eq by done. done.
    + by rewrite list_lookup_insert_ne by done.
Qed.

Lemma list_swap_out_of_range {A} i j (x : list A) :
  ~ (i < length x /\ j < length x) -> list_swap i j x = x.
Proof.
  intros Hout. unfold list_swap.
  destruct (x !! i) as [a|] eqn:Ha; [|done].
  destruct (x !! j) as [b|] eqn:Hb; [|done].
  destruct Hout. split; by eapply lookup_lt_Some.
Qed.



Section shuffle_facts.
Context {G A : Type} (randbelow : nat -> G -> nat * G).



Lemma list_swap_Permutation i j (x : list A) : list_swap i j x ≡ₚ x.
Proof.
  destruct (decide (i < length x /\ j < length x)) as [[Hi Hj]|Hout].
  - apply Permutation_inj. split; [apply list_swap_length|].
    exists (fun k => if decide (k = i) then j else if decide (k = j) then i
                     else k).
    split.
    + intros k1 k2. repeat case_decide; congruence.
    + intros k. by apply list_swap_lookup.
  - by rewrite list_swap_out_of_range.
Qed.

Lemma shuffle_from_Permutation i :
  forall (x : list A) g, (shuffle_from randbelow i x g).1 ≡ₚ x.
Proof.
  induction i as [|i IH]; intros x g; [done|].
  cbn [shuffle_from]. destruct (randbelow _ g) as [j g'].
  by rewrite IH, list_swap_Permutation.
Qed.

Lemma random_shuffle_Permutation (x : list A) g :
  (random_shuffle randbelow x g).1 ≡ₚ x.
Proof. apply shuffle_from_Permutation. Qed.



End shuffle_facts.

Section facts.
Context `{RT : Runtime}.

Lemma preserves_ret {A} P (a : A) : preserves P (ret a).
Proof. by intros w. Qed.

Lemma preserves_raise {A} P e : preserves P (@raise _ A e).
Proof. by intros w. Qed.

Lemma preserves_read {A} P (f : Model -> A) : preserves P (read f).
Proof. by intros w. Qed.

Lemma preserves_lift {A} P (r : result A) : preserves P (lift r).
Proof. by intros w. Qed.

Lemma preserves_or_raise {A} P e (o : option A) : preserves P (or_raise e o).
Proof. by destruct o; intros w. Qed.

Lemma preserves_modify P f :
  (forall w, P w -> P (f w)) -> preserves P (modify f).
Proof. intros H w Hw. by apply H. Qed.

Lemma preserves_bind {A B} P (c : Py A) (k : A -> Py B) :
  preserves P c -> (forall a, preserves P (k a)) -> preserves P (bind c k).
Proof.
  intros Hc Hk w Hw. unfold bind.
  specialize (Hc w Hw). destruct (c w) as [w' [a|e]]; simpl in *; [|done].
  by apply Hk.
Qed.

Lemma preserves_for_each {A} P (l : list A) body :
  (forall x, preserves P (body x)) -> preserves P (for_each l body).
Proof.
  intros Hb. induction l as [|x l IH]; simpl.
  - apply preserves_ret.
  - apply preserves_bind; [apply Hb | intros _; apply IH].
Qed.

Lemma preserves_get_land P a : preserves P (get_land a).
Proof. intros w Hw. unfold get_land. by repeat case_match. Qed.

Lemma preserves_get_person P a : preserves P (get_person a).
Proof. intros w Hw. unfold get_person. by repeat case_match. Qed.

Lemma preserves_get_obj P a : preserves P (get_obj a).
Proof. intros w Hw. unfold get_obj. by destruct (heap w !! a). Qed.

Lemma preserves_update_person P a f :
  (forall w p, heap w !! a = Some (OPerson p) -> P w ->
               P (set_heap w (<[a := OPerson (f p)]> (heap w)))) ->
  preserves P (update_person a f).
Proof.
  intros H w Hw. unfold update_person, bind, get_person.
  destruct (heap w !! a) as [[]|] eqn:E; simpl; try done. by apply H.
Qed.

Lemma preserves_update_land P a f :
  (forall w l, heap w !! a = Some (OLand l) -> P w ->
               P (set_heap w (<[a := OLand (f l)]> (heap w)))) ->
  preserves P (update_land a f).
Proof.
  intros H w Hw. unfold update_land, bind, get_land.
  destruct (heap w !! a) as [[]|] eqn:E; simpl; try done. by apply H.
Qed.

(** ** Methods that leave a property of the model alone

    [P] is any property that does not look at the components named in the
    hypotheses: it is then kept by every method that only writes these. *)

Section frame.
Variable P : Model -> Prop.
Hypothesis P_firm : forall w x, P w -> P (set_firm w x).
Hypothesis P_workforce : forall w x, P w -> P (set_workforce w x).
Hypothesis P_schedule : forall w x, P w -> P (set_schedule w x).
Hypothesis P_grid : forall w x, P w -> P (set_grid w x).
Hypothesis P_random : forall w x, P w -> P (set_random w x).
Hypothesis P_removed : forall w x, P w -> P (set_removed_agents w x).
Hypothesis P_price_data : forall w x, P w -> P (set_step_price_data w x).
Hypothesis P_sale_listing : forall w x,
  P w -> P (set_realtor w (set_Realtor_sale_listing (realtor w) x)).
Hypothesis P_rental_listing : forall w x,
  P w -> P (set_realtor w (set_Realtor_rental_listing (realtor w) x)).
Hypothesis P_person : forall w a p p',
  heap w !! a = Some (OPerson p) ->
  Person_properties_owned p' = Person_properties_owned p ->
  (Person_count p <= Person_count p')%Z ->
  P w -> P (set_heap w (<[a := OPerson p']> (heap w))).
Hypothesis P_land : forall w a l l',
  heap w !! a = Some (OLand l) ->
  Land_owner l' = Land_owner l ->
  P w -> P (set_heap w (<[a := OLand l']> (heap w))).

Ltac frame_step :=
  first
    [ apply preserves_ret | apply preserves_raise | apply preserves_read
    | apply preserves_lift | apply preserves_or_raise
    | apply preserves_get_land | apply preserves_get_person
    | apply preserves_get_obj
    | apply preserves_update_person; intros ? ? ? ?;
      eapply P_person; [done|done|simpl; lia|done]
    | apply preserves_update_land; intros ? ? ? ?; by eapply P_land
    | apply preserves_bind; [|intros ?]
    | apply preserves_modify; intros ? ?; repeat case_match; simpl; by eauto
    | case_bool_decide | case_match ].

Lemma frame_breed_partition breed : preserves P (breed_partition breed).
Proof.
  intros w Hw. unfold breed_partition. case_match. simpl. eauto.
Qed.

Lemma frame_on_grid f : preserves P (on_grid f).
Proof.
  intros w Hw. unfold on_grid. case_match. simpl. eauto.
Qed.

Lemma frame_Schedule_add agent : preserves P (Schedule_add agent).
Proof.
  unfold Schedule_add, set_breed_partition.
  repeat first [apply frame_breed_partition | frame_step].
Qed.

Lemma frame_Schedule_remove agent : preserves P (Schedule_remove agent).
Proof.
  unfold Schedule_remove, set_breed_partition.
  repeat first [apply frame_breed_partition | frame_step].
Qed.

Lemma frame_shuffled_keys breed : preserves P (shuffled_keys breed).
Proof.
  unfold shuffled_keys. apply preserves_bind; [apply frame_breed_partition|].
  intros l w Hw. case_match. simpl. eauto.
Qed.

Lemma frame_Land_step a : preserves P (Land_step a).
Proof.
  unfold Land_step. repeat frame_step.
Qed.

Lemma frame_assign_firm setter rhs : preserves P (assign_firm setter rhs).
Proof.
  intros w Hw. unfold assign_firm. case_match; simpl; eauto.
Qed.

Lemma frame_Firm_step : preserves P Firm_step.
Proof.
  unfold Firm_step.
  repeat first [apply frame_assign_firm | frame_step].
Qed.

Lemma frame_Person_remove self : preserves P (Person_remove self).
Proof.
  unfold Person_remove.
  repeat first [apply frame_Schedule_remove | apply frame_on_grid | frame_step].
Qed.

Lemma frame_Person_step self : preserves P (Person_step self).
Proof.
  unfold Person_step.
  repeat first [apply frame_Person_remove | frame_step].
Qed.

Lemma frame_handle_investor_purchase b l :
  preserves P (Realtor_handle_investor_purchase b l).
Proof.
  unfold Realtor_handle_investor_purchase. repeat frame_step.
Qed.

Lemma frame_handle_person_purchase b l q :
  preserves P (Realtor_handle_person_purchase b l q).
Proof.
  unfold Realtor_handle_person_purchase.
  repeat first [apply frame_on_grid | frame_step].
Qed.

Lemma frame_handle_seller_departure s :
  preserves P (Realtor_handle_seller_departure s).
Proof.
  unfold Realtor_handle_seller_departure.
  repeat first [apply frame_Person_remove | frame_step].
Qed.

End frame.

(** ** Dictionaries and sorting *)

Lemma Forall_dict_set {K V} `{EqDecision K} (Q : V -> Prop) k v
    (d : list (K * V)) :
  Forall (fun e => Q e.2) d -> Q v -> Forall (fun e => Q e.2) (dict_set k v d).
Proof.
  intros Hd Hv. induction Hd as [|[k' v'] d Hk Hd IH]; simpl.
  - by repeat constructor.
  - case_decide; constructor; auto.
Qed.

Lemma Forall_dict_get {K V} `{EqDecision K} (Q : V -> Prop) k v
    (d : list (K * V)) :
  Forall (fun e => Q e.2) d -> dict_get k d = Some v -> Q v.
Proof.
  intros Hd. induction Hd as [|[k' v'] d Hk Hd IH]; simpl; [done|].
  case_decide; [by intros [= <-] | done].
Qed.

Lemma Forall_defaultdict_get {K V} `{EqDecision K} (Q : V -> Prop) dflt k
    (d : list (K * V)) v d' :
  Forall (fun e => Q e.2) d -> Q dflt ->
  defaultdict_get dflt k d = (v, d') ->
  Q v /\ Forall (fun e => Q e.2) d'.
Proof.
  intros Hd Hdf. unfold defaultdict_get.
  destruct (dict_get k d) as [v0|] eqn:E; intros [= <- <-].
  - split; [by eapply Forall_dict_get | done].
  - split; [done|]. apply Forall_app. split; [done|]. by repeat constructor.
Qed.

Lemma sort_by_price_desc_Permutation l : sort_by_price_desc l ≡ₚ l.
Proof. apply list_sort_reverse_Permutation. Qed.

(** ** The bid book holds no mortgage *)

Lemma book_keeps_heap w h :
  book_without_mortgage w -> book_without_mortgage (set_heap w h).
Proof. done. Qed.

Lemma Bid_init_mortgage w bidder property price bid :
  Bid_init w bidder property price default_amount = Ok bid ->
  Bid_mortgage bid = Fin 0.
Proof.
  unfold Bid_init. repeat case_match; try done.
  intros [= <-]. simpl. simplify_eq/=. done.
Qed.

Lemma book_add_bid bidder property price :
  preserves book_without_mortgage (Realtor_add_bid bidder property price).
Proof.
  unfold Realtor_add_bid.
  apply preserves_bind; [apply preserves_read|]. intros w0.
  repeat (case_match; [apply preserves_raise|]).
  intros w Hw. unfold bind, lift.
  destruct (Bid_init w0 _ _ _ _) as [bid|] eqn:Hbid; [|done].
  apply Bid_init_mortgage in Hbid. simpl. unfold book_append.
  destruct (defaultdict_get _ _ _) as [bl bids] eqn:E.
  eapply (Forall_defaultdict_get (Forall (fun b => Bid_mortgage b = Fin 0)))
    in E as [Hbl Hbids]; [|done|done].
  unfold book_without_mortgage. simpl.
  apply Forall_dict_set; [done|].
  apply Forall_app. split; [done|]. by repeat constructor.
Qed.

Lemma book_Person_bid self : preserves book_without_mortgage (Person_bid self).
Proof.
  unfold Person_bid.
  apply preserves_bind; [apply preserves_get_person|]. intros p.
  apply preserves_bind; [apply preserves_read|]. intros w0.
  apply preserves_bind; [apply preserves_lift|]. intros M.
  apply preserves_for_each. intros sale_property. unfold Person_bid_on.
  apply preserves_bind; [apply preserves_get_land|]. intros prop.
  apply preserves_bind; [apply preserves_read|]. intros w1.
  apply preserves_bind; [apply preserves_lift|]. intros P_max_bid.
  destruct (flt (fmul _ _) _);
    (apply preserves_bind; [apply preserves_lift|]; intros bid;
     destruct (flt _ _); [apply book_add_bid | apply preserves_ret]).
Qed.

Ltac book_frame lem := apply lem; by intros.

Lemma book_update_properties_owned agent f :
  preserves book_without_mortgage (update_properties_owned agent f).
Proof.
  intros w Hw. unfold update_properties_owned. by repeat case_match.
Qed.

Lemma book_complete_transaction allocation :
  preserves book_without_mortgage (Realtor_complete_transaction allocation).
Proof.
  unfold Realtor_complete_transaction, Realtor_transfer_property.
  apply preserves_bind; [apply preserves_get_land|]. intros prop.
  apply preserves_bind.
  { repeat (apply preserves_bind;
            [apply book_update_properties_owned|intros _]).
    by apply preserves_update_land. }
  intros _. apply preserves_bind; [apply preserves_read|]. intros w.
  apply preserves_bind.
  - repeat case_match; try apply preserves_ret.
    + book_frame frame_handle_investor_purchase.
    + book_frame frame_handle_person_purchase.
  - intros _. repeat case_match; try apply preserves_ret.
    book_frame frame_handle_seller_departure.
Qed.

Lemma book_sell_home property allocations :
  preserves book_without_mortgage (Realtor_sell_home property allocations).
Proof.
  intros w Hw. unfold Realtor_sell_home, bind, read, id. simpl.
  case_match; [done|].
  destruct (defaultdict_get _ _ _) as [bl bids] eqn:E.
  eapply (Forall_defaultdict_get (Forall (fun b => Bid_mortgage b = Fin 0)))
    in E as [Hbl Hbids]; [|done|done].
  assert (Hsorted :
    Forall (fun b => Bid_mortgage b = Fin 0) (sort_by_price_desc bl)).
  { by rewrite sort_by_price_desc_Permutation. }
  unfold modify. simpl. case_bool_decide; simpl; [|done].
  assert (Hbook : book_without_mortgage
    (set_realtor (set_realtor w (set_Realtor_bids (realtor w) bids))
       (set_Realtor_bids
          (realtor (set_realtor w (set_Realtor_bids (realtor w) bids)))
          (dict_set property (sort_by_price_desc bl) bids)))).
  { unfold book_without_mortgage. simpl. by apply Forall_dict_set. }
  destruct (sort_by_price_desc bl !! 0%nat); simpl; [|done].
  case_bool_decide; simpl.
  - destruct (sort_by_price_desc bl !! 1%nat); simpl; [|done].
    unfold lift. by case_match.
  - unfold lift. by case_match.
Qed.

Lemma book_sell_homes_loop keys allocations :
  preserves book_without_mortgage (Realtor_sell_homes_loop keys allocations).
Proof.
  revert allocations. induction keys as [|k keys IH]; intros allocations.
  - apply preserves_ret.
  - simpl. apply preserves_bind; [apply book_sell_home | apply IH].
Qed.

Lemma book_sell_homes : preserves book_without_mortgage Realtor_sell_homes.
Proof.
  unfold Realtor_sell_homes, Realtor_allocate, Realtor_complete_transactions.
  apply preserves_bind.
  { apply preserves_bind; [apply preserves_read|].
    intros keys. apply book_sell_homes_loop. }
  intros allocations. apply preserves_bind.
  { apply preserves_for_each, book_complete_transaction. }
  intros _. apply preserves_bind; [|intros _; apply preserves_ret].
  apply preserves_modify. intros w _. by constructor.
Qed.

Lemma book_call_method step_name agent :
  preserves book_without_mortgage (call_method step_name agent).
Proof.
  unfold call_method.
  apply preserves_bind; [apply preserves_get_obj|]. intros o.
  destruct step_name, o;
    try apply preserves_ret; try apply preserves_raise.
  - book_frame frame_Land_step.
  - book_frame frame_Person_step.
  - book_frame frame_Firm_step.
  - apply book_Person_bid.
Qed.

Lemma book_step_breed breed step_name :
  preserves book_without_mortgage (Schedule_step_breed breed step_name).
Proof.
  unfold Schedule_step_breed.
  apply preserves_bind; [book_frame frame_shuffled_keys|]. intros keys.
  apply preserves_for_each. intros key.
  apply preserves_bind; [book_frame frame_breed_partition|]. intros partition.
  apply preserves_bind; [apply preserves_or_raise|]. intros agent.
  apply book_call_method.
Qed.

Lemma book_run_op o w :
  book_without_mortgage w -> book_without_mortgage (run_op o w).
Proof.
  destruct o; simpl.
  - apply book_add_bid.
  - apply book_sell_homes.
  - apply preserves_for_each, book_complete_transaction.
  - apply book_step_breed.
  - apply book_call_method.
  - book_frame frame_Schedule_add.
  - book_frame frame_Schedule_remove.
Qed.

(** C10.  Every bid in the realtor's bid book has mortgage 0: the book
    starts empty, and whatever sequence of bid intake ([add_bid], called
    directly or from [Person.bid] through the scheduler), clearing
    ([sell_homes]), settlement and agent steps is run, each bid found in
    the book afterwards carries the default mortgage.  The mortgage that
    [Person.bid] computes stays in the temporary [Bid] built there. *)
Theorem bid_book_never_holds_a_mortgage (ops : list market_op) (w : Model) :
  Realtor_bids (realtor w) = [] ->
  forall property property_bids bid,
    (property, property_bids)
      ∈ Realtor_bids (realtor (foldl (flip run_op) w ops)) ->
    bid ∈ property_bids ->
    Bid_mortgage bid = Fin 0.
Proof.
  intros Hempty property property_bids bid Hin Hbid.
  assert (Hbook : book_without_mortgage (foldl (flip run_op) w ops)).
  { assert (H0 : book_without_mortgage w).
    { unfold book_without_mortgage. rewrite Hempty. constructor. }
    clear Hempty Hin. revert w H0.
    induction ops as [|o ops IH]; intros w H0; simpl; [done|].
    apply IH. by apply book_run_op. }
  unfold book_without_mortgage in Hbook.
  rewrite Forall_forall in Hbook. specialize (Hbook _ Hin). simpl in Hbook.
  rewrite Forall_forall in Hbook. by apply Hbook.
Qed.

(** ** Bid construction *)

Lemma isinstance_false w v c :
  isinstance w v c = false <-> as_instance w v c = None.
Proof.
  unfold isinstance. rewrite bool_decide_eq_false.
  destruct (as_instance w v c); split; try done.
  intros H. destruct H. by eexists.
Qed.

Lemma isinstance_true w v c :
  isinstance w v c = true <-> exists a, as_instance w v c = Some a.
Proof.
  unfold isinstance. rewrite bool_decide_eq_true. done.
Qed.

Lemma as_instance_ref w v c a : as_instance w v c = Some a -> v = VRef a.
Proof.
  unfold as_instance. repeat case_match; naive_solver.
Qed.

(** C9, as amended.  [Bid(bidder, property, price, mortgage)] fails, with
    [ValueError], exactly when the bidder is not a [Person], or the
    property is not a [Land], or the price or the mortgage is not a number;
    the sign of the price is not looked at.  [add_bid] fails on the same
    three checks of its arguments and otherwise does not raise. *)
Theorem Bid_construction_checks w bidder property price mortgage :
  ((exists e, Bid_init w bidder property price mortgage = Raise e) <->
   (isinstance w bidder CPerson = false \/
    isinstance w property CLand = false \/
    as_number price = None \/ as_number mortgage = None)) /\
  (forall e, Bid_init w bidder property price mortgage = Raise e ->
             e = ValueError) /\
  (forall bid, Bid_init w bidder property price mortgage = Ok bid ->
     bidder = VRef (Bid_bidder bid) /\ property = VRef (Bid_property bid) /\
     as_number price = Some (Bid_price bid) /\
     as_number mortgage = Some (Bid_mortgage bid)) /\
  ((exists e, (Realtor_add_bid bidder property price w).2 = Raise e) <->
   (isinstance w bidder CPerson = false \/
    isinstance w property CLand = false \/ as_number price = None)).
Proof.
  rewrite !isinstance_false.
  unfold Realtor_add_bid, bind, read, id, raise, lift. simpl.
  unfold isinstance, Bid_init, default_amount.
  destruct (as_instance w bidder CPerson) as [b|] eqn:Hb;
    destruct (as_instance w property CLand) as [l|] eqn:Hl;
    destruct (as_number price) as [p|] eqn:Hp;
    destruct (as_number mortgage) as [mo|] eqn:Hmo; simpl.
  all: pose proof (as_instance_ref w bidder CPerson) as Rb.
  all: pose proof (as_instance_ref w property CLand) as Rl.
  all: repeat split; try (intros [e [=]]); try (intros [=]); intros;
    simplify_eq/=; eauto; try tauto.
  all: try (destruct_or!; discriminate).
Qed.

(** ** Registration in the scheduler *)

Lemma dict_get_set_eq {K V} `{EqDecision K} k v (d : list (K * V)) :
  dict_get k (dict_set k v d) = Some v.
Proof.
  induction d as [|[k' v'] d IH]; simpl.
  - by rewrite decide_True.
  - case_decide as E; simpl.
    + by rewrite decide_True.
    + by rewrite decide_False.
Qed.

Lemma dict_get_set_ne {K V} `{EqDecision K} k k' v (d : list (K * V)) :
  k <> k' -> dict_get k' (dict_set k v d) = dict_get k' d.
Proof.
  intros Hne. induction d as [|[k0 v0] d IH]; simpl.
  - by rewrite decide_False.
  - destruct (decide (k = k0)) as [->|]; simpl.
    + by rewrite !decide_False.
    + case_decide; [done | apply IH].
Qed.

(** C8, as amended.  [add(agent)] never fails and never reports a
    collision: whatever was registered under the agent's unique id, in the
    flat registry and in the partition of the agent's class, is replaced,
    and afterwards both map the id to the agent just added. *)
Theorem Schedule_add_overwrites w agent o :
  heap w !! agent = Some o ->
  exists w',
    Schedule_add agent w = (w', Ok tt) /\
    Schedule_agents (schedule w') !! unique_id_of w o = Some agent /\
    exists partition,
      dict_get (type_of o) (agents_by_breed (schedule w')) = Some partition /\
      dict_get (unique_id_of w o) partition = Some agent.
Proof.
  intros Ho.
  unfold Schedule_add, bind, get_obj, or_raise, read, modify,
    set_breed_partition, breed_partition.
  rewrite Ho. simpl.
  destruct (defaultdict_get _ _ _) as [partition by_breed] eqn:E. simpl.
  eexists. split; [done|]. simpl. split.
  - by rewrite lookup_insert_eq.
  - eexists. split; [apply dict_get_set_eq|]. apply dict_get_set_eq.
Qed.

(** ** The shuffled keys *)

Lemma shuffled_keys_unfold breed w :
  shuffled_keys breed w =
  let partition := default [] (dict_get breed (agents_by_breed (schedule w))) in
  let by_breed := (defaultdict_get [] breed (agents_by_breed (schedule w))).2 in
  let shuffled := shuffle (dict_keys partition) (random w) in
  (set_random (set_schedule w (set_agents_by_breed (schedule w) by_breed))
     shuffled.2, Ok shuffled.1).
Proof.
  unfold shuffled_keys, bind, breed_partition, defaultdict_get.
  destruct (dict_get breed _); cbn [fst snd default];
    by destruct (shuffle _ _).
Qed.

(** ** The firm's partial adjustment *)

Lemma pydiv_ok a b : ~ (b == 0)%Q -> pydiv a b = Ok (a / b)%Q.
Proof.
  intros Hb. unfold pydiv.
  destruct (Qeq_bool b 0) eqn:E; [|done].
  by apply Qeq_bool_eq in E.
Qed.

Lemma pydiv_zero a b : (b == 0)%Q -> pydiv a b = Raise ZeroDivisionError.
Proof.
  intros Hb. unfold pydiv. apply Qeq_bool_iff in Hb. by rewrite Hb.
Qed.

Lemma assign_firm_ok setter rhs v w :
  rhs (firm w) = Ok v ->
  assign_firm setter rhs w = (set_firm w (setter (firm w) v), Ok tt).
Proof. intros H. unfold assign_firm. by rewrite H. Qed.

Lemma bind_assign_firm {A} setter rhs v (k : Py A) w :
  rhs (firm w) = Ok v ->
  (assign_firm setter rhs >>> k) w = k (set_firm w (setter (firm w) v)).
Proof. intros H. unfold bind. by rewrite (assign_firm_ok _ _ v). Qed.

Lemma Firm_get_N_nonzero w : ~ (Firm_get_N w == 0)%Q.
Proof.
  unfold Firm_get_N.
  destruct (Qeq_bool _ 0) eqn:E; [done|]. by apply Qeq_bool_neq in E.
Qed.

(** Reads of firm attributes after assignments. *)
Ltac firm_simpl :=
  cbn [firm set_firm Firm_unique_id Firm_subsistence_wage Firm_alpha
       Firm_beta Firm_gamma Firm_price_of_output Firm_seed_population
       Firm_density Firm_A Firm_overhead Firm_mult Firm_c Firm_adjN
       Firm_adjk Firm_adjn Firm_adjF Firm_adjw Firm_dist Firm_r Firm_y
       Firm_Y Firm_F Firm_k Firm_n Firm_F_target Firm_N
       Firm_agglomeration_population Firm_wage_premium Firm_wage Firm_MPL
       Firm_wage_target Firm_y_target Firm_k_target set_Firm_N
       set_Firm_agglomeration_population set_Firm_n set_Firm_y set_Firm_MPL
       set_Firm_wage_target set_Firm_wage set_Firm_wage_premium
       set_Firm_F_target set_Firm_F set_Firm_y_target set_Firm_k_target
       set_Firm_k].

Ltac firm_div := cbv beta; firm_simpl; by apply pydiv_ok.

(** C6.  One [Firm.step] updates, in this order, population, output, wage,
    firm count and capital, each once, and each later update reads the
    values written earlier in the same step: the per-firm labour [n] and
    the output [y] use the new population, the marginal product and the
    wage target use the new [y] and [n], the wage moves the fraction
    [adjw] from the old wage to that target, the firm-count target is
    computed with the new wage and the firm count moves the fraction
    [adjF] towards it, and the capital target uses the new population and
    [n] with the capital moving the fraction [adjk] towards it.  No
    divisor being zero and the powers being defined, the step returns. *)
Theorem Firm_step_update_order (w : Model) (pg pa pb : Q) :
  let f := firm w in
  let N := Firm_get_N w in
  let population := (Firm_mult f * N + Firm_seed_population f)%Q in
  let n := (N / Firm_F f)%Q in
  let y := (Firm_A f * pg * pa * pb)%Q in
  let MPL := (Firm_beta f * y / n)%Q in
  let wage_target :=
    (Firm_subsistence_wage f
     + (MPL - Firm_subsistence_wage f) / (1 + Firm_overhead f))%Q in
  let wage :=
    ((1 - Firm_adjw f) * Firm_wage f + Firm_adjw f * wage_target)%Q in
  let F_target := (Firm_F f * wage_target / wage)%Q in
  let F := ((1 - Firm_adjF f) * Firm_F f + Firm_adjF f * F_target)%Q in
  let y_target := (Firm_price_of_output f * Firm_A f * pg * pa * pb)%Q in
  let k_target := (Firm_alpha f * y_target / Firm_r f)%Q in
  let k := ((1 - Firm_adjk f) * Firm_k f + Firm_adjk f * k_target)%Q in
  ~ (Firm_F f == 0)%Q ->
  ~ (1 + Firm_overhead f == 0)%Q ->
  ~ (wage == 0)%Q ->
  ~ (Firm_r f == 0)%Q ->
  fpow population (Firm_gamma f) = Ok pg ->
  fpow (Firm_k f) (Firm_alpha f) = Ok pa ->
  fpow n (Firm_beta f) = Ok pb ->
  exists f',
    Firm_step w = (set_firm w f', Ok tt) /\
    Firm_N f' = N /\
    Firm_agglomeration_population f' = population /\
    Firm_n f' = n /\
    Firm_y f' = y /\
    Firm_MPL f' = MPL /\
    Firm_wage_target f' = wage_target /\
    Firm_wage f' = wage /\
    Firm_wage_premium f' = (wage - Firm_subsistence_wage f)%Q /\
    Firm_F_target f' = F_target /\
    Firm_F f' = F /\
    Firm_y_target f' = y_target /\
    Firm_k_target f' = k_target /\
    Firm_k f' = k.
Proof.
  intros f N population n y MPL wage_target wage F_target F y_target
    k_target k HF Hoverhead Hwage Hr Hpg Hpa Hpb.
  assert (Hn : ~ (n == 0)%Q).
  { unfold n, Qdiv. intros H0. apply Qmult_integral in H0 as [H0|H0].
    - by apply (Firm_get_N_nonzero w).
    - apply HF. rewrite <- (Qinv_involutive (Firm_F f)), H0. reflexivity. }
  unfold population, n, N, f in Hpg, Hpa, Hpb, Hn.
  unfold Firm_step, bind at 1, read.
  erewrite bind_assign_firm by reflexivity. firm_simpl.
  erewrite bind_assign_firm by reflexivity. firm_simpl.
  erewrite bind_assign_firm by firm_div.
  firm_simpl.
  erewrite bind_assign_firm
    by (cbv beta; firm_simpl; rewrite Hpg, Hpa, Hpb; reflexivity).
  firm_simpl.
  erewrite bind_assign_firm by firm_div.
  firm_simpl.
  erewrite bind_assign_firm
    by (cbv beta; firm_simpl; rewrite pydiv_ok by done; reflexivity).
  firm_simpl.
  erewrite bind_assign_firm by reflexivity. firm_simpl.
  erewrite bind_assign_firm by reflexivity. firm_simpl.
  erewrite bind_assign_firm by firm_div.
  firm_simpl.
  erewrite bind_assign_firm by reflexivity. firm_simpl.
  erewrite bind_assign_firm
    by (cbv beta; firm_simpl; rewrite Hpg, Hpa, Hpb; reflexivity).
  firm_simpl.
  erewrite bind_assign_firm by firm_div.
  firm_simpl.
  erewrite assign_firm_ok by reflexivity. firm_simpl.
  eexists. split; [reflexivity|]. firm_simpl. repeat split.
Qed.

(** ** Bidding *)

Lemma as_instance_person w a p :
  heap w !! a = Some (OPerson p) -> as_instance w (VRef a) CPerson = Some a.
Proof. intros H. simpl. by rewrite H. Qed.

Lemma as_instance_land w a l :
  heap w !! a = Some (OLand l) -> as_instance w (VRef a) CLand = Some a.
Proof. intros H. simpl. by rewrite H. Qed.

Lemma add_bid_accepted w self p property land price :
  heap w !! self = Some (OPerson p) ->
  heap w !! property = Some (OLand land) ->
  Realtor_add_bid (VRef self) (VRef property) (VFloat price) w =
  (set_realtor w
     (set_Realtor_bids (realtor w)
        (book_append (mkBid self property price (Fin 0))
           (Realtor_bids (realtor w)))),
   Ok tt).
Proof.
  intros Hself Hprop.
  unfold Realtor_add_bid, bind, read, id, lift, isinstance, Bid_init.
  rewrite (as_instance_person _ _ _ Hself), (as_instance_land _ _ _ Hprop).
  by rewrite !bool_decide_eq_true_2 by (by eexists).
Qed.

(** The price offered for a parcel whose maximum bid is [P_max_bid]. *)
Lemma Person_bid_on_computed w self p S r m M r_tgt property land P_max_bid :
  heap w !! self = Some (OPerson p) ->
  heap w !! property = Some (OLand land) ->
  Bank_get_max_bid (np_float64 (Land_net_rent land w)) r r_tgt m
    (Land_transport_cost land) w = Ok P_max_bid ->
  let mortgage :=
    if flt (fmul (Fin m) P_max_bid) (Fin m) then fmul (Fin m) P_max_bid
    else Fin M in
  let P_bid := fmin (fadd mortgage (Fin S)) P_max_bid in
  Person_bid_on self S r m M r_tgt property w =
  (if flt (Fin 0) P_bid then
     set_realtor w
       (set_Realtor_bids (realtor w)
          (book_append (mkBid self property P_bid (Fin 0))
             (Realtor_bids (realtor w))))
   else w, Ok tt).
Proof.
  intros Hself Hprop HP mortgage P_bid.
  unfold Person_bid_on, bind, get_land, read, id, lift.
  rewrite Hprop. cbv zeta. rewrite HP. unfold P_bid, mortgage.
  destruct (flt (fmul (Fin m) P_max_bid) (Fin m)); unfold Bid_init;
    rewrite (as_instance_person _ _ _ Hself), (as_instance_land _ _ _ Hprop);
    cbn [as_number Bid_price]; (destruct (flt (Fin 0) _);
                                [by eapply add_bid_accepted | done]).
Qed.

Lemma Person_bid_on_raises w self S r m M r_tgt property land e :
  heap w !! property = Some (OLand land) ->
  Bank_get_max_bid (np_float64 (Land_net_rent land w)) r r_tgt m
    (Land_transport_cost land) w = Raise e ->
  Person_bid_on self S r m M r_tgt property w = (w, Raise e).
Proof.
  intros Hprop HP. unfold Person_bid_on, bind, get_land, read, id, lift.
  rewrite Hprop. cbv zeta. by rewrite HP.
Qed.

Lemma set_bids_same (w : Model) :
  set_realtor w (set_Realtor_bids (realtor w) (Realtor_bids (realtor w))) = w.
Proof. destruct w as [? ? [] ? ? ? ? ? ? ?]. reflexivity. Qed.




(** ** Degenerate discounts *)

Lemma Bank_get_max_bid_unfold w R_N r r_tgt m tc :
  Bank_get_max_bid R_N r r_tgt m tc w =
  R_NT ← Bank_R_NT (number_value R_N) r (mortgage_period (params w));
  den ← Bank_discount r_tgt m (delta (params w)) (mortgage_period (params w))
          (p_dot (params w));
  truediv_as R_N R_NT den.
Proof. reflexivity. Qed.

(** C3, as amended.  When the discount denominator is strictly negative
    and the annuity value [R_NT] of the net rent is neither negative nor a
    NaN, [get_max_bid] returns a price that is not positive, and
    [Person.bid] submits no bid for the property and leaves the model as
    it was.  When the denominator is a zero the outcome depends on the
    class of the net rent.  For a Python float the division raises
    [ZeroDivisionError].  For a [numpy.float64], which is what the net rent
    of a parcel is, nothing is raised: [get_max_bid] returns an infinity
    or a NaN, and unless that is minus infinity [Person.bid] offers the
    maximum mortgage plus its savings, [M + S], and submits that bid when
    it is strictly positive. *)
Theorem nonpositive_discount_outcome (w : Model) (R_N : pyfloat)
    (r r_tgt m : Q) (R_NT den : pyfloat) (self property : addr) (p : Person)
    (land : Land) (S M : Q) :
  let get_max_bid (class : pyfloat -> pynumber) :=
    Bank_get_max_bid (class R_N) r r_tgt m (Land_transport_cost land) w in
  let P_max_bid := fdiv R_NT den in
  Bank_R_NT R_N r (mortgage_period (params w)) = Ok R_NT ->
  Bank_discount r_tgt m (delta (params w)) (mortgage_period (params w))
    (p_dot (params w)) = Ok den ->
  heap w !! self = Some (OPerson p) ->
  heap w !! property = Some (OLand land) ->
  Land_net_rent land w = R_N ->
  (0 < m)%Q ->
  (forall d, den = Fin d -> (d < 0)%Q ->
   is_nan R_NT = false -> flt R_NT (Fin 0) = false ->
   get_max_bid py_float = Ok P_max_bid /\
   get_max_bid np_float64 = Ok P_max_bid /\
   is_nan P_max_bid = false /\
   flt (Fin 0) P_max_bid = false /\
   Person_bid_on self S r m M r_tgt property w = (w, Ok tt)) /\
  (is_zero den = true ->
   get_max_bid py_float = Raise ZeroDivisionError /\
   get_max_bid np_float64 = Ok P_max_bid /\
   (P_max_bid = PInf \/ P_max_bid = NInf \/ P_max_bid = NaN) /\
   Person_bid_on self S r m M r_tgt property w =
     (match P_max_bid with
      | NInf => w
      | _ =>
          if Qltb 0 (M + S) then
            with_book w
              (book_append (mkBid self property (Fin (M + S)) (Fin 0))
                 (Realtor_bids (realtor w)))
          else w
      end, Ok tt)).
Proof.
  intros get_max_bid P_max_bid HR Hden Hself Hprop Hrent Hm.
  assert (Hnp : get_max_bid np_float64 = Ok P_max_bid).
  { unfold get_max_bid. rewrite Bank_get_max_bid_unfold. simpl.
    by rewrite HR, Hden. }
  assert (Hon :
    Person_bid_on self S r m M r_tgt property w =
    (let mortgage :=
       if flt (fmul (Fin m) P_max_bid) (Fin m) then fmul (Fin m) P_max_bid
       else Fin M in
     let P_bid := fmin (fadd mortgage (Fin S)) P_max_bid in
     if flt (Fin 0) P_bid then
       set_realtor w
         (set_Realtor_bids (realtor w)
            (book_append (mkBid self property P_bid (Fin 0))
               (Realtor_bids (realtor w))))
     else w, Ok tt)).
  { apply (Person_bid_on_computed w self p S r m M r_tgt property land);
      [done|done|]. rewrite Hrent. exact Hnp. }
  split.
  - intros d -> Hneg Hnan Hpos.
    assert (Hdz : Qeq_bool d 0 = false).
    { apply not_true_iff_false. intros Ez. apply Qeq_bool_eq in Ez. lra. }
    assert (Hpy : get_max_bid py_float = Ok P_max_bid).
    { unfold get_max_bid. rewrite Bank_get_max_bid_unfold. simpl.
      rewrite HR, Hden. simpl. unfold pyfdiv. simpl. by rewrite Hdz. }
    assert (HP : is_nan P_max_bid = false /\ flt (Fin 0) P_max_bid = false)
      by (by apply fdiv_negative).
    destruct HP as [HP1 HP2]. repeat split; try done.
    rewrite Hon. cbv zeta.
    destruct (price_not_positive m S P_max_bid Hm HP1 HP2) as [Hb Hno].
    rewrite Hb. by rewrite Hno.
  - intros Hzero.
    assert (Hinv := fdiv_zero R_NT den Hzero). fold P_max_bid in Hinv.
    split.
    { unfold get_max_bid. rewrite Bank_get_max_bid_unfold. simpl.
      rewrite HR, Hden. simpl. unfold pyfdiv. by rewrite Hzero. }
    split; [done|]. split; [done|].
    rewrite Hon. cbv zeta.
    rewrite (price_of_invalid_bid m M S P_max_bid Hm Hinv).
    destruct Hinv as [-> | [-> | ->]]; simpl; try done;
      by destruct (Qltb 0 (M + S)).
Qed.

(** ** Removal of newcomers *)

(** Reduction of the combinators and of reads after writes. *)
Ltac py_simpl_in H :=
  cbn [bind ret raise read modify lift or_raise get_land get_person get_obj
       put_obj update_person update_land on_grid breed_partition
       set_breed_partition id fst snd
       heap firm realtor workforce schedule grid random removed_agents
       step_price_data params set_heap set_firm set_realtor set_workforce
       set_schedule set_grid set_random set_removed_agents
       set_step_price_data Schedule_agents agents_by_breed Schedule_steps
       Schedule_time set_Schedule_agents set_agents_by_breed] in H.

Ltac py_simpl :=
  cbn [bind ret raise read modify lift or_raise get_land get_person get_obj
       put_obj update_person update_land on_grid breed_partition
       set_breed_partition id fst snd
       heap firm realtor workforce schedule grid random removed_agents
       step_price_data params set_heap set_firm set_realtor set_workforce
       set_schedule set_grid set_random set_removed_agents
       set_step_price_data Schedule_agents agents_by_breed Schedule_steps
       Schedule_time set_Schedule_agents set_agents_by_breed].

Lemma dict_get_filter_ne {K V} `{EqDecision K} k (d : list (K * V)) :
  dict_get k (filter (fun e => e.1 <> k) d) = None.
Proof.
  induction d as [|[k' v'] d IH]; simpl; [done|].
  rewrite filter_cons. simpl. case_decide as E; simpl; [|done].
  by rewrite decide_False by done.
Qed.

Lemma dict_del_get {K V} `{EqDecision K} k (d d' : list (K * V)) :
  dict_del k d = Some d' -> dict_get k d' = None.
Proof.
  unfold dict_del. destruct (dict_get k d); [|done].
  intros [= <-]. apply dict_get_filter_ne.
Qed.

Lemma dict_del_is_Some {K V} `{EqDecision K} k (d : list (K * V)) :
  is_Some (dict_get k d) -> is_Some (dict_del k d).
Proof. intros [v Hv]. unfold dict_del. rewrite Hv. by eexists. Qed.

Lemma bind_ok {A B} (c : Py A) (k : A -> Py B) w w1 a :
  c w = (w1, Ok a) -> bind c k w = k a w1.
Proof. intros H. unfold bind. by rewrite H. Qed.

Lemma bind_raise {A B} (c : Py A) (k : A -> Py B) w w1 e :
  c w = (w1, Raise e) -> bind c k w = (w1, Raise e).
Proof. intros H. unfold bind. by rewrite H. Qed.

Lemma get_person_ok w a p :
  heap w !! a = Some (OPerson p) -> get_person a w = (w, Ok p).
Proof. intros H. unfold get_person. by rewrite H. Qed.

Lemma get_land_ok w a l :
  heap w !! a = Some (OLand l) -> get_land a w = (w, Ok l).
Proof. intros H. unfold get_land. by rewrite H. Qed.

Lemma get_obj_ok w a o : heap w !! a = Some o -> get_obj a w = (w, Ok o).
Proof. intros H. unfold get_obj. by rewrite H. Qed.

Lemma update_person_ok w a p f :
  heap w !! a = Some (OPerson p) ->
  update_person a f w = (set_heap w (<[a := OPerson (f p)]> (heap w)), Ok tt).
Proof.
  intros H. unfold update_person, bind, get_person. by rewrite H.
Qed.

Lemma Workforce_remove_from_all_spec uid wf s :
  uid ∉ wf_members s (Workforce_remove_from_all uid wf).
Proof.
  destruct s, wf; unfold Workforce_remove_from_all, Workforce_remove;
    simpl; apply not_elem_of_difference; right; by apply elem_of_singleton.
Qed.

Lemma breed_partition_eq breed w :
  breed_partition breed w =
  (set_schedule w
     (set_agents_by_breed (schedule w)
        (defaultdict_get [] breed (agents_by_breed (schedule w))).2),
   Ok (defaultdict_get [] breed (agents_by_breed (schedule w))).1).
Proof. unfold breed_partition. by destruct (defaultdict_get _ _ _). Qed.

(** [remove(agent)] on the scheduler: only the scheduler changes, the
    flat registry does not hold the agent's id afterwards, and when the id
    is in both registries the call returns and the partition of the
    agent's class does not hold it either. *)
Lemma Schedule_remove_spec w agent o :
  heap w !! agent = Some o ->
  let uid := unique_id_of w o in
  let w' := (Schedule_remove agent w).1 in
  w' = set_schedule w (schedule w') /\
  Schedule_agents (schedule w') !! uid = None /\
  (is_Some (Schedule_agents (schedule w) !! uid) ->
   (exists partition,
      dict_get (type_of o) (agents_by_breed (schedule w)) = Some partition /\
      is_Some (dict_get uid partition)) ->
   (Schedule_remove agent w).2 = Ok tt /\
   exists partition',
     dict_get (type_of o) (agents_by_breed (schedule w')) = Some partition' /\
     dict_get uid partition' = None).
Proof.
  intros Hagent uid w'. subst w'.
  destruct (Schedule_remove agent w) as [w' r] eqn:E.
  unfold Schedule_remove in E.
  erewrite (bind_ok (get_obj _)) in E by (by apply get_obj_ok).
  py_simpl_in E. fold uid in E.
  destruct (Schedule_agents (schedule w) !! uid) as [registered|] eqn:Hreg;
    py_simpl_in E.
  2:{ injection E as <- <-. simpl. rewrite Hreg.
      split; [by destruct w|]. split; [done|]. by intros [? ?]. }
  erewrite bind_ok in E by apply breed_partition_eq.
  py_simpl_in E. unfold defaultdict_get in E.
  destruct (dict_get (type_of o) (agents_by_breed (schedule w)))
    as [partition|] eqn:Hpart; py_simpl_in E.
  - destruct (dict_del uid partition) as [partition'|] eqn:Hdel;
      py_simpl_in E; injection E as <- <-; simpl.
    + split; [done|]. split; [apply lookup_delete_eq|].
      intros _ _. split; [done|].
      exists partition'. split; [apply dict_get_set_eq|].
      by eapply dict_del_get.
    + split; [done|]. split; [apply lookup_delete_eq|].
      intros _ (partition0 & [= <-] & Hsome).
      apply dict_del_is_Some in Hsome. rewrite Hdel in Hsome.
      by destruct Hsome.
  - injection E as <- <-. simpl.
    split; [done|]. split; [apply lookup_delete_eq|].
    by intros _ (partition0 & [=] & _).
Qed.

(** [remove()] on a person: the counter is incremented and the flat
    registry does not hold the person's id afterwards, whether the call
    returns or raises; when the person is registered and the grid lets it
    go, the call returns and the breed partition and the workforce sets do
    not hold the id either. *)
Lemma Person_remove_spec w self p :
  heap w !! self = Some (OPerson p) ->
  let uid := Person_unique_id p in
  let w' := (Person_remove self w).1 in
  removed_agents w' = (removed_agents w + 1)%Z /\
  Schedule_agents (schedule w') !! uid = None /\
  (is_Some (Schedule_agents (schedule w) !! uid) ->
   (exists partition,
      dict_get CPerson (agents_by_breed (schedule w)) = Some partition /\
      is_Some (dict_get uid partition)) ->
   (grid_remove_agent self (grid w)).2 = Ok tt ->
   (Person_remove self w).2 = Ok tt /\
   (exists partition',
      dict_get CPerson (agents_by_breed (schedule w')) = Some partition' /\
      dict_get uid partition' = None) /\
   forall s, uid ∉ wf_members s (workforce w')).
Proof.
  intros Hself uid w'. subst w'.
  destruct (Person_remove self w) as [w' r] eqn:E.
  unfold Person_remove in E. py_simpl_in E.
  erewrite (bind_ok (get_person _)) in E by (by apply get_person_ok).
  py_simpl_in E.
  set (w1 := set_workforce _ _) in E.
  destruct (Schedule_remove_spec w1 self (OPerson p) Hself)
    as (Hframe & Hgone & Hok).
  cbn [unique_id_of type_of] in Hgone, Hok. fold uid in Hgone, Hok.
  destruct (Schedule_remove self w1) as [w2 r2] eqn:E2.
  cbn [fst snd] in Hframe, Hgone, Hok.
  destruct r2 as [[]|e].
  - erewrite bind_ok in E by exact E2.
    unfold on_grid in E. rewrite Hframe in E.
    change (grid (set_schedule w1 (schedule w2))) with (grid w) in E.
    destruct (grid_remove_agent self (grid w)) as [g rg] eqn:Hgrid.
    injection E as <- <-. cbn [fst snd].
    split; [done|]. split; [done|]. intros Hreg Hpart ->.
    split; [done|]. split; [by apply Hok|].
    intros s. apply Workforce_remove_from_all_spec.
  - erewrite bind_raise in E by exact E2. injection E as <- <-.
    cbn [fst snd]. rewrite Hframe.
    split; [done|]. split; [done|]. intros Hreg Hpart _.
    by destruct (Hok Hreg Hpart) as [[=] _].
Qed.

(** C4.  A person whose unique id is in the newcomers set and who has no
    residence is removed by its own [step()]: the removed-agent count of
    the model goes up by one and the scheduler's registry does not hold
    the person's id afterwards.  For a person registered with the
    scheduler (and that the grid lets go) the step returns normally, and
    the breed partition and the workforce sets do not hold the id either.
    [count] is not negative, as for every person since its construction
    (it starts at 0 and is only incremented). *)
Theorem newcomer_without_residence_is_removed (w : Model) (self : addr)
    (p : Person) :
  let uid := Person_unique_id p in
  let w' := (Person_step self w).1 in
  heap w !! self = Some (OPerson p) ->
  uid ∈ newcomers (workforce w) ->
  Person_residence p = None ->
  (0 <= Person_count p)%Z ->
  removed_agents w' = (removed_agents w + 1)%Z /\
  Schedule_agents (schedule w') !! uid = None /\
  (is_Some (Schedule_agents (schedule w) !! uid) ->
   (exists partition,
      dict_get CPerson (agents_by_breed (schedule w)) = Some partition /\
      is_Some (dict_get uid partition)) ->
   (grid_remove_agent self (grid w)).2 = Ok tt ->
   (Person_step self w).2 = Ok tt /\
   (exists partition',
      dict_get CPerson (agents_by_breed (schedule w')) = Some partition' /\
      dict_get uid partition' = None) /\
   forall s, uid ∉ wf_members s (workforce w')).
Proof.
  intros uid w' Hself Hnew Hres Hcount. subst w'.
  set (p1 := set_Person_count p (Person_count p + 1)).
  set (p2 := set_Person_working_period p1 (Person_working_period p1 + 1)).
  set (w1 := set_heap w (<[self := OPerson p1]> (heap w))).
  set (w2 := set_heap w1 (<[self := OPerson p2]> (heap w1))).
  assert (Hself2 : heap w2 !! self = Some (OPerson p2))
    by apply lookup_insert_eq.
  assert (Hstep : Person_step self w = Person_remove self w2).
  { unfold Person_step.
    erewrite (bind_ok (update_person _ _))
      by (by apply update_person_ok).
    erewrite (bind_ok (update_person _ _))
      by (apply update_person_ok; apply lookup_insert_eq).
    erewrite (bind_ok (get_person _)) by (by apply get_person_ok).
    py_simpl.
    change (Person_unique_id p2) with uid.
    rewrite bool_decide_eq_true_2 by done.
    change (Person_residence p2) with (Person_residence p). rewrite Hres.
    change (Person_count p2) with (Person_count p + 1)%Z.
    by rewrite (proj2 (Z.ltb_lt 0 (Person_count p + 1))) by lia. }
  rewrite Hstep.
  exact (Person_remove_spec w2 self p2 Hself2).
Qed.

(** ** Transfer of ownership *)

Lemma occurrences_app x l1 l2 :
  occurrences x (l1 ++ l2) = (occurrences x l1 + occurrences x l2)%nat.
Proof. unfold occurrences. by rewrite filter_app, length_app. Qed.

Lemma occurrences_cons x y l :
  occurrences x (y :: l) =
  if decide (y = x) then S (occurrences x l) else occurrences x l.
Proof. unfold occurrences. rewrite filter_cons. by case_decide. Qed.

Lemma occurrences_elem_of x l : x ∈ l <-> occurrences x l <> 0%nat.
Proof.
  induction l as [|y l IH].
  - split; [by intros ?%elem_of_nil | done].
  - rewrite occurrences_cons, elem_of_cons. case_decide as E.
    + split; [done | auto].
    + rewrite IH. split; [by intros [?|?] | auto].
Qed.

Lemma occurrences_remove_ne x y l l' :
  list_remove y l = Some l' -> x <> y -> occurrences x l' = occurrences x l.
Proof.
  revert l'. induction l as [|z l IH]; intros l' Hrm Hne; [done|].
  simpl in Hrm. case_decide as E.
  - injection Hrm as <-. subst z. rewrite occurrences_cons.
    by rewrite decide_False by done.
  - destruct (list_remove y l) as [l''|]; [|done]. injection Hrm as <-.
    rewrite !occurrences_cons. case_decide; by rewrite (IH l'').
Qed.

Lemma occurrences_remove_eq x l l' :
  list_remove x l = Some l' -> occurrences x l = S (occurrences x l').
Proof.
  revert l'. induction l as [|z l IH]; intros l' Hrm; [done|].
  simpl in Hrm. case_decide as E.
  - injection Hrm as <-. subst z. rewrite occurrences_cons.
    by rewrite decide_True by done.
  - destruct (list_remove x l) as [l''|]; [|done]. injection Hrm as <-.
    rewrite !occurrences_cons. rewrite !decide_False by done. by apply IH.
Qed.

Lemma list_remove_is_Some (x : addr) l :
  x ∈ l -> is_Some (list_remove x l).
Proof.
  induction l as [|z l IH]; [by intros ?%elem_of_nil|].
  intros Hin. simpl. case_decide as E; [by eexists|].
  apply elem_of_cons in Hin as [?|Hin]; [done|].
  destruct (IH Hin) as [l' ->]. by eexists.
Qed.

Lemma title_count_insert_ne l w a a' o :
  a <> a' ->
  title_count l (set_heap w (<[a := o]> (heap w))) a' = title_count l w a'.
Proof.
  intros Hne. unfold title_count. simpl. by rewrite lookup_insert_ne.
Qed.

Lemma title_count_insert_eq l w a o :
  title_count l (set_heap w (<[a := o]> (heap w))) a
  = occurrences l <$> properties_owned_of o.
Proof. unfold title_count. simpl. by rewrite lookup_insert_eq. Qed.

Lemma owner_of_insert_ne l w a o :
  a <> l -> owner_of (set_heap w (<[a := o]> (heap w))) l = owner_of w l.
Proof. intros Hne. unfold owner_of. simpl. by rewrite lookup_insert_ne. Qed.

Lemma owner_of_insert_eq w a o :
  owner_of (set_heap w (<[a := o]> (heap w))) a
  = match o with OLand x => Land_owner x | _ => None end.
Proof. unfold owner_of. simpl. by rewrite lookup_insert_eq. Qed.

(** Replacing an object by one with as many copies of [l] in
    [properties_owned] and, for a parcel, the same owner. *)
Lemma same_title_insert l w0 w a o o' :
  heap w !! a = Some o ->
  occurrences l <$> properties_owned_of o'
    = occurrences l <$> properties_owned_of o ->
  (a = l ->
   match o' with OLand x => Land_owner x | _ => None end
   = match o with OLand x => Land_owner x | _ => None end) ->
  same_title l w0 w ->
  same_title l w0 (set_heap w (<[a := o']> (heap w))).
Proof.
  intros Ha Hocc Hown [Htitle Howner]. split.
  - intros a'. destruct (decide (a = a')) as [<-|Hne].
    + rewrite title_count_insert_eq, Hocc, <- Htitle.
      unfold title_count. by rewrite Ha.
    + by rewrite title_count_insert_ne.
  - destruct (decide (a = l)) as [->|Hne].
    + rewrite owner_of_insert_eq, (Hown eq_refl), <- Howner.
      unfold owner_of. by rewrite Ha.
    + by rewrite owner_of_insert_ne.
Qed.

Ltac title_person :=
  intros ? ? ? ? ? Heq _ ?; eapply same_title_insert; eauto;
  simpl; by rewrite ?Heq.

Ltac title_land :=
  intros ? ? ? ? ? Heq ?; eapply same_title_insert; eauto;
  simpl; by rewrite ?Heq.

Ltac title_frame lem :=
  apply lem; try (by intros); first [title_person | title_land].

Lemma title_handle_investor_purchase l w0 b x :
  preserves (same_title l w0) (Realtor_handle_investor_purchase b x).
Proof. title_frame frame_handle_investor_purchase. Qed.

Lemma title_handle_person_purchase l w0 b x q :
  preserves (same_title l w0) (Realtor_handle_person_purchase b x q).
Proof. title_frame frame_handle_person_purchase. Qed.

Lemma title_handle_seller_departure l w0 s :
  preserves (same_title l w0) (Realtor_handle_seller_departure s).
Proof. title_frame frame_handle_seller_departure. Qed.

Lemma preserves_update_properties_owned P agent f :
  (forall w a o l l',
     agent = Some a -> heap w !! a = Some o ->
     properties_owned_of o = Some l -> f l = Ok l' -> P w ->
     P (set_heap w (<[a := with_properties_owned o l']> (heap w)))) ->
  preserves P (update_properties_owned agent f).
Proof.
  intros H w Hw. unfold update_properties_owned.
  destruct agent as [a|]; [|done].
  destruct (heap w !! a) as [o|] eqn:Ho; [|done]. simpl.
  destruct (properties_owned_of o) as [l|] eqn:Hl; [|done].
  destruct (f l) as [l'|] eqn:Hf; [|done]. simpl. by eapply H.
Qed.

Lemma properties_owned_of_with o l l' :
  properties_owned_of o = Some l ->
  properties_owned_of (with_properties_owned o l') = Some l'.
Proof. by destruct o. Qed.

Lemma with_properties_owned_not_land o l l' :
  properties_owned_of o = Some l ->
  match with_properties_owned o l' with OLand x => Land_owner x | _ => None end
  = match o with OLand x => Land_owner x | _ => None end.
Proof. by destruct o. Qed.

(** Settling the sale of another parcel leaves the title of [l] alone. *)
Lemma title_transfer_other l w0 seller buyer sale_property :
  sale_property <> l ->
  preserves (same_title l w0)
    (Realtor_transfer_property seller buyer sale_property).
Proof.
  intros Hne. unfold Realtor_transfer_property.
  apply preserves_bind; [|intros _; apply preserves_bind; [|intros _]].
  - apply preserves_update_properties_owned.
    intros w a o x x' _ Ho Hx [= <-] Hw.
    eapply same_title_insert; eauto.
    + rewrite (properties_owned_of_with _ _ _ Hx), Hx. simpl.
      rewrite occurrences_app, occurrences_cons, decide_False by done.
      unfold occurrences at 2. simpl. by rewrite Nat.add_0_r.
    + intros _. by eapply with_properties_owned_not_land.
  - apply preserves_update_properties_owned.
    intros w a o x x' _ Ho Hx Hrm Hw.
    destruct (list_remove sale_property x) as [x''|] eqn:E; [|done].
    injection Hrm as <-.
    eapply same_title_insert; eauto.
    + rewrite (properties_owned_of_with _ _ _ Hx), Hx. simpl.
      f_equal. eapply occurrences_remove_ne; eauto.
    + intros _. by eapply with_properties_owned_not_land.
  - apply preserves_update_land. intros w x Hx Hw.
    eapply same_title_insert; eauto. by intros ->.
Qed.

Lemma title_complete_transaction_after l w0 allocation w :
  same_title l w0 w ->
  forall buyer seller,
  preserves (same_title l w0)
    ((match buyer with
      | Some b =>
          if isinstance w (VRef b) CInvestor then
            Realtor_handle_investor_purchase b (Allocation_property allocation)
          else if isinstance w (VRef b) CPerson then
            Realtor_handle_person_purchase b (Allocation_property allocation)
              (Allocation_final_price allocation)
          else ret tt
      | None => ret tt
      end) >>>
     match seller with
     | Some s =>
         if isinstance w (VRef s) CPerson
         then Realtor_handle_seller_departure s
         else ret tt
     | None => ret tt
     end).
Proof.
  intros _ buyer seller. apply preserves_bind; [|intros _].
  - destruct buyer as [b|]; [|apply preserves_ret].
    destruct (isinstance w (VRef b) CInvestor);
      [apply title_handle_investor_purchase|].
    destruct (isinstance w (VRef b) CPerson);
      [apply title_handle_person_purchase | apply preserves_ret].
  - destruct seller as [s|]; [|apply preserves_ret].
    destruct (isinstance w (VRef s) CPerson);
      [apply title_handle_seller_departure | apply preserves_ret].
Qed.

Lemma title_complete_transaction_other l w0 allocation :
  Allocation_property allocation <> l ->
  preserves (same_title l w0) (Realtor_complete_transaction allocation).
Proof.
  intros Hne. unfold Realtor_complete_transaction.
  apply preserves_bind; [apply preserves_get_land|]. intros prop.
  apply preserves_bind; [by apply title_transfer_other|]. intros _.
  intros w Hw. unfold bind at 1, read, id.
  by apply title_complete_transaction_after.
Qed.

Lemma update_properties_owned_ok w a o l l' f :
  heap w !! a = Some o -> properties_owned_of o = Some l -> f l = Ok l' ->
  update_properties_owned (Some a) f w
  = (set_heap w (<[a := with_properties_owned o l']> (heap w)), Ok tt).
Proof.
  intros Ho Hl Hf. unfold update_properties_owned.
  rewrite Ho. simpl. by rewrite Hl, Hf.
Qed.

Lemma update_land_ok w a l f :
  heap w !! a = Some (OLand l) ->
  update_land a f w = (set_heap w (<[a := OLand (f l)]> (heap w)), Ok tt).
Proof.
  intros H. unfold update_land, bind, get_land. by rewrite H.
Qed.

Lemma title_count_Some l w a n :
  title_count l w a = Some n ->
  exists o x, heap w !! a = Some o /\ properties_owned_of o = Some x /\
              occurrences l x = n.
Proof.
  unfold title_count. destruct (heap w !! a) as [o|]; [|done]. simpl.
  destruct (properties_owned_of o) as [x|] eqn:E; [|done].
  intros [= <-]. by exists o, x.
Qed.

(** [transfer_property] for a seller holding the parcel once and a buyer
    not holding it. *)
Lemma transfer_property_effect w l s b land :
  heap w !! l = Some (OLand land) ->
  title_count l w s = Some 1%nat ->
  title_count l w b = Some 0%nat ->
  exists w1,
    Realtor_transfer_property (Some s) (Some b) l w = (w1, Ok tt) /\
    title_count l w1 b = Some 1%nat /\
    title_count l w1 s = Some 0%nat /\
    owner_of w1 l = Some b.
Proof.
  intros Hland Hs Hb.
  assert (Hsb : s <> b) by (intros ->; congruence).
  apply title_count_Some in Hs as (os & ls & Hos & Hls & Hns).
  apply title_count_Some in Hb as (ob & lb & Hob & Hlb & Hnb).
  assert (Hls' : l <> s) by (intros ->; rewrite Hland in Hos; by simplify_eq).
  assert (Hlb' : l <> b) by (intros ->; rewrite Hland in Hob; by simplify_eq).
  destruct (list_remove_is_Some l ls) as [ls' Hrm].
  { apply occurrences_elem_of. by rewrite Hns. }
  pose proof (occurrences_remove_eq _ _ _ Hrm) as Hocc.
  rewrite Hns in Hocc. injection Hocc as Hocc.
  unfold Realtor_transfer_property.
  erewrite bind_ok by (by eapply update_properties_owned_ok).
  erewrite bind_ok.
  2:{ eapply update_properties_owned_ok.
      - simpl. by rewrite lookup_insert_ne.
      - done.
      - by rewrite Hrm. }
  erewrite update_land_ok.
  2:{ simpl. by rewrite !lookup_insert_ne. }
  eexists. split; [done|].
  unfold title_count, owner_of. simpl.
  rewrite lookup_insert_eq.
  rewrite !(lookup_insert_ne _ l) by done.
  rewrite lookup_insert_eq.
  rewrite (lookup_insert_ne _ s b) by done.
  rewrite lookup_insert_eq. simpl.
  rewrite (properties_owned_of_with _ _ _ Hlb).
  rewrite (properties_owned_of_with _ _ _ Hls). simpl.
  rewrite occurrences_app, Hnb. split; [|by rewrite <- Hocc].
  by rewrite occurrences_cons, decide_True.
Qed.

Lemma for_each_app {A} (l1 l2 : list A) body (w : Model) :
  for_each (l1 ++ l2) body w
  = (for_each l1 body >>> for_each l2 body) w.
Proof.
  revert w. induction l1 as [|x l1 IH]; intros w; simpl.
  - done.
  - unfold bind. destruct (body x w) as [w1 [[]|e]]; [|done].
    by rewrite IH.
Qed.

Lemma preserves_for_each_in {A} P (l : list A) body :
  (forall x, x ∈ l -> preserves P (body x)) -> preserves P (for_each l body).
Proof.
  induction l as [|x l IH]; intros Hb; simpl.
  - apply preserves_ret.
  - apply preserves_bind.
    + apply Hb. by left.
    + intros _. apply IH. intros y Hy. apply Hb. by right.
Qed.

Lemma title_complete_transactions_other l w0 allocations :
  l ∉ Allocation_property <$> allocations ->
  preserves (same_title l w0) (Realtor_complete_transactions allocations).
Proof.
  intros Hnotin. apply preserves_for_each_in. intros x Hx.
  apply title_complete_transaction_other. intros <-.
  apply Hnotin. by apply list_elem_of_fmap_2.
Qed.

Lemma same_title_refl l w : same_title l w w.
Proof. by split. Qed.

Lemma owned_by_title_count l w a n :
  title_count l w a = Some n -> occurrences l (owned_by w a) = n.
Proof.
  intros (o & x & Ho & Hx & Hn)%title_count_Some.
  unfold owned_by. by rewrite Ho; simpl; rewrite Hx.
Qed.

(** C2, as amended.  For every allocation processed by
    [complete_transactions], if beforehand the sold property is listed
    exactly once in [properties_owned] of its owner (the seller) and not
    at all in the buyer's, then after the call the property is in the
    buyer's [properties_owned], is not in the seller's, and its [owner] is
    the buyer.  The allocations of one call are for distinct properties,
    as those built by [sell_homes] are; the statement holds for the model
    left by the call whether the handlers that follow the transfer, or the
    allocations after this one, return or raise. *)
Theorem transfer_is_exclusive (settled rest : list Allocation)
    (allocation : Allocation) (w w1 : Model) (seller buyer : addr) :
  let l := Allocation_property allocation in
  let w' :=
    (Realtor_complete_transactions (settled ++ allocation :: rest) w).1 in
  NoDup (Allocation_property <$> (settled ++ allocation :: rest)) ->
  Realtor_complete_transactions settled w = (w1, Ok tt) ->
  owner_of w l = Some seller ->
  Allocation_successful_bidder allocation = Some buyer ->
  title_count l w seller = Some 1%nat ->
  title_count l w buyer = Some 0%nat ->
  (l ∈ owned_by w' buyer) /\ (l ∉ owned_by w' seller) /\
  owner_of w' l = Some buyer.
Proof.
  intros l w' Hnodup Hsettled Howner Hbuyer Hseller_title Hbuyer_title.
  rewrite fmap_app, fmap_cons in Hnodup.
  apply NoDup_app in Hnodup as (_ & Hsettled_other & Hrest).
  apply NoDup_cons in Hrest as [Hrest_other _].
  (* the allocations settled before leave the title of [l] alone *)
  assert (H1 : same_title l w w1).
  { pose proof (title_complete_transactions_other l w settled) as Hp.
    specialize (Hp (fun H => Hsettled_other _ H (list_elem_of_here _ _))
                   w (same_title_refl l w)).
    by rewrite Hsettled in Hp. }
  destruct H1 as [Htitle1 Howner1].
  rewrite <- Htitle1 in Hseller_title, Hbuyer_title.
  rewrite <- Howner1 in Howner.
  unfold owner_of in Howner.
  destruct (heap w1 !! l) as [[land| | | | |]|] eqn:Hland; try done.
  (* this allocation *)
  destruct (transfer_property_effect w1 l seller buyer land Hland
              Hseller_title Hbuyer_title) as (w2 & Htransfer & Hb2 & Hs2 & Ho2).
  assert (Hfinal : same_title l w2 w').
  { subst w'. unfold Realtor_complete_transactions.
    rewrite for_each_app.
    erewrite bind_ok by exact Hsettled.
    simpl. unfold bind at 1.
    unfold Realtor_complete_transaction at 1.
    erewrite (bind_ok (get_land _)) by (by apply get_land_ok).
    fold l. rewrite Howner, Hbuyer.
    erewrite bind_ok by exact Htransfer.
    unfold bind at 2, read, id.
    pose proof (title_complete_transaction_after l w2 allocation w2
                  (same_title_refl l w2) (Some buyer) (Some seller)
                  w2 (same_title_refl l w2)) as Hafter.
    fold l in Hafter.
    destruct (bind _ _ w2) as [w3 [[]|e]]; simpl in Hafter |- *; [|done].
    by apply (title_complete_transactions_other l w2 rest Hrest_other w3). }
  destruct Hfinal as [Htitle' Howner'].
  rewrite <- Htitle' in Hb2, Hs2. rewrite <- Howner' in Ho2.
  apply owned_by_title_count in Hb2, Hs2.
  rewrite !occurrences_elem_of, Hb2, Hs2. by repeat split; auto.
Qed.

(** ** Clearing *)

Lemma price_lt_irrefl x : price_lt x x = false.
Proof. apply flt_irrefl. Qed.

Lemma price_lt_trans x y z :
  price_lt x y = true -> price_lt y z = true -> price_lt x z = true.
Proof. apply flt_trans. Qed.

Lemma price_le_trans x y z :
  comparable x -> comparable y -> comparable z ->
  price_lt y x = false -> price_lt z y = false -> price_lt z x = false.
Proof. apply fle_trans. Qed.

Lemma not_outbid_of_not_lt a b :
  comparable a -> comparable b -> price_lt a b = false -> not_outbid a b.
Proof.
  unfold comparable, not_outbid, price_lt, fle. by intros -> -> ->.
Qed.

Lemma sort_by_price_desc_sorted l :
  Forall comparable l -> StronglySorted not_outbid (sort_by_price_desc l).
Proof.
  intros Hl.
  pose proof (list_sort_reverse_sorted price_lt comparable price_lt_irrefl
                price_lt_trans price_le_trans l Hl) as Hsorted.
  assert (Hall : Forall comparable (sort_by_price_desc l)).
  { by rewrite sort_by_price_desc_Permutation. }
  fold (sort_by_price_desc l) in Hsorted.
  induction Hsorted as [|b s Hs IH Hb]; [constructor|].
  apply Forall_cons in Hall as [Hok Hall].
  constructor; [by apply IH|].
  rewrite Forall_forall in *. intros x Hx.
  apply not_outbid_of_not_lt; auto.
Qed.

Lemma sort_by_price_desc_nil l : sort_by_price_desc l = [] -> l = [].
Proof.
  intros H. apply Permutation_nil_r. rewrite <- H.
  by rewrite sort_by_price_desc_Permutation.
Qed.

(** The head of the sorted list is the first bid of highest price (the
    sort is stable), and the tail holds the other bids. *)
Lemma sort_by_price_desc_head l winner others :
  Forall comparable l ->
  sort_by_price_desc l = winner :: others ->
  exists before after,
    l = before ++ winner :: after /\
    (forall b, b ∈ before -> flt (Bid_price b) (Bid_price winner) = true) /\
    (forall b, b ∈ after -> fle (Bid_price b) (Bid_price winner) = true) /\
    others ≡ₚ before ++ after.
Proof.
  intros Hl Hsort.
  destruct (list_sort_reverse_head price_lt comparable price_lt_irrefl
              price_lt_trans price_le_trans l winner others Hl Hsort)
    as (before & after & -> & Hb & Ha & Hp).
  exists before, after. split; [done|]. split; [done|]. split; [|done].
  intros b Hin. rewrite Forall_forall in Hl.
  apply (not_outbid_of_not_lt winner b); [| |by apply Ha].
  - apply Hl. apply elem_of_app. right. by left.
  - apply Hl. apply elem_of_app. right. by right.
Qed.

Lemma dict_get_app_notin {K V} `{EqDecision K} k v (d1 d2 : list (K * V)) :
  k ∉ dict_keys d1 -> dict_get k (d1 ++ (k, v) :: d2) = Some v.
Proof.
  induction d1 as [|[k' v'] d1 IH]; simpl; intros Hnotin.
  - by rewrite decide_True.
  - apply not_elem_of_cons in Hnotin as [Hne Hnotin].
    rewrite decide_False by done. by apply IH.
Qed.

Lemma dict_set_app_notin {K V} `{EqDecision K} k v v' (d1 d2 : list (K * V)) :
  k ∉ dict_keys d1 ->
  dict_set k v' (d1 ++ (k, v) :: d2) = d1 ++ (k, v') :: d2.
Proof.
  induction d1 as [|[k0 v0] d1 IH]; simpl; intros Hnotin.
  - by rewrite decide_True.
  - apply not_elem_of_cons in Hnotin as [Hne Hnotin].
    rewrite decide_False by done. by rewrite IH.
Qed.

(** The allocation built from a sorted list of bids clears the bids. *)
Lemma sorted_bids_clear property bids winner others :
  Forall comparable bids ->
  sort_by_price_desc bids = winner :: others ->
  clears property bids
    (mkAllocation property (Some (Bid_bidder winner)) (Bid_price winner)
       (match others with b :: _ => Bid_price b | [] => Fin 0 end)
       (Bid_price winner)).
Proof.
  intros Hok Hsort. split; [done|].
  pose proof (sort_by_price_desc_sorted bids Hok) as Hsorted.
  assert (Hall : Forall comparable (winner :: others)).
  { by rewrite <- Hsort, sort_by_price_desc_Permutation. }
  destruct (sort_by_price_desc_head _ _ _ Hok Hsort)
    as (before & after & -> & Hbefore & Hafter & Hperm).
  exists winner, before, after. repeat (split; [done|]). simpl.
  rewrite Hsort in Hsorted. apply StronglySorted_inv in Hsorted as [Hsorted _].
  destruct others as [|second others].
  - apply Permutation_nil in Hperm. by rewrite Hperm.
  - destruct (before ++ after) as [|y rest] eqn:E.
    { symmetry in Hperm. by apply Permutation_nil_cons in Hperm. }
    exists second. split; [|split; [|done]].
    + rewrite <- Hperm. by left.
    + intros b Hb. rewrite <- Hperm in Hb.
      apply StronglySorted_inv in Hsorted as [_ Hall2].
      apply elem_of_cons in Hb as [->|Hb].
      * apply Forall_cons in Hall as [_ Hall].
        apply Forall_cons in Hall as [Hsecond _].
        unfold fle. rewrite Hsecond, flt_irrefl. done.
      * rewrite Forall_forall in Hall2. by apply Hall2.
Qed.

(** One iteration of the loop of [sell_homes], on the entry being visited. *)
Lemma sell_home_entry w visited property bids todo allocations land :
  property ∉ dict_keys visited ->
  heap w !! property = Some (OLand land) ->
  (forall b, b ∈ bids ->
     exists p, heap w !! Bid_bidder b = Some (OPerson p)) ->
  exists new,
    Realtor_sell_home property allocations
      (with_book w (visited ++ (property, bids) :: todo))
    = (with_book w (visited ++ (property, sort_by_price_desc bids) :: todo),
       Ok (allocations ++ new)) /\
    (Forall comparable bids ->
     Forall2 (fun entry a => clears entry.1 entry.2 a)
       (filter (fun entry => entry.2 <> []) [(property, bids)]) new).
Proof.
  intros Hnotin Hland Hbidders.
  unfold Realtor_sell_home, bind at 1, read, id.
  assert (Hinst : isinstance
            (with_book w (visited ++ (property, bids) :: todo))
            (VRef property) CLand = true).
  { unfold isinstance. rewrite (as_instance_land _ _ land) by done.
    apply bool_decide_eq_true_2. by eexists. }
  rewrite Hinst. simpl negb. cbv iota.
  unfold defaultdict_get.
  change (Realtor_bids (realtor (with_book w ?b))) with b.
  rewrite dict_get_app_notin by done.
  simpl negb. cbv iota.
  destruct bids as [|b0 bids0].
  { exists []. split; [|by rewrite filter_cons_False by (by intros [])].
    by rewrite app_nil_r. }
  set (bids := b0 :: bids0) in *.
  destruct (sort_by_price_desc bids) as [|winner others] eqn:Hsort.
  { by apply sort_by_price_desc_nil in Hsort. }
  assert (Hwinner : exists p, heap w !! Bid_bidder winner = Some (OPerson p)).
  { apply Hbidders. rewrite <- (sort_by_price_desc_Permutation bids), Hsort.
    by left. }
  destruct Hwinner as [p Hp].
  exists [mkAllocation property (Some (Bid_bidder winner)) (Bid_price winner)
            (match others with b :: _ => Bid_price b | [] => Fin 0 end)
            (Bid_price winner)].
  split.
  - rewrite bool_decide_eq_true_2 by (simpl; lia).
    unfold bind at 1, modify.
    unfold bind at 1.
    change (Realtor_bids (realtor (set_realtor ?w0 (set_Realtor_bids ?r ?b))))
      with b.
    rewrite dict_set_app_notin by done.
    unfold bind at 1. simpl or_raise. unfold ret at 1.
    assert (Hinit : forall second,
      Allocation_init (with_book w (visited ++ (property, bids) :: todo))
        (VRef property) (VRef (Bid_bidder winner))
        (VFloat (Bid_price winner)) second (VFloat (Bid_price winner))
      = match as_number second with
        | Some s => Ok (mkAllocation property (Some (Bid_bidder winner))
                          (Bid_price winner) s (Bid_price winner))
        | None => Raise ValueError
        end).
    { intros second. unfold Allocation_init.
      rewrite (as_instance_land _ _ land) by done.
      rewrite (as_instance_person _ _ p) by done. simpl.
      by destruct (as_number second). }
    destruct others as [|second others]; simpl.
    + unfold bind, lift, ret. by rewrite Hinit.
    + unfold bind, lift, ret. by rewrite Hinit.
  - intros Hok. rewrite filter_cons_True by done. rewrite filter_nil.
    constructor; [|constructor]. by apply sorted_bids_clear.
Qed.

Lemma sell_homes_loop_entries w todo :
  forall visited allocations,
  NoDup (dict_keys (visited ++ todo)) ->
  (forall property bids, (property, bids) ∈ todo ->
     (exists land, heap w !! property = Some (OLand land)) /\
     forall b, b ∈ bids ->
       exists p, heap w !! Bid_bidder b = Some (OPerson p)) ->
  exists new,
    Realtor_sell_homes_loop (dict_keys todo) allocations
      (with_book w (visited ++ todo))
    = (with_book w (visited ++ sorted_book todo), Ok (allocations ++ new)) /\
    (Forall (fun entry => Forall comparable entry.2) todo ->
     Forall2 (fun entry a => clears entry.1 entry.2 a)
       (filter (fun entry => entry.2 <> []) todo) new).
Proof.
  induction todo as [|[property bids] todo IH];
    intros visited allocations Hnodup Hwf.
  - exists []. split; [|constructor].
    unfold sorted_book. simpl. by rewrite !app_nil_r.
  - destruct (Hwf property bids) as [[land Hland] Hbidders]; [by left|].
    assert (Hnotin : property ∉ dict_keys visited).
    { unfold dict_keys in *. rewrite fmap_app in Hnodup.
      apply NoDup_app in Hnodup as (_ & Hdisjoint & _).
      intros Hin. apply (Hdisjoint _ Hin). by left. }
    destruct (sell_home_entry w visited property bids todo allocations land
                Hnotin Hland Hbidders) as (new1 & Hentry & Hclears1).
    destruct (IH (visited ++ [(property, sort_by_price_desc bids)])
                 (allocations ++ new1)) as (new2 & Hloop & Hclears2).
    { unfold dict_keys in *. rewrite <- app_assoc. simpl.
      by rewrite !fmap_app, !fmap_cons in *. }
    { intros p bl Hin. apply Hwf. by right. }
    exists (new1 ++ new2). split.
    + simpl. erewrite bind_ok by exact Hentry.
      rewrite (cons_middle _ visited todo), app_assoc, Hloop.
      by rewrite <- !app_assoc.
    + intros [Hok1 Hok2]%Forall_cons.
      change ((property, bids) :: todo) with ([(property, bids)] ++ todo).
      rewrite filter_app. apply Forall2_app; auto.
Qed.

(** C1, as amended.  For a bid book built by [add_bid] in which no price
    is a NaN, [sell_homes] produces, in the order of the book, exactly one
    allocation for each property with at least one bid and none for a
    property without bids; the allocation's successful bidder is the
    bidder of the (first) highest-price bid, its highest bid and final
    price are that bid's price, and its second-highest bid is the highest
    price among the other bids, 0 when there is only one bid.  These
    allocations are what [sell_homes] hands to [complete_transactions] and
    returns when settlement returns. *)
Theorem sell_homes_clears_each_property (w : Model) :
  let book := Realtor_bids (realtor w) in
  book_wf w ->
  prices_comparable w ->
  exists allocations,
    Forall2 (fun entry a => clears entry.1 entry.2 a)
      (filter (fun entry => entry.2 <> []) book) allocations /\
    Realtor_allocate w = (with_book w (sorted_book book), Ok allocations) /\
    Realtor_sell_homes w =
      (let settled :=
         Realtor_complete_transactions allocations
           (with_book w (sorted_book book)) in
       match settled.2 with
       | Ok _ => (with_book settled.1 [], Ok allocations)
       | Raise e => (settled.1, Raise e)
       end).
Proof.
  intros book [Hnodup Hwf] Hprices.
  destruct (sell_homes_loop_entries w book [] [] Hnodup Hwf)
    as (allocations & Hloop & Hclears).
  simpl in Hloop. unfold with_book in Hloop at 1.
  rewrite set_bids_same in Hloop.
  assert (Hallocate :
    Realtor_allocate w = (with_book w (sorted_book book), Ok allocations)).
  { unfold Realtor_allocate, bind, read. exact Hloop. }
  exists allocations. split.
  { apply Hclears. rewrite Forall_forall. intros [property bids] Hin.
    rewrite Forall_forall. intros b Hb. by apply (Hprices property bids). }
  split; [done|].
  unfold Realtor_sell_homes. erewrite bind_ok by exact Hallocate.
  unfold bind, modify, ret.
  by destruct (Realtor_complete_transactions _ _) as [w2 [[]|e]].
Qed.

(** ** Methods that only write the realtor's attributes *)

Section frame_realtor.
Variable P : Model -> Prop.
Hypothesis P_realtor : forall w x, P w -> P (set_realtor w x).

Lemma realtor_add_bid bidder property price :
  preserves P (Realtor_add_bid bidder property price).
Proof.
  unfold Realtor_add_bid.
  apply preserves_bind; [apply preserves_read|]. intros w0.
  repeat (case_match; [apply preserves_raise|]).
  apply preserves_bind; [apply preserves_lift|]. intros bid.
  apply preserves_modify. intros w Hw. by apply P_realtor.
Qed.

Lemma realtor_Person_bid self : preserves P (Person_bid self).
Proof.
  unfold Person_bid.
  apply preserves_bind; [apply preserves_get_person|]. intros p.
  apply preserves_bind; [apply preserves_read|]. intros w0.
  apply preserves_bind; [apply preserves_lift|]. intros M.
  apply preserves_for_each. intros sale_property. unfold Person_bid_on.
  apply preserves_bind; [apply preserves_get_land|]. intros prop.
  apply preserves_bind; [apply preserves_read|]. intros w1.
  apply preserves_bind; [apply preserves_lift|]. intros P_max_bid.
  destruct (flt (fmul _ _) _);
    (apply preserves_bind; [apply preserves_lift|]; intros bid;
     destruct (flt _ _); [apply realtor_add_bid | apply preserves_ret]).
Qed.

Lemma realtor_sell_home property allocations :
  preserves P (Realtor_sell_home property allocations).
Proof.
  unfold Realtor_sell_home.
  apply preserves_bind; [apply preserves_read|]. intros w0.
  case_match; [apply preserves_raise|].
  destruct (defaultdict_get _ _ _) as [bl bids].
  apply preserves_bind.
  { apply preserves_modify. intros w Hw. by apply P_realtor. }
  intros _. case_bool_decide; [|apply preserves_ret].
  apply preserves_bind.
  { apply preserves_modify. intros w Hw. by apply P_realtor. }
  intros _.
  apply preserves_bind; [apply preserves_or_raise|]. intros highest_bid.
  apply preserves_bind.
  { case_bool_decide; [|apply preserves_ret].
    apply preserves_bind; [apply preserves_or_raise|]. intros b.
    apply preserves_ret. }
  intros second.
  apply preserves_bind; [apply preserves_lift|]. intros allocation.
  apply preserves_ret.
Qed.

Lemma realtor_allocate : preserves P Realtor_allocate.
Proof.
  unfold Realtor_allocate.
  apply preserves_bind; [apply preserves_read|]. intros keys.
  generalize (@nil Allocation).
  induction keys as [|k keys IH]; intros allocations; simpl.
  - apply preserves_ret.
  - apply preserves_bind; [apply realtor_sell_home | apply IH].
Qed.

End frame_realtor.

(** ** [count] is never negative *)

Lemma counts_insert w a o :
  (forall p, o = OPerson p -> (0 <= Person_count p)%Z) ->
  counts_nonneg w -> counts_nonneg (set_heap w (<[a := o]> (heap w))).
Proof.
  intros Ho Hw a' p'. simpl. destruct (decide (a = a')) as [<-|Hne].
  - rewrite lookup_insert_eq. intros [= ->]. by apply Ho.
  - rewrite lookup_insert_ne by done. apply Hw.
Qed.

Ltac counts_person :=
  intros ? ? ? ? Ha _ Hle Hw; apply counts_insert; [|done];
  intros ? [= <-]; specialize (Hw _ _ Ha); lia.

Ltac counts_land :=
  intros ? ? ? ? ? ? ?; by apply counts_insert.

Ltac counts_frame lem :=
  apply lem; try (by intros); first [counts_person | counts_land].

Lemma counts_complete_transaction allocation :
  preserves counts_nonneg (Realtor_complete_transaction allocation).
Proof.
  unfold Realtor_complete_transaction, Realtor_transfer_property.
  apply preserves_bind; [apply preserves_get_land|]. intros prop.
  apply preserves_bind.
  { repeat (apply preserves_bind; [|intros _]).
    1,2: apply preserves_update_properties_owned;
      intros w a o l l' _ Ho Hl _ Hw; apply counts_insert; [|done];
      destruct o; try done; intros ? [= <-]; apply (Hw _ _ Ho).
    apply preserves_update_land. intros. by apply counts_insert. }
  intros _. apply preserves_bind; [apply preserves_read|]. intros w.
  apply preserves_bind.
  - repeat case_match; try apply preserves_ret.
    + counts_frame frame_handle_investor_purchase.
    + counts_frame frame_handle_person_purchase.
  - intros _. repeat case_match; try apply preserves_ret.
    counts_frame frame_handle_seller_departure.
Qed.

Lemma counts_call_method step_name agent :
  preserves counts_nonneg (call_method step_name agent).
Proof.
  unfold call_method.
  apply preserves_bind; [apply preserves_get_obj|]. intros o.
  destruct step_name, o;
    try apply preserves_ret; try apply preserves_raise.
  - counts_frame frame_Land_step.
  - counts_frame frame_Person_step.
  - counts_frame frame_Firm_step.
  - by apply realtor_Person_bid.
Qed.

(** Every operation of the market keeps [count] non-negative. *)
Lemma counts_run_op o w : counts_nonneg w -> counts_nonneg (run_op o w).
Proof.
  destruct o; simpl.
  - by apply realtor_add_bid.
  - unfold Realtor_sell_homes, Realtor_complete_transactions.
    apply preserves_bind; [by apply realtor_allocate|]. intros allocations.
    apply preserves_bind.
    { apply preserves_for_each, counts_complete_transaction. }
    intros _. apply preserves_bind; [|intros _; apply preserves_ret].
    by apply preserves_modify.
  - apply preserves_for_each, counts_complete_transaction.
  - unfold Schedule_step_breed.
    apply preserves_bind; [counts_frame frame_shuffled_keys|]. intros keys.
    apply preserves_for_each. intros key.
    apply preserves_bind; [counts_frame frame_breed_partition|].
    intros partition.
    apply preserves_bind; [apply preserves_or_raise|]. intros agent.
    apply counts_call_method.
  - apply counts_call_method.
  - counts_frame frame_Schedule_add.
  - counts_frame frame_Schedule_remove.
Qed.

(** A person is constructed with [count = 0]. *)
Lemma counts_Person_init unique_id init_working_period savings residence :
  preserves counts_nonneg
    (Person_init unique_id init_working_period savings residence).
Proof.
  unfold Person_init.
  apply preserves_bind; [apply preserves_read|]. intros self.
  assert (Hperson : forall f,
    (forall p, (0 <= Person_count p)%Z -> (0 <= Person_count (f p))%Z) ->
    preserves counts_nonneg (update_person self f)).
  { intros f Hf. apply preserves_update_person. intros w p Hp Hw.
    apply counts_insert; [|done]. intros ? [= <-]. apply Hf, (Hw _ _ Hp). }
  assert (Hland : forall a f, preserves counts_nonneg (update_land a f)).
  { intros a f. apply preserves_update_land. intros. by apply counts_insert. }
  apply preserves_bind.
  { apply preserves_modify. intros w Hw. apply counts_insert; [|done].
    by intros ? [= <-]. }
  intros _. apply preserves_bind.
  { destruct residence; [|apply preserves_ret].
    repeat (apply preserves_bind; [|intros _]); auto. }
  intros _. apply preserves_bind; [|intros _; apply preserves_ret].
  apply Hperson. intros. simpl. lia.
Qed.

(** ** The book built by [add_bid] is well formed *)

Lemma dict_get_None {K V} `{EqDecision K} k (d : list (K * V)) :
  dict_get k d = None <-> k ∉ dict_keys d.
Proof.
  induction d as [|[k' v'] d IH]; simpl.
  - split; [by intros _ ?%elem_of_nil | done].
  - rewrite not_elem_of_cons. case_decide as E.
    + split; [done | by intros [? _]].
    + rewrite IH. split; [by intros ? | by intros [_ ?]].
Qed.

Lemma dict_get_elem_of {K V} `{EqDecision K} k v (d : list (K * V)) :
  dict_get k d = Some v -> (k, v) ∈ d.
Proof.
  induction d as [|[k' v'] d IH]; simpl; [done|].
  case_decide as E.
  - intros [= ->]. subst. by left.
  - intros H'. right. by apply IH.
Qed.

Lemma dict_set_keys {K V} `{EqDecision K} k v (d : list (K * V)) :
  is_Some (dict_get k d) -> dict_keys (dict_set k v d) = dict_keys d.
Proof.
  induction d as [|[k' v'] d IH]; simpl; [by intros [? ?]|].
  case_decide as E; [done|]. intros H'. simpl. f_equal. by apply IH.
Qed.

Lemma elem_of_dict_set {K V} `{EqDecision K} k v k' v' (d : list (K * V)) :
  (k', v') ∈ dict_set k v d -> (k' = k /\ v' = v) \/ (k', v') ∈ d.
Proof.
  induction d as [|[k0 v0] d IH]; simpl.
  - intros [[= -> ->]|?%elem_of_nil]%elem_of_cons; [by left | done].
  - case_decide as E.
    + intros [[= -> ->]|Hin]%elem_of_cons; [by left|]. right. by right.
    + intros [[= -> ->]|Hin]%elem_of_cons; [right; by left|].
      destruct (IH Hin) as [?|?]; [by left|]. right. by right.
Qed.

Lemma book_wf_empty w : Realtor_bids (realtor w) = [] -> book_wf w.
Proof.
  intros H. unfold book_wf. rewrite H. split; [constructor|].
  by intros ? ? ?%elem_of_nil.
Qed.

Lemma book_wf_add_bid bidder property price :
  preserves book_wf (Realtor_add_bid bidder property price).
Proof.
  intros w [Hnodup Hwf].
  unfold Realtor_add_bid, bind, read, id, raise, lift, modify.
  repeat (case_match; [done|]).
  destruct (Bid_init w bidder property price default_amount)
    as [bid|] eqn:Hbid; [|done].
  simpl. unfold Bid_init in Hbid.
  destruct (as_instance w bidder CPerson) as [b|] eqn:Hb; [|done].
  destruct (as_instance w property CLand) as [l|] eqn:Hl; [|done].
  destruct (as_number price) as [pr|]; [|done].
  simpl in Hbid. injection Hbid as <-.
  assert (Hperson : exists p, heap w !! b = Some (OPerson p)).
  { unfold as_instance in Hb. repeat case_match; simplify_eq.
    destruct o; simplify_eq/=. by eexists. }
  assert (Hland : exists x, heap w !! l = Some (OLand x)).
  { unfold as_instance in Hl. repeat case_match; simplify_eq.
    destruct o; simplify_eq/=. by eexists. }
  unfold book_wf, book_append, defaultdict_get. simpl.
  destruct (dict_get l (Realtor_bids (realtor w))) as [old|] eqn:Hold.
  - split; [by rewrite dict_set_keys by (by rewrite Hold)|].
    intros p bl [[-> ->]|Hin]%elem_of_dict_set; [|by apply Hwf].
    split; [done|]. intros x [Hx|Hx%list_elem_of_singleton]%elem_of_app.
    + apply dict_get_elem_of in Hold. by apply (Hwf _ _ Hold).
    + by subst x.
  - apply dict_get_None in Hold.
    replace (Realtor_bids (realtor w) ++ [(l, [])])
      with (Realtor_bids (realtor w) ++ (l, @nil Bid) :: []) by done.
    rewrite dict_set_app_notin by done. split.
    + unfold dict_keys in *. rewrite fmap_app. simpl.
      apply NoDup_app. split; [done|]. split; [|apply NoDup_singleton].
      intros x Hx Hx'%list_elem_of_singleton. by subst x.
    + intros p bl [Hin|Hin%list_elem_of_singleton]%elem_of_app;
        [by apply Hwf|].
      injection Hin as -> ->.
      split; [done|]. intros x Hx%list_elem_of_singleton. by subst x.
Qed.

(** ** The scheduler's registries *)

Lemma dict_get_filter_other {K V} `{EqDecision K} k k' (d : list (K * V)) :
  k' <> k -> dict_get k' (filter (fun e => e.1 <> k) d) = dict_get k' d.
Proof.
  intros Hne. induction d as [|[k0 v0] d IH]; simpl; [done|].
  destruct (decide (k0 = k)) as [->|E].
  - rewrite filter_cons_False by (simpl; by intros []).
    by rewrite decide_False.
  - rewrite filter_cons_True by done. simpl. case_decide; [done | apply IH].
Qed.

Lemma dict_del_get_ne {K V} `{EqDecision K} k k' (d d' : list (K * V)) :
  dict_del k d = Some d' -> k' <> k -> dict_get k' d' = dict_get k' d.
Proof.
  unfold dict_del. destruct (dict_get k d); [|done].
  intros [= <-] Hne. by apply dict_get_filter_other.
Qed.

Lemma filter_fresh_key {K V} `{EqDecision K} k (d : list (K * V)) :
  dict_get k d = None -> filter (fun e => e.1 <> k) d = d.
Proof.
  induction d as [|[k0 v0] d IH]; simpl; [done|].
  case_decide as E; [done|]. intros Hd.
  rewrite filter_cons_True by (simpl; congruence). by rewrite IH.
Qed.

Lemma dict_set_fresh {K V} `{EqDecision K} k v (d : list (K * V)) :
  dict_get k d = None -> dict_set k v d = d ++ [(k, v)].
Proof.
  induction d as [|[k0 v0] d IH]; simpl; [done|].
  case_decide as E; [done|]. intros Hd. by rewrite IH.
Qed.

Lemma dict_del_set_fresh {K V} `{EqDecision K} k v (d : list (K * V)) :
  dict_get k d = None -> dict_del k (dict_set k v d) = Some d.
Proof.
  intros Hd. unfold dict_del. rewrite dict_get_set_eq.
  rewrite dict_set_fresh by done. rewrite filter_app, filter_fresh_key by done.
  rewrite filter_cons_False by (simpl; by intros []).
  by rewrite filter_nil, app_nil_r.
Qed.

Lemma dict_get_app {K V} `{EqDecision K} k (d1 d2 : list (K * V)) :
  dict_get k (d1 ++ d2)
  = match dict_get k d1 with Some v => Some v | None => dict_get k d2 end.
Proof.
  induction d1 as [|[k0 v0] d1 IH]; simpl; [done|]. by case_decide.
Qed.

Lemma dict_set_length {K V} `{EqDecision K} k v (d : list (K * V)) :
  length (dict_set k v d)
  = match dict_get k d with
    | Some _ => length d
    | None => S (length d)
    end.
Proof.
  induction d as [|[k0 v0] d IH]; simpl; [done|].
  case_decide as E; simpl; [done|]. rewrite IH. by destruct (dict_get k d).
Qed.

(** The scheduler after [add(agent)], field by field. *)
Lemma Schedule_add_run w agent o :
  heap w !! agent = Some o ->
  let uid := unique_id_of w o in
  let breed := type_of o in
  Schedule_add agent w =
  (set_schedule w
     (mkSchedule (<[uid := agent]> (Schedule_agents (schedule w)))
        (dict_set breed (dict_set uid agent (partition_of breed w))
           (defaultdict_get [] breed (agents_by_breed (schedule w))).2)
        (Schedule_steps (schedule w)) (Schedule_time (schedule w))),
   Ok tt).
Proof.
  intros Ho uid breed. unfold Schedule_add.
  erewrite (bind_ok (get_obj _)) by (by apply get_obj_ok).
  py_simpl. erewrite bind_ok by apply breed_partition_eq.
  py_simpl. unfold partition_of, defaultdict_get. fold uid breed.
  by destruct (dict_get breed (agents_by_breed (schedule w))).
Qed.

Lemma partition_of_add w agent o breed :
  heap w !! agent = Some o ->
  partition_of breed (Schedule_add agent w).1 =
  if decide (breed = type_of o)
  then dict_set (unique_id_of w o) agent (partition_of breed w)
  else partition_of breed w.
Proof.
  intros Ho. rewrite (Schedule_add_run w agent o Ho).
  unfold partition_of at 1. cbn [fst schedule set_schedule agents_by_breed].
  case_decide as E.
  - subst breed. by rewrite dict_get_set_eq.
  - rewrite dict_get_set_ne by done. unfold partition_of, defaultdict_get.
    destruct (dict_get (type_of o) (agents_by_breed (schedule w))) eqn:Ho';
      simpl; [done|].
    rewrite dict_get_app. simpl. rewrite decide_False by done.
    by destruct (dict_get breed (agents_by_breed (schedule w))).
Qed.

(** The scheduler after a [remove(agent)] that finds the id in both
    registries, field by field. *)
Lemma Schedule_remove_run w agent o registered partition' :
  heap w !! agent = Some o ->
  let uid := unique_id_of w o in
  let breed := type_of o in
  Schedule_agents (schedule w) !! uid = Some registered ->
  dict_del uid (partition_of breed w) = Some partition' ->
  Schedule_remove agent w =
  (set_schedule w
     (mkSchedule (delete uid (Schedule_agents (schedule w)))
        (dict_set breed partition'
           (defaultdict_get [] breed (agents_by_breed (schedule w))).2)
        (Schedule_steps (schedule w)) (Schedule_time (schedule w))),
   Ok tt).
Proof.
  intros Ho uid breed Hreg Hdel. unfold Schedule_remove.
  erewrite (bind_ok (get_obj _)) by (by apply get_obj_ok).
  py_simpl. fold uid breed. rewrite Hreg. py_simpl.
  erewrite bind_ok by apply breed_partition_eq.
  py_simpl. unfold partition_of, defaultdict_get in *.
  destruct (dict_get breed (agents_by_breed (schedule w))); simpl in *.
  - by rewrite Hdel.
  - done.
Qed.

Lemma partition_of_set w s breed p b :
  agents_by_breed s
  = dict_set breed p (defaultdict_get [] breed (agents_by_breed (schedule w))).2 ->
  partition_of b (set_schedule w s)
  = if decide (b = breed) then p else partition_of b w.
Proof.
  intros Hs. unfold partition_of at 1.
  cbn [schedule set_schedule]. rewrite Hs. case_decide as E.
  - subst b. by rewrite dict_get_set_eq.
  - rewrite dict_get_set_ne by done. unfold partition_of, defaultdict_get.
    destruct (dict_get breed (agents_by_breed (schedule w))) eqn:Ho';
      simpl; [done|].
    rewrite dict_get_app. simpl. rewrite decide_False by done.
    by destruct (dict_get b (agents_by_breed (schedule w))).
Qed.

(** X1.  [remove(agent)] looks the agent up by its [unique_id] and is not
    atomic.  With the id missing from the flat registry it raises
    [KeyError] and changes nothing.  With the id in the flat registry but
    not in the partition of the agent's class it raises [KeyError] after
    the flat entry has been deleted.  With the id in both it returns, and
    neither registry holds the id afterwards. *)
Theorem Schedule_remove_outcomes w agent o :
  heap w !! agent = Some o ->
  let uid := unique_id_of w o in
  let w' := (Schedule_remove agent w).1 in
  (Schedule_agents (schedule w) !! uid = None ->
   Schedule_remove agent w = (w, Raise KeyError)) /\
  (is_Some (Schedule_agents (schedule w) !! uid) ->
   dict_get uid (partition_of (type_of o) w) = None ->
   (Schedule_remove agent w).2 = Raise KeyError /\
   Schedule_agents (schedule w')
   = delete uid (Schedule_agents (schedule w))) /\
  (is_Some (Schedule_agents (schedule w) !! uid) ->
   is_Some (dict_get uid (partition_of (type_of o) w)) ->
   (Schedule_remove agent w).2 = Ok tt /\
   Schedule_agents (schedule w') !! uid = None /\
   dict_get uid (partition_of (type_of o) w') = None).
Proof.
  intros Ho uid w'. subst w'. split; [|split].
  - intros Hreg. unfold Schedule_remove.
    erewrite (bind_ok (get_obj _)) by (by apply get_obj_ok).
    py_simpl. fold uid. by rewrite Hreg.
  - intros [registered Hreg] Hpart. unfold Schedule_remove.
    erewrite (bind_ok (get_obj _)) by (by apply get_obj_ok).
    py_simpl. fold uid. rewrite Hreg. py_simpl.
    erewrite bind_ok by apply breed_partition_eq.
    py_simpl. unfold partition_of, defaultdict_get, dict_del in *.
    destruct (dict_get (type_of o) (agents_by_breed (schedule w)));
      simpl in *; rewrite ?Hpart; by py_simpl.
  - intros [registered Hreg] Hpart.
    destruct (dict_del_is_Some uid (partition_of (type_of o) w) Hpart)
      as [partition' Hdel].
    rewrite (Schedule_remove_run w agent o registered partition' Ho Hreg Hdel).
    cbn [fst snd]. split; [done|]. split; [apply lookup_delete_eq|].
    erewrite partition_of_set by done. rewrite decide_True by done.
    by eapply dict_del_get.
Qed.

(** X2.  Registering an agent whose id is in neither registry and removing
    it again returns and gives back the registries: the flat registry is
    the one before, and so is the partition of every class; the counters
    [steps] and [time] and the rest of the model are untouched. *)
Theorem Schedule_add_then_remove w agent o :
  heap w !! agent = Some o ->
  Schedule_agents (schedule w) !! unique_id_of w o = None ->
  dict_get (unique_id_of w o) (partition_of (type_of o) w) = None ->
  exists w',
    (Schedule_add agent >>> Schedule_remove agent) w = (w', Ok tt) /\
    w' = set_schedule w (schedule w') /\
    Schedule_agents (schedule w') = Schedule_agents (schedule w) /\
    (forall breed, partition_of breed w' = partition_of breed w) /\
    Schedule_steps (schedule w') = Schedule_steps (schedule w) /\
    Schedule_time (schedule w') = Schedule_time (schedule w).
Proof.
  intros Ho Hflat Hpart.
  erewrite bind_ok by (by apply Schedule_add_run).
  set (w1 := set_schedule w _).
  assert (Hp1 : partition_of (type_of o) w1
                = dict_set (unique_id_of w o) agent
                    (partition_of (type_of o) w)).
  { unfold w1. erewrite partition_of_set by done. by rewrite decide_True. }
  erewrite (Schedule_remove_run w1 agent o agent (partition_of (type_of o) w)).
  - eexists. split; [done|]. cbn [schedule set_schedule Schedule_agents
      Schedule_steps Schedule_time].
    split; [done|]. split; [by apply delete_insert_id|]. split; [|done].
    intros breed. erewrite partition_of_set.
    2:{ cbn [agents_by_breed]. reflexivity. }
    case_decide as E; [by subst|].
    unfold w1. erewrite partition_of_set by done. by rewrite decide_False.
  - done.
  - apply lookup_insert_eq.
  - change (unique_id_of w1 o) with (unique_id_of w o). rewrite Hp1.
    by apply dict_del_set_fresh.
Qed.

Lemma defaultdict_get_partition breed w :
  (defaultdict_get [] breed (agents_by_breed (schedule w))).1
  = partition_of breed w.
Proof.
  unfold partition_of, defaultdict_get.
  by destruct (dict_get breed (agents_by_breed (schedule w))).
Qed.

Lemma partition_of_remove w agent o registered partition' breed :
  heap w !! agent = Some o ->
  Schedule_agents (schedule w) !! unique_id_of w o = Some registered ->
  dict_del (unique_id_of w o) (partition_of (type_of o) w) = Some partition' ->
  partition_of breed (Schedule_remove agent w).1 =
  if decide (breed = type_of o) then partition' else partition_of breed w.
Proof.
  intros Ho Hreg Hdel.
  rewrite (Schedule_remove_run w agent o registered partition' Ho Hreg Hdel).
  cbn [fst]. by erewrite partition_of_set.
Qed.

(** X3.  The agreement of the two registries is an invariant of
    registration.  It is kept by [add(agent)] when the agent's id is not
    yet registered, and by [remove(agent)] when the flat registry holds
    the agent under its id; such a [remove] always returns. *)
Theorem schedule_wf_add_remove w agent o :
  schedule_wf w ->
  heap w !! agent = Some o ->
  (Schedule_agents (schedule w) !! unique_id_of w o = None ->
   schedule_wf (Schedule_add agent w).1) /\
  (Schedule_agents (schedule w) !! unique_id_of w o = Some agent ->
   (Schedule_remove agent w).2 = Ok tt /\
   schedule_wf (Schedule_remove agent w).1).
Proof.
  intros [Hflat Hclass] Ho. split.
  - intros Hfresh.
    pose proof (fun b => partition_of_add w agent o b Ho) as Hp.
    rewrite (Schedule_add_run w agent o Ho) in *. cbn [fst] in *. split.
    + intros uid a. cbn [schedule set_schedule Schedule_agents].
      destruct (decide (uid = unique_id_of w o)) as [->|Hne].
      * rewrite lookup_insert_eq. split.
        -- intros [= <-]. exists (type_of o). rewrite Hp.
           rewrite decide_True by done. apply dict_get_set_eq.
        -- intros [b Hb]. rewrite Hp in Hb. case_decide as E.
           ++ rewrite dict_get_set_eq in Hb. by injection Hb as <-.
           ++ assert (Schedule_agents (schedule w) !! unique_id_of w o
                      = Some a) as Hreg by (apply Hflat; by exists b).
              by rewrite Hfresh in Hreg.
      * rewrite lookup_insert_ne by done. rewrite Hflat.
        split; intros [b Hb]; exists b; rewrite Hp in *;
          case_decide; try done; by rewrite dict_get_set_ne in *.
    + intros b uid a Hb. rewrite Hp in Hb.
      cbn [heap set_schedule].
      change (unique_id_of (set_schedule w _)) with (unique_id_of w).
      case_decide as E; [|by apply Hclass].
      destruct (decide (uid = unique_id_of w o)) as [->|Hne].
      * rewrite dict_get_set_eq in Hb. injection Hb as <-. by exists o.
      * rewrite dict_get_set_ne in Hb by done. by apply Hclass.
  - intros Hreg.
    assert (Hin : dict_get (unique_id_of w o) (partition_of (type_of o) w)
                  = Some agent).
    { apply Hflat in Hreg as [b Hb].
      destruct (Hclass _ _ _ Hb) as (o' & Ho' & <- & _).
      by simplify_eq. }
    destruct (dict_del_is_Some (unique_id_of w o) (partition_of (type_of o) w))
      as [partition' Hdel]; [by rewrite Hin|].
    pose proof (fun b => partition_of_remove w agent o agent partition' b
                           Ho Hreg Hdel) as Hp.
    rewrite (Schedule_remove_run w agent o agent partition' Ho Hreg Hdel) in *.
    cbn [fst snd] in *. split; [done|]. split.
    + intros uid a. cbn [schedule set_schedule Schedule_agents].
      destruct (decide (uid = unique_id_of w o)) as [->|Hne].
      * rewrite lookup_delete_eq. split; [done|].
        intros [b Hb]. rewrite Hp in Hb. case_decide as E.
        -- by rewrite (dict_del_get _ _ _ Hdel) in Hb.
        -- assert (Schedule_agents (schedule w) !! unique_id_of w o = Some a)
             as Hreg' by (apply Hflat; by exists b).
           destruct (Hclass _ _ _ Hb) as (o' & Ho' & <- & _).
           by simplify_eq.
      * rewrite lookup_delete_ne by done. rewrite Hflat.
        assert (Hlook : forall b,
                  dict_get uid (if decide (b = type_of o) then partition'
                                else partition_of b w)
                  = dict_get uid (partition_of b w)).
        { intros b. case_decide as E; [|done]. subst b.
          by apply (dict_del_get_ne _ _ _ _ Hdel). }
        split; intros [b Hb]; exists b; by rewrite Hp, Hlook in *.
    + intros b uid a Hb. rewrite Hp in Hb.
      cbn [heap set_schedule].
      change (unique_id_of (set_schedule w _)) with (unique_id_of w).
      case_decide as E; [|by apply Hclass]. subst b.
      destruct (decide (uid = unique_id_of w o)) as [->|Hne].
      * by rewrite (dict_del_get _ _ _ Hdel) in Hb.
      * rewrite (dict_del_get_ne _ _ _ _ Hdel) in Hb by done.
        by apply Hclass.
Qed.

(** X4.  [get_breed_count] is the size of the class's partition, 0 for a
    class that was never registered (no [KeyError]).  After [add(agent)]
    it is one more for the agent's class when the agent's id was not in
    that partition, and the same otherwise: when the id is re-registered,
    and for every other class.  [get_breed_agents] then lists the agent. *)
Theorem get_breed_count_after_add w agent o breed :
  heap w !! agent = Some o ->
  let count w := (Schedule_get_breed_count breed w).2 in
  let size := Z.of_nat (length (partition_of breed w)) in
  count w = Ok size /\
  (dict_get breed (agents_by_breed (schedule w)) = None -> size = 0%Z) /\
  count (Schedule_add agent w).1 =
    Ok (if decide (breed = type_of o) then
          match dict_get (unique_id_of w o) (partition_of breed w) with
          | Some _ => size
          | None => size + 1
          end
        else size)%Z /\
  exists agents,
    (Schedule_get_breed_agents (type_of o) (Schedule_add agent w).1).2
      = Ok agents /\
    agent ∈ agents.
Proof.
  intros Ho count size.
  assert (Hcount : forall w0,
            count w0 = Ok (Z.of_nat (length (partition_of breed w0)))).
  { intros w0. unfold count, Schedule_get_breed_count.
    erewrite bind_ok by apply breed_partition_eq.
    unfold partition_of, defaultdict_get.
    by destruct (dict_get breed (agents_by_breed (schedule w0))). }
  split; [apply Hcount|]. split.
  { intros Hnone. unfold size, partition_of. by rewrite Hnone. }
  split.
  - rewrite Hcount, (partition_of_add w agent o breed Ho). f_equal.
    case_decide as E; [|done]. rewrite dict_set_length. unfold size.
    destruct (dict_get _ _); [done | lia].
  - unfold Schedule_get_breed_agents.
    erewrite bind_ok by apply breed_partition_eq.
    eexists. split; [done|].
    cbn [snd]. rewrite defaultdict_get_partition.
    rewrite (partition_of_add w agent o _ Ho), decide_True by done.
    apply list_elem_of_fmap. exists (unique_id_of w o, agent).
    split; [done|]. apply dict_get_elem_of, dict_get_set_eq.
Qed.

(** ** Rents and prices of a parcel *)


(** One [Land.step] for a parcel of the heap: a record is appended and
    nothing else is written. *)
Lemma Land_step_run w a l :
  heap w !! a = Some (OLand l) ->
  Land_step a w =
  (set_step_price_data w
     (step_price_data w ++
        [mkPriceData (Land_unique_id l)
           (fdiv (Fin (Land_warranted_rent l w)) (Fin (r_prime (params w))))
           (time_step (params w)) (Land_transport_cost l)
           (Firm_wage (firm w))]),
   Ok tt).
Proof.
  intros Ha. unfold Land_step.
  erewrite (bind_ok (get_land _)) by (by apply get_land_ok).
  by py_simpl.
Qed.

Lemma Land_sweep_loop w (partition : list (Z * addr)) keys :
  (forall uid a, (uid, a) ∈ partition ->
                 exists l, heap w !! a = Some (OLand l)) ->
  keys ⊆ dict_keys partition ->
  forall w1,
    heap w1 = heap w -> firm w1 = firm w -> params w1 = params w ->
    dict_get CLand (agents_by_breed (schedule w1)) = Some partition ->
    exists w2 records,
      for_each keys
        (fun agent_key =>
           let! partition := breed_partition CLand in
           let! agent := or_raise KeyError (dict_get agent_key partition) in
           call_method m_step agent) w1 = (w2, Ok tt) /\
      heap w2 = heap w /\ firm w2 = firm w /\ params w2 = params w /\
      dict_get CLand (agents_by_breed (schedule w2)) = Some partition /\
      realtor w2 = realtor w1 /\ workforce w2 = workforce w1 /\
      random w2 = random w1 /\
      step_price_data w2 = step_price_data w1 ++ records /\
      Forall2 (fun key r =>
                 exists a l, dict_get key partition = Some a /\
                             heap w !! a = Some (OLand l) /\
                             land_record w l r) keys records.
Proof.
  intros Hlands. induction keys as [|key keys IH]; intros Hsub w1 Hh Hf Hp Hd.
  - exists w1, []. simpl. rewrite app_nil_r. by repeat split.
  - assert (Hkey : key ∈ dict_keys partition) by (apply Hsub; by left).
    destruct (dict_get key partition) as [a|] eqn:Hget.
    2:{ by apply dict_get_None in Hget. }
    destruct (Hlands key a) as [l Hl]; [by apply dict_get_elem_of|].
    set (w1' := set_schedule w1
                  (set_agents_by_breed (schedule w1)
                     (agents_by_breed (schedule w1)))).
    set (rec := mkPriceData (Land_unique_id l)
                  (fdiv (Fin (Land_warranted_rent l w))
                     (Fin (r_prime (params w))))
                  (time_step (params w)) (Land_transport_cost l)
                  (Firm_wage (firm w))).
    set (w1'' := set_step_price_data w1' (step_price_data w1 ++ [rec])).
    destruct (IH (fun x Hx => Hsub x (list_elem_of_further _ _ _ Hx)) w1'')
      as (w2 & records & Hloop & Hh2 & Hf2 & Hp2 & Hd2 & Hr2 & Hw2 & Hrnd2
          & Hdata & Hrecs); try done.
    exists w2, (rec :: records). cbn [for_each].
    erewrite (bind_ok (bind _ _)).
    2:{ erewrite bind_ok by apply breed_partition_eq.
        unfold defaultdict_get. rewrite Hd. cbn [fst snd]. fold w1'.
        rewrite Hget. py_simpl. unfold call_method.
        erewrite (bind_ok (get_obj _))
          by (apply get_obj_ok; cbn [heap w1' set_schedule]; by rewrite Hh).
        cbn match. rewrite (Land_step_run w1' a l).
        - unfold Land_warranted_rent.
          change (firm w1') with (firm w1). change (params w1') with (params w1).
          change (step_price_data w1') with (step_price_data w1).
          rewrite Hf, Hp. reflexivity.
        - change (heap w1') with (heap w1). by rewrite Hh. }
    split; [exact Hloop|]. repeat (split; [done|]).
    split.
    { rewrite Hdata. unfold w1''.
      cbn [step_price_data set_step_price_data]. by rewrite <- app_assoc. }
    constructor; [|done]. exists a, l. by repeat split.
Qed.

(** The shuffle permutes its argument. *)
Lemma shuffle_Permutation keys rng : (shuffle keys rng).1 ≡ₚ keys.
Proof. apply random_shuffle_Permutation. Qed.

(** X6.  One sweep of [step_breed] over the parcels appends exactly one
    price record per registered parcel to [model.step_price_data], in the
    order of activation, after the records already there; each record
    holds the parcel's id, warranted price and transport cost and the
    wage and time step of the model.  The sweep returns, whatever the
    order chosen by the shuffle, and leaves the objects, the firm, the
    realtor and the workforce as they were. *)
Theorem Land_sweep_records w (partition : list (Z * addr)) :
  dict_get CLand (agents_by_breed (schedule w)) = Some partition ->
  (forall uid a, (uid, a) ∈ partition ->
                 exists l, heap w !! a = Some (OLand l)) ->
  exists w' records,
    Schedule_step_breed CLand m_step w = (w', Ok tt) /\
    step_price_data w' = step_price_data w ++ records /\
    length records = length partition /\
    Forall2 (fun key r =>
               exists a l, dict_get key partition = Some a /\
                           heap w !! a = Some (OLand l) /\
                           land_record w l r)
      (shuffle (dict_keys partition) (random w)).1 records /\
    heap w' = heap w /\ firm w' = firm w /\ realtor w' = realtor w /\
    workforce w' = workforce w.
Proof.
  intros Hd Hlands. unfold Schedule_step_breed.
  pose proof (shuffle_Permutation (dict_keys partition) (random w)) as Hperm.
  erewrite bind_ok by apply shuffled_keys_unfold.
  cbn zeta. unfold defaultdict_get. rewrite Hd. cbn [default fst snd].
  set (keys := (shuffle (dict_keys partition) (random w)).1) in *.
  set (w1 := set_random _ _).
  destruct (Land_sweep_loop w partition keys Hlands) with (w1 := w1)
    as (w2 & records & Hloop & Hh2 & Hf2 & Hp2 & Hd2 & Hr2 & Hw2 & Hrnd2
        & Hdata & Hrecs); try done.
  { intros x Hx. by rewrite <- Hperm. }
  exists w2, records. split; [exact Hloop|]. split; [exact Hdata|].
  split.
  { rewrite <- (Forall2_length _ _ _ Hrecs), Hperm.
    unfold dict_keys. by rewrite length_fmap. }
  by repeat split.
Qed.

(** ** Activation order *)




(** ** The step of a person *)

(** The first statements of [step()]: the two counters, then the reads of
    the person and of the workforce. *)
Ltac person_step_start :=
  unfold Person_step;
  erewrite (bind_ok (update_person _ _)) by (by apply update_person_ok);
  erewrite (bind_ok (update_person _ _))
    by (apply update_person_ok; apply lookup_insert_eq);
  erewrite (bind_ok (get_person _))
    by (apply get_person_ok; apply lookup_insert_eq);
  py_simpl;
  cbn [Person_unique_id Person_residence Person_working_period
       Person_properties_owned Person_count set_Person_working_period
       set_Person_count].

Lemma set_heap_twice (w : Model) h1 h2 :
  set_heap (set_heap w h1) h2 = set_heap w h2.
Proof. reflexivity. Qed.

(** [step()] of a person of the retiring set who is not a newcomer. *)
Lemma Person_step_idle_run w self p :
  heap w !! self = Some (OPerson p) ->
  Person_unique_id p ∉ newcomers (workforce w) ->
  Person_unique_id p ∈ retiring (workforce w) ->
  Person_step self w =
  (set_heap w (<[self := OPerson (Person_ticked p)]> (heap w)), Ok tt).
Proof.
  intros Hself Hnew Hret. person_step_start.
  rewrite bool_decide_eq_false_2 by done.
  destruct (Person_residence p);
    [rewrite bool_decide_eq_false_2 by (by intros [])|];
    unfold ret; by rewrite set_heap_twice, insert_insert_eq.
Qed.

(** X9.  For a newcomer who has a residence, for a person already
    retiring, and for a person outside the newcomers set without a
    residence, [step()] only increments [count] and [working_period]: it
    returns, pays no savings, and leaves the workforce, the listings and
    the scheduler alone. *)
Theorem Person_step_idle w self p :
  heap w !! self = Some (OPerson p) ->
  ((Person_unique_id p ∈ newcomers (workforce w)) /\
   Person_residence p <> None) \/
  ((Person_unique_id p ∉ newcomers (workforce w)) /\
   (Person_residence p = None \/
    (Person_unique_id p ∈ retiring (workforce w)))) ->
  Person_step self w =
  (set_heap w (<[self := OPerson (Person_ticked p)]> (heap w)), Ok tt).
Proof.
  intros Hself Hidle. person_step_start.
  assert (Hdone : forall w0 : Model,
    ret tt (set_heap (set_heap w0 (<[self := OPerson
              (set_Person_count p (Person_count p + 1))]> (heap w0)))
       (<[self := OPerson (Person_ticked p)]>
          (<[self := OPerson (set_Person_count p (Person_count p + 1))]>
             (heap w0))))
    = (set_heap w0 (<[self := OPerson (Person_ticked p)]> (heap w0)), Ok tt)).
  { intros w0. unfold ret. by rewrite set_heap_twice, insert_insert_eq. }
  destruct Hidle as [[Hnew Hres]|[Hnew Hidle]].
  - rewrite bool_decide_eq_true_2 by done.
    destruct (Person_residence p); [apply Hdone | done].
  - rewrite bool_decide_eq_false_2 by done.
    destruct (Person_residence p); [|apply Hdone].
    destruct Hidle as [|Hret]; [done|].
    rewrite bool_decide_eq_false_2; [apply Hdone|]. by intros [].
Qed.

(** The last two statements of the working branch of [step()]. *)
Lemma Person_pay_run (w0 : Model) self p sps (h : gmap addr obj) :
  heap w0 = <[self := OPerson (Person_ticked p)]> h ->
  (update_person self (fun p =>
     set_Person_savings p (Person_savings p + sps)%Q) >>>
   update_person self (fun p =>
     set_Person_wealth p (Some (Person_get_wealth p)))) w0
  = (set_heap w0 (<[self := OPerson (Person_paid p sps)]> h), Ok tt).
Proof.
  intros Hw0.
  erewrite (bind_ok (update_person _ _))
    by (apply update_person_ok; rewrite Hw0; apply lookup_insert_eq).
  erewrite update_person_ok by apply lookup_insert_eq.
  cbn [heap set_heap]. rewrite Hw0, set_heap_twice.
  by rewrite !insert_insert_eq.
Qed.

(** X10.  A person with a residence who is neither a newcomer nor retiring
    and has not passed the retirement age decides whether to work: after
    [step()] the person is in the workers set exactly when the firm's wage
    premium exceeds the transport cost of the residence.  The step returns,
    adds [savings_per_step] to the savings, sets [wealth] to the new
    savings, and changes nothing but the person and the workers set. *)
Theorem Person_step_work_decision w self p residence land :
  heap w !! self = Some (OPerson p) ->
  Person_residence p = Some residence ->
  heap w !! residence = Some (OLand land) ->
  Person_unique_id p ∉ newcomers (workforce w) ->
  Person_unique_id p ∉ retiring (workforce w) ->
  (Person_working_period p + 1 <= working_periods (params w))%Z ->
  let uid := Person_unique_id p in
  let worthwhile :=
    Qltb (Land_transport_cost land) (Firm_wage_premium (firm w)) in
  let wf' :=
    if worthwhile then Workforce_add uid WWorkers (workforce w)
    else Workforce_remove uid WWorkers (workforce w) in
  Person_step self w =
  (set_workforce
     (set_heap w
        (<[self := OPerson (Person_paid p (savings_per_step (params w)))]>
           (heap w))) wf',
   Ok tt) /\
  (uid ∈ workers wf' <->
   (Land_transport_cost land < Firm_wage_premium (firm w))%Q).
Proof.
  intros Hself Hres Hland Hnew Hret Hage uid worthwhile wf'.
  assert (Hne : self <> residence) by (intros ->; congruence).
  split.
  - person_step_start. fold uid.
    rewrite bool_decide_eq_false_2 by done. rewrite Hres.
    rewrite bool_decide_eq_true_2 by done.
    unfold bind at 1 2. py_simpl.
    rewrite (proj2 (Z.ltb_ge _ _)) by lia.
    erewrite (bind_ok (get_land _))
      by (apply get_land_ok; cbn [heap set_heap];
          by rewrite !lookup_insert_ne).
    fold worthwhile.
    unfold wf'.
    destruct worthwhile; py_simpl;
      rewrite (Person_pay_run _ self p _
                 (<[self := OPerson (set_Person_count p (Person_count p + 1))]>
                    (heap w))) by reflexivity;
      by rewrite !insert_insert_eq.
  - unfold wf'. destruct worthwhile eqn:E; unfold worthwhile in E.
    + apply Qltb_lt in E. split; [done|]. intros _.
      unfold Workforce_add. simpl. set_solver.
    + apply Qltb_ge in E. split; [|intros H; by destruct (Qlt_not_le _ _ H)].
      unfold Workforce_remove. simpl.
      intros [_ Hn]%elem_of_difference. destruct Hn.
      by apply elem_of_singleton.
Qed.

Lemma set_sale_listing_same (w : Model) :
  set_realtor w
    (set_Realtor_sale_listing (realtor w) (Realtor_sale_listing (realtor w)))
  = w.
Proof. destruct w as [? ? [] ? ? ? ? ? ? ?]. reflexivity. Qed.

(** X11.  A person with a residence who is neither a newcomer nor retiring
    and has passed the retirement age retires in [step()]: the person
    joins the retiring set, the residence is appended to the sale listing
    when the person owns it, and savings are still paid.  The person is
    not taken out of the workers set.  A second [step()] only counts, so
    the residence is listed once. *)
Theorem Person_step_retirement w self p residence :
  heap w !! self = Some (OPerson p) ->
  Person_residence p = Some residence ->
  Person_unique_id p ∉ newcomers (workforce w) ->
  Person_unique_id p ∉ retiring (workforce w) ->
  (working_periods (params w) < Person_working_period p + 1)%Z ->
  let uid := Person_unique_id p in
  let listing := Realtor_sale_listing (realtor w) in
  let listing' :=
    if bool_decide (residence ∈ Person_properties_owned p)
    then listing ++ [residence] else listing in
  let w' :=
    set_realtor
      (set_workforce
         (set_heap w
            (<[self := OPerson (Person_paid p (savings_per_step (params w)))]>
               (heap w)))
         (Workforce_add uid WRetiring (workforce w)))
      (set_Realtor_sale_listing (realtor w) listing') in
  Person_step self w = (w', Ok tt) /\
  (uid ∈ retiring (workforce w')) /\
  workers (workforce w') = workers (workforce w) /\
  (Person_step self w').2 = Ok tt /\
  realtor (Person_step self w').1 = realtor w' /\
  workforce (Person_step self w').1 = workforce w'.
Proof.
  intros Hself Hres Hnew Hret Hage uid listing listing' w'.
  assert (Hstep : Person_step self w = (w', Ok tt)).
  { person_step_start. fold uid.
    rewrite bool_decide_eq_false_2 by done. rewrite Hres.
    rewrite bool_decide_eq_true_2 by done.
    unfold bind at 1 2. py_simpl.
    rewrite (proj2 (Z.ltb_lt _ _)) by lia.
    unfold w', listing', listing.
    destruct (bool_decide (residence ∈ Person_properties_owned p)); py_simpl;
      rewrite (Person_pay_run _ self p _
                 (<[self := OPerson (set_Person_count p (Person_count p + 1))]>
                    (heap w))) by reflexivity;
      rewrite !insert_insert_eq; [done|].
    by rewrite <- (set_sale_listing_same w) at 1. }
  assert (Hin : uid ∈ retiring (workforce w')).
  { unfold w', Workforce_add. simpl. set_solver. }
  split; [done|]. split; [done|]. split; [done|].
  rewrite (Person_step_idle_run w' self
             (Person_paid p (savings_per_step (params w)))).
  - done.
  - apply lookup_insert_eq.
  - done.
  - done.
Qed.

(** ** Bids of a person *)

(** X12.  [bid()] evaluates the mortgage limit before it looks at the
    sale listing.  With [r_prime] zero it raises [ZeroDivisionError] and
    changes nothing, also when nothing is for sale; with [r_prime] not
    zero and an empty listing it returns and changes nothing. *)
Theorem Person_bid_nothing_for_sale w self p :
  heap w !! self = Some (OPerson p) ->
  ((r_prime (params w) == 0)%Q ->
   Person_bid self w = (w, Raise ZeroDivisionError)) /\
  (~ (r_prime (params w) == 0)%Q ->
   Realtor_sale_listing (realtor w) = [] ->
   Person_bid self w = (w, Ok tt)).
Proof.
  intros Hself. split.
  - intros Hzero. unfold Person_bid.
    erewrite (bind_ok (get_person _)) by (by apply get_person_ok).
    py_simpl. unfold Person_get_max_mortgage. by rewrite pydiv_zero.
  - intros Hnz Hlisting. unfold Person_bid.
    erewrite (bind_ok (get_person _)) by (by apply get_person_ok).
    py_simpl. unfold Person_get_max_mortgage. rewrite pydiv_ok by done.
    py_simpl. by rewrite Hlisting.
Qed.

(** X13.  For a property whose maximum bid evaluates, the price offered
    is [min(m * P_max_bid + S, P_max_bid)] when the maximum bid is below 1
    and [min(M + S, P_max_bid)] otherwise: the test [m * P_max_bid < m]
    compares the maximum bid with 1, not the share-financed amount with
    the mortgage limit [M].  The price is never above the bank's maximum
    bid, and when that is not a NaN, for a bidder with non-negative
    savings and [M + S] positive a bid is submitted exactly when the
    maximum bid is positive. *)
Theorem Person_bid_on_price w self p S r m M r_tgt property land P_max_bid :
  heap w !! self = Some (OPerson p) ->
  heap w !! property = Some (OLand land) ->
  Bank_get_max_bid (np_float64 (Land_net_rent land w)) r r_tgt m
    (Land_transport_cost land) w = Ok P_max_bid ->
  (0 < m)%Q ->
  let price :=
    fmin (fadd (if flt P_max_bid (Fin 1) then fmul (Fin m) P_max_bid
                else Fin M) (Fin S)) P_max_bid in
  Person_bid_on self S r m M r_tgt property w =
  (if flt (Fin 0) price then
     set_realtor w
       (set_Realtor_bids (realtor w)
          (book_append (mkBid self property price (Fin 0))
             (Realtor_bids (realtor w))))
   else w, Ok tt) /\
  flt P_max_bid price = false /\
  (is_nan P_max_bid = false ->
   fle price P_max_bid = true /\
   ((0 <= S)%Q -> (0 < M + S)%Q ->
    flt (Fin 0) price = true <-> flt (Fin 0) P_max_bid = true)).
Proof.
  intros Hself Hprop HP Hm price.
  split; [|split].
  - rewrite (Person_bid_on_computed w self p S r m M r_tgt property land
               P_max_bid) by done.
    by rewrite fmul_branch.
  - apply fmin_le_r.
  - intros Hnan. split.
    + apply price_below_bid; [|done]. by apply price_mortgage_number.
    + intros HS HMS. unfold price. by rewrite price_positive_iff.
Qed.

(** ** Construction of a person *)

(** X14.  [Person(...)] with an owned residence creates a new object that
    owns and inhabits the parcel: its list is [[residence]], and the
    parcel's [owner] and [resident] are the new person.  Nothing else is
    written: the new person is not registered with the scheduler or the
    workforce, and every other object is as before.  In particular a
    former owner keeps the parcel in its [properties_owned]. *)
Theorem Person_init_owned w unique_id init_working_period savings residence
    land :
  heap w !! residence = Some (OLand land) ->
  let self := fresh (dom (heap w)) in
  exists w',
    Person_init unique_id init_working_period savings (Some residence) w
    = (w', Ok self) /\
    heap w !! self = None /\
    w' = set_heap w (heap w') /\
    heap w' !! self
    = Some (OPerson (mkPerson unique_id init_working_period
                       init_working_period savings [residence]
                       (Some residence) 0 None)) /\
    heap w' !! residence
    = Some (OLand (set_Land_resident (set_Land_owner land (Some self))
                     (Some self))) /\
    (forall a, a <> self -> a <> residence -> heap w' !! a = heap w !! a) /\
    owner_of w' residence = Some self /\
    (forall a, a <> self -> owned_by w' a = owned_by w a).
Proof.
  intros Hland self.
  assert (Hfresh : heap w !! self = None).
  { apply not_elem_of_dom. apply is_fresh. }
  assert (Hne : residence <> self) by (intros ->; congruence).
  unfold Person_init. py_simpl. fold self.
  erewrite (bind_ok (bind _ _)).
  2:{ erewrite (bind_ok (update_person _ _))
        by (apply update_person_ok; apply lookup_insert_eq).
      erewrite (bind_ok (update_land _ _))
        by (apply update_land_ok; cbn [heap set_heap];
            rewrite !lookup_insert_ne by done; exact Hland).
      erewrite update_land_ok
        by (cbn [heap set_heap]; apply lookup_insert_eq).
      reflexivity. }
  erewrite (bind_ok (update_person _ _)).
  2:{ apply update_person_ok. cbn [heap set_heap].
      rewrite !lookup_insert_ne by done. apply lookup_insert_eq. }
  unfold ret. eexists. split; [reflexivity|]. split; [done|].
  split; [reflexivity|]. cbn [heap set_heap]. split.
  { rewrite lookup_insert_eq. reflexivity. }
  split.
  { rewrite lookup_insert_ne by done. by rewrite lookup_insert_eq. }
  split.
  { intros a Ha Ha'. by rewrite !lookup_insert_ne by done. }
  split.
  { unfold owner_of. cbn [heap set_heap].
    rewrite lookup_insert_ne by done. by rewrite lookup_insert_eq. }
  intros a Ha. unfold owned_by. cbn [heap set_heap].
  rewrite lookup_insert_ne by done.
  destruct (decide (a = residence)) as [->|Ha'].
  - rewrite lookup_insert_eq, Hland. reflexivity.
  - by rewrite !lookup_insert_ne by done.
Qed.

(** ** The firm's step: failure *)

(** X15.  The fallback [N = 1] of [get_N] does not guard the division by
    the number of firms: with [F] zero, [step()] raises
    [ZeroDivisionError] at [n = N / F], after [N] and
    [agglomeration_population] have been overwritten and before anything
    else is. *)
Theorem Firm_step_without_firms w :
  (Firm_F (firm w) == 0)%Q ->
  let N := Firm_get_N w in
  Firm_step w =
  (set_firm w
     (set_Firm_agglomeration_population (set_Firm_N (firm w) N)
        (Firm_mult (firm w) * N + Firm_seed_population (firm w))),
   Raise ZeroDivisionError).
Proof.
  intros HF N. unfold Firm_step, bind at 1, read.
  erewrite bind_assign_firm by reflexivity. firm_simpl.
  erewrite bind_assign_firm by reflexivity. firm_simpl.
  unfold bind, assign_firm. firm_simpl. by rewrite pydiv_zero.
Qed.

(** ** Construction of an allocation *)

(** X17.  [Allocation(property, successful_bidder, highest_bid,
    second_highest_bid, final_price)] fails, with [ValueError], exactly
    when the property is not a [Land], or the bidder is neither [None] nor
    a [Person], or one of the three amounts is not a number.  Nothing else
    is checked: the amounts may be negative and in any order, and the
    fields of the allocation are the arguments. *)
Theorem Allocation_construction_checks w property successful_bidder
    highest_bid second_highest_bid final_price :
  let result :=
    Allocation_init w property successful_bidder highest_bid
      second_highest_bid final_price in
  ((exists e, result = Raise e) <->
   (isinstance w property CLand = false \/
    (successful_bidder <> VNone /\
     isinstance w successful_bidder CPerson = false) \/
    as_number highest_bid = None \/ as_number second_highest_bid = None \/
    as_number final_price = None)) /\
  (forall e, result = Raise e -> e = ValueError) /\
  (forall a, result = Ok a ->
     property = VRef (Allocation_property a) /\
     match Allocation_successful_bidder a with
     | Some b => successful_bidder = VRef b
     | None => successful_bidder = VNone
     end /\
     as_number highest_bid = Some (Allocation_highest_bid a) /\
     as_number second_highest_bid = Some (Allocation_second_highest_bid a) /\
     as_number final_price = Some (Allocation_final_price a)).
Proof.
  intros result. subst result. rewrite !isinstance_false.
  unfold Allocation_init.
  pose proof (as_instance_ref w property CLand) as Rl.
  pose proof (as_instance_ref w successful_bidder CPerson) as Rb.
  destruct (as_instance w property CLand) as [l|] eqn:Hl.
  2:{ split; [|split; [by intros ? [= <-] | by intros ? [=]]]. split; [by left | by eexists]. }
  assert (Hbidder :
    (exists sb,
       match successful_bidder with
       | VNone => Ok None
       | _ => match as_instance w successful_bidder CPerson with
              | Some b => Ok (Some b)
              | None => Raise ValueError
              end
       end = Ok sb /\
       (successful_bidder = VNone \/
        is_Some (as_instance w successful_bidder CPerson)) /\
       match sb with
       | Some b => successful_bidder = VRef b
       | None => successful_bidder = VNone
       end) \/
    (match successful_bidder with
     | VNone => Ok None
     | _ => match as_instance w successful_bidder CPerson with
            | Some b => Ok (Some b)
            | None => Raise ValueError
            end
     end = @Raise (option addr) ValueError /\
     successful_bidder <> VNone /\
     as_instance w successful_bidder CPerson = None)).
  { destruct (as_instance w successful_bidder CPerson) as [b|] eqn:Hb.
    - left. exists (Some b). rewrite (Rb b eq_refl). simpl.
      split; [done|]. split; [right; by eexists | done].
    - destruct successful_bidder; try (right; by repeat split).
      left. exists None. split; [done|]. split; [by left | done]. }
  destruct Hbidder as [(sb & -> & Hsb & Hfield)|(-> & Hnone & Hb)].
  2:{ split; [|split; [by intros ? [= <-] | by intros ? [=]]]. split; [right; by left | by eexists]. }
  destruct (as_number highest_bid) as [h|] eqn:Hh.
  2:{ split; [|split; [by intros ? [= <-] | by intros ? [=]]]. split; [by right; right; left | by eexists]. }
  destruct (as_number second_highest_bid) as [s|] eqn:Hs.
  2:{ split; [|split; [by intros ? [= <-] | by intros ? [=]]]. split; [by right; right; right; left | by eexists]. }
  destruct (as_number final_price) as [f|] eqn:Hf.
  2:{ split; [|split; [by intros ? [= <-] | by intros ? [=]]]. split; [by repeat right | by eexists]. }
  split; [|split; [by intros ? [=]|]].
  - split; [by intros [? ?]|].
    intros [?|[[? Hb]|[?|[?|?]]]]; try done.
    destruct Hsb as [?|[? ?]]; congruence.
  - intros a [= <-]. simpl. split; [by rewrite (Rl l)|]. done.
Qed.

(** ** Settlement: failures and the ownership records *)

(** X18.  Settlement is not atomic.  For an allocation whose parcel has no
    owner, [complete_transactions] raises [AttributeError] at the seller's
    list, after the parcel has been appended to the buyer's
    [properties_owned]: the buyer lists a parcel whose [owner] is still
    [None], and the allocations that follow are not processed.  With no
    successful bidder it raises before anything is written. *)
Theorem sale_of_unowned_parcel w allocation rest land :
  let l := Allocation_property allocation in
  heap w !! l = Some (OLand land) ->
  (Allocation_successful_bidder allocation = None ->
   Realtor_complete_transactions (allocation :: rest) w
   = (w, Raise AttributeError)) /\
  (forall b ob lb,
     Allocation_successful_bidder allocation = Some b ->
     heap w !! b = Some ob ->
     properties_owned_of ob = Some lb ->
     Land_owner land = None ->
     let w' :=
       set_heap w (<[b := with_properties_owned ob (lb ++ [l])]> (heap w)) in
     Realtor_complete_transactions (allocation :: rest) w
     = (w', Raise AttributeError) /\
     (l ∈ owned_by w' b) /\ owner_of w' l = None).
Proof.
  intros l Hland. split.
  - intros Hbuyer. unfold Realtor_complete_transactions. cbn [for_each].
    erewrite bind_raise; [reflexivity|].
    unfold Realtor_complete_transaction.
    erewrite (bind_ok (get_land _)) by (by apply get_land_ok).
    by rewrite Hbuyer.
  - intros b ob lb Hbuyer Hob Hlb Hnone w'. split; [|split].
    + unfold Realtor_complete_transactions. cbn [for_each].
      erewrite bind_raise; [reflexivity|].
      unfold Realtor_complete_transaction.
      erewrite (bind_ok (get_land _)) by (by apply get_land_ok).
      fold l. rewrite Hbuyer, Hnone.
      erewrite bind_raise; [reflexivity|].
      unfold Realtor_transfer_property.
      erewrite (bind_ok (update_properties_owned _ _))
        by (by eapply update_properties_owned_ok).
      reflexivity.
    + unfold owned_by, w'. cbn [heap set_heap]. rewrite lookup_insert_eq.
      simpl. rewrite (properties_owned_of_with _ _ _ Hlb). simpl.
      apply elem_of_app. right. by left.
    + assert (b <> l) by (intros ->; rewrite Hland in Hob; by simplify_eq).
      unfold w'. rewrite owner_of_insert_ne by done.
      unfold owner_of. by rewrite Hland.
Qed.

Lemma title_ok_same l w0 w :
  same_title l w0 w -> title_ok l w0 -> title_ok l w.
Proof.
  intros [Htitle Howner] Hok a n. rewrite Htitle, Howner. apply Hok.
Qed.

(** A transfer that returns keeps the records of the parcel sold. *)
Lemma transfer_title_ok w l seller buyer land w1 :
  heap w !! l = Some (OLand land) ->
  Land_owner land = seller ->
  title_ok l w ->
  Realtor_transfer_property seller buyer l w = (w1, Ok tt) ->
  title_ok l w1.
Proof.
  intros Hland Howner Hok. unfold Realtor_transfer_property.
  assert (Howner_w : owner_of w l = seller).
  { unfold owner_of. by rewrite Hland. }
  destruct buyer as [b|]; [|done].
  destruct (heap w !! b) as [ob|] eqn:Hob.
  2:{ unfold bind at 1, update_properties_owned. by rewrite Hob. }
  destruct (properties_owned_of ob) as [lb|] eqn:Hlb.
  2:{ unfold bind at 1, update_properties_owned. rewrite Hob. simpl.
      by rewrite Hlb. }
  erewrite (bind_ok (update_properties_owned _ _))
    by (by eapply update_properties_owned_ok).
  set (w2 := set_heap w _).
  assert (Hbl : b <> l) by (intros ->; rewrite Hland in Hob; by simplify_eq).
  destruct seller as [s|]; [|done].
  destruct (heap w2 !! s) as [os|] eqn:Hos.
  2:{ unfold bind at 1, update_properties_owned. by rewrite Hos. }
  destruct (properties_owned_of os) as [ls|] eqn:Hls.
  2:{ unfold bind at 1, update_properties_owned. rewrite Hos. simpl.
      by rewrite Hls. }
  destruct (list_remove l ls) as [ls'|] eqn:Hrm.
  2:{ unfold bind at 1, update_properties_owned. rewrite Hos. simpl.
      by rewrite Hls, Hrm. }
  erewrite (bind_ok (update_properties_owned _ _)).
  2:{ eapply update_properties_owned_ok; [done | done |]. by rewrite Hrm. }
  set (w3 := set_heap w2 _).
  assert (Hsl : s <> l).
  { intros ->. unfold w2 in Hos. cbn [heap set_heap] in Hos.
    rewrite lookup_insert_ne in Hos by done. rewrite Hland in Hos.
    by simplify_eq. }
  erewrite update_land_ok.
  2:{ unfold w3, w2. cbn [heap set_heap].
      by rewrite !lookup_insert_ne. }
  intros [= <-]. intros a n.
  rewrite owner_of_insert_eq. cbn [Land_owner set_Land_owner].
  destruct (decide (l = a)) as [<-|Hla].
  { rewrite title_count_insert_eq. done. }
  rewrite title_count_insert_ne by done.
  pose proof (occurrences_remove_eq _ _ _ Hrm) as Hocc.
  destruct (decide (s = a)) as [<-|Hsa].
  - unfold w3. rewrite title_count_insert_eq.
    rewrite (properties_owned_of_with _ _ _ Hls). simpl. intros [= <-].
    destruct (decide (b = s)) as [->|Hbs].
    + rewrite decide_True by done.
      unfold w2 in Hos. cbn [heap set_heap] in Hos.
      rewrite lookup_insert_eq in Hos. injection Hos as <-.
      rewrite (properties_owned_of_with _ _ _ Hlb) in Hls.
      injection Hls as <-.
      rewrite occurrences_app, occurrences_cons, decide_True in Hocc by done.
      change (occurrences l []) with 0%nat in Hocc.
      specialize (Hok s (occurrences l lb)).
      unfold title_count in Hok. rewrite Hob in Hok. simpl in Hok.
      rewrite Hlb in Hok. specialize (Hok eq_refl).
      rewrite Howner_w, decide_True in Hok by done. lia.
    + rewrite decide_False by congruence.
      unfold w2 in Hos. cbn [heap set_heap] in Hos.
      rewrite lookup_insert_ne in Hos by done.
      specialize (Hok s (occurrences l ls)).
      unfold title_count in Hok. rewrite Hos in Hok. simpl in Hok.
      rewrite Hls in Hok. specialize (Hok eq_refl).
      rewrite Howner_w, decide_True in Hok by done. lia.
  - unfold w3. rewrite title_count_insert_ne by done.
    destruct (decide (b = a)) as [<-|Hba].
    + unfold w2. rewrite title_count_insert_eq.
      rewrite (properties_owned_of_with _ _ _ Hlb). simpl. intros [= <-].
      rewrite decide_True by done.
      rewrite occurrences_app, occurrences_cons, decide_True by done.
      change (occurrences l []) with 0%nat.
      specialize (Hok b (occurrences l lb)).
      unfold title_count in Hok. rewrite Hob in Hok. simpl in Hok.
      rewrite Hlb in Hok. specialize (Hok eq_refl).
      rewrite Howner_w, decide_False in Hok by congruence. lia.
    + unfold w2. rewrite title_count_insert_ne by done.
      intros Hn. rewrite decide_False by congruence.
      specialize (Hok a n Hn).
      by rewrite Howner_w, decide_False in Hok by congruence.
Qed.

Lemma titles_complete_transaction allocation w w' :
  titles_consistent w ->
  Realtor_complete_transaction allocation w = (w', Ok tt) ->
  titles_consistent w'.
Proof.
  intros Hw. unfold Realtor_complete_transaction.
  destruct (heap w !! Allocation_property allocation) as [[land| | | | |]|]
    eqn:Hland;
    try (unfold bind at 1, get_land; by rewrite Hland).
  erewrite (bind_ok (get_land _)) by (by apply get_land_ok).
  destruct (Realtor_transfer_property (Land_owner land)
              (Allocation_successful_bidder allocation)
              (Allocation_property allocation) w) as [w1 [[]|e]] eqn:Htransfer.
  2:{ erewrite bind_raise by exact Htransfer. done. }
  erewrite bind_ok by exact Htransfer.
  assert (Hw1 : titles_consistent w1).
  { intros l. destruct (decide (Allocation_property allocation = l)) as [<-|Hne].
    - by eapply transfer_title_ok.
    - apply (title_ok_same l w); [|done].
      pose proof (title_transfer_other l w (Land_owner land)
                    (Allocation_successful_bidder allocation)
                    (Allocation_property allocation) Hne w
                    (same_title_refl l w)) as Hsame.
      by rewrite Htransfer in Hsame. }
  unfold bind at 1, read, id. intros Hrest l.
  apply (title_ok_same l w1); [|done].
  pose proof (title_complete_transaction_after l w1 allocation w1
                (same_title_refl l w1)
                (Allocation_successful_bidder allocation) (Land_owner land)
                w1 (same_title_refl l w1)) as Hafter.
  by rewrite Hrest in Hafter.
Qed.

Lemma titles_complete_transactions allocations w w' :
  titles_consistent w ->
  Realtor_complete_transactions allocations w = (w', Ok tt) ->
  titles_consistent w'.
Proof.
  unfold Realtor_complete_transactions.
  revert w. induction allocations as [|a allocations IH]; intros w Hw; simpl.
  - by intros [= <-].
  - destruct (Realtor_complete_transaction a w) as [w1 [[]|e]] eqn:Ha.
    + erewrite bind_ok by exact Ha. apply IH.
      by eapply titles_complete_transaction.
    + by erewrite bind_raise by exact Ha.
Qed.

(** X19.  The agreement of the ownership records (each parcel once in the
    list of its owner and in no other list) is kept by every settlement
    that returns: by [complete_transactions] for any list of allocations,
    also with a buyer who is the seller or who buys several parcels, and
    by [sell_homes]. *)
Theorem settlement_keeps_titles w w' :
  titles_consistent w ->
  (forall allocations,
     Realtor_complete_transactions allocations w = (w', Ok tt) ->
     titles_consistent w') /\
  (forall allocations,
     Realtor_sell_homes w = (w', Ok allocations) ->
     titles_consistent w').
Proof.
  intros Hw. split.
  - intros allocations. by apply titles_complete_transactions.
  - intros allocations. unfold Realtor_sell_homes.
    pose proof (realtor_allocate titles_consistent (fun _ _ H => H) w Hw)
      as Hallocate.
    destruct (Realtor_allocate w) as [w1 [allocations1|e]] eqn:Ha.
    2:{ by erewrite bind_raise by exact Ha. }
    erewrite bind_ok by exact Ha. cbn [fst] in Hallocate.
    destruct (Realtor_complete_transactions allocations1 w1)
      as [w2 [[]|e]] eqn:Hc.
    2:{ by erewrite bind_raise by exact Hc. }
    erewrite bind_ok by exact Hc.
    unfold bind, modify, ret. intros [= <- _].
    by apply (titles_complete_transactions allocations1 w1 w2).
Qed.

(** ** Settlement of a sale between two persons *)

Lemma transfer_property_run w l land s ps b pb ls' :
  heap w !! l = Some (OLand land) ->
  heap w !! s = Some (OPerson ps) ->
  heap w !! b = Some (OPerson pb) ->
  s <> b ->
  list_remove l (Person_properties_owned ps) = Some ls' ->
  Realtor_transfer_property (Some s) (Some b) l w =
  (set_heap w
     (<[l := OLand (set_Land_owner land (Some b))]>
        (<[s := OPerson (set_Person_properties_owned ps ls')]>
           (<[b := OPerson (set_Person_properties_owned pb
                              (Person_properties_owned pb ++ [l]))]>
              (heap w)))),
   Ok tt).
Proof.
  intros Hland Hs Hb Hsb Hrm.
  assert (l <> s) by (intros ->; congruence).
  assert (l <> b) by (intros ->; congruence).
  unfold Realtor_transfer_property.
  erewrite (bind_ok (update_properties_owned _ _))
    by (by eapply update_properties_owned_ok).
  erewrite (bind_ok (update_properties_owned _ _)).
  2:{ eapply update_properties_owned_ok.
      - cbn [heap set_heap]. rewrite lookup_insert_ne by done. exact Hs.
      - reflexivity.
      - cbn beta. by rewrite Hrm. }
  erewrite update_land_ok.
  2:{ cbn [heap set_heap]. rewrite !lookup_insert_ne by done. exact Hland. }
  reflexivity.
Qed.

Lemma on_grid_ok (f : Grid -> Grid * result unit) w :
  (f (grid w)).2 = Ok tt -> on_grid f w = (set_grid w (f (grid w)).1, Ok tt).
Proof.
  unfold on_grid. destruct (f (grid w)) as [g r]. simpl. by intros ->.
Qed.

Lemma handle_person_purchase_run w b pb l land final :
  heap w !! b = Some (OPerson pb) ->
  heap w !! l = Some (OLand land) ->
  (grid_move_agent b (Land_pos land) (grid w)).2 = Ok tt ->
  Realtor_handle_person_purchase b l final w =
  (set_workforce
     (set_grid
        (set_heap w
           (<[b := OPerson (set_Person_residence pb (Some l))]>
              (<[l := OLand (set_Land_resident land (Some b))]> (heap w))))
        (grid_move_agent b (Land_pos land) (grid w)).1)
     (if bool_decide (Person_unique_id pb ∈ newcomers (workforce w))
      then Workforce_remove (Person_unique_id pb) WNewcomers (workforce w)
      else workforce w),
   Ok tt).
Proof.
  intros Hb Hland Hgrid.
  assert (l <> b) by (intros ->; congruence).
  unfold Realtor_handle_person_purchase.
  erewrite (bind_ok (update_land _ _)) by (by apply update_land_ok).
  erewrite (bind_ok (update_person _ _)).
  2:{ apply update_person_ok. cbn [heap set_heap].
      rewrite lookup_insert_ne by done. exact Hb. }
  erewrite (bind_ok (get_land _)).
  2:{ apply get_land_ok. cbn [heap set_heap].
      rewrite lookup_insert_ne by done. apply lookup_insert_eq. }
  cbn [Land_pos set_Land_resident].
  erewrite (bind_ok (on_grid _)) by (by apply on_grid_ok).
  cbn [grid set_heap].
  erewrite (bind_ok (get_person _)).
  2:{ apply get_person_ok. cbn [heap set_heap set_grid].
      apply lookup_insert_eq. }
  py_simpl. cbn [Person_unique_id set_Person_residence].
  by destruct (bool_decide _).
Qed.

(** The workforce after [remove()]: the one before, or the one before
    without the person's id. *)
Lemma Person_remove_frame w self :
  preserves
    (fun w' =>
       heap w' = heap w /\ realtor w' = realtor w /\ firm w' = firm w /\
       forall s x, x ∉ wf_members s (workforce w) ->
                   x ∉ wf_members s (workforce w'))
    (Person_remove self).
Proof.
  unfold Person_remove.
  apply preserves_bind; [by apply preserves_modify|]. intros _.
  apply preserves_bind; [apply preserves_get_person|]. intros p.
  apply preserves_bind.
  { apply preserves_modify. intros w0 (Hh & Hr & Hf & Hwf).
    repeat (split; [done|]). intros s x Hx. specialize (Hwf s x Hx).
    cbn [workforce set_workforce].
    destruct s, (workforce w0); cbn in *;
      apply not_elem_of_difference; by left. }
  intros _. apply preserves_bind; [|intros _].
  - by apply frame_Schedule_remove.
  - by apply frame_on_grid.
Qed.

Lemma isinstance_of_person w a p :
  heap w !! a = Some (OPerson p) ->
  isinstance w (VRef a) CPerson = true /\
  isinstance w (VRef a) CInvestor = false.
Proof.
  intros H. unfold isinstance, as_instance. rewrite H. by split.
Qed.

(** X20.  The settlement of one sale between two persons.  After
    [complete_transactions] has processed the allocation, the parcel has
    the buyer as owner and resident, the buyer has the parcel as residence
    and at the end of its list, the seller has lost one copy of it, and
    the buyer is not a newcomer any more.  The seller's own [residence] is
    not cleared.  A seller in the retiring set is removed from the model:
    the removed-agent count goes up by one and the scheduler drops the id;
    a seller who is not retiring stays, and the scheduler and the count
    are untouched. *)
Theorem person_sale_settled w allocation land s ps b pb ls' :
  let l := Allocation_property allocation in
  let uid_s := Person_unique_id ps in
  let uid_b := Person_unique_id pb in
  let moved := grid_move_agent b (Land_pos land) (grid w) in
  let w' := (Realtor_complete_transaction allocation w).1 in
  heap w !! l = Some (OLand land) ->
  Land_owner land = Some s ->
  Allocation_successful_bidder allocation = Some b ->
  heap w !! s = Some (OPerson ps) ->
  heap w !! b = Some (OPerson pb) ->
  s <> b ->
  list_remove l (Person_properties_owned ps) = Some ls' ->
  moved.2 = Ok tt ->
  heap w' !! l
  = Some (OLand (set_Land_resident (set_Land_owner land (Some b)) (Some b))) /\
  heap w' !! b
  = Some (OPerson (set_Person_residence
                     (set_Person_properties_owned pb
                        (Person_properties_owned pb ++ [l])) (Some l))) /\
  heap w' !! s = Some (OPerson (set_Person_properties_owned ps ls')) /\
  (uid_b ∉ newcomers (workforce w')) /\
  (uid_s ∉ retiring (workforce w) ->
   (Realtor_complete_transaction allocation w).2 = Ok tt /\
   removed_agents w' = removed_agents w /\ schedule w' = schedule w) /\
  (uid_s ∈ retiring (workforce w) ->
   removed_agents w' = (removed_agents w + 1)%Z /\
   Schedule_agents (schedule w') !! uid_s = None /\
   (is_Some (Schedule_agents (schedule w) !! uid_s) ->
    (exists partition,
       dict_get CPerson (agents_by_breed (schedule w)) = Some partition /\
       is_Some (dict_get uid_s partition)) ->
    (grid_remove_agent s moved.1).2 = Ok tt ->
    (Realtor_complete_transaction allocation w).2 = Ok tt /\
    forall set, uid_s ∉ wf_members set (workforce w'))).
Proof.
  intros l uid_s uid_b moved w' Hland Howner Hbuyer Hs Hb Hsb Hrm Hmoved.
  assert (Hls : l <> s) by (intros ->; congruence).
  assert (Hlb : l <> b) by (intros ->; congruence).
  pose (pb3 := set_Person_properties_owned pb
                 (Person_properties_owned pb ++ [l])).
  pose (ps3 := set_Person_properties_owned ps ls').
  pose (land3 := set_Land_owner land (Some b)).
  pose (w3 := set_heap w
                (<[l := OLand land3]>
                   (<[s := OPerson ps3]> (<[b := OPerson pb3]> (heap w))))).
  pose (w4 := set_workforce
                (set_grid
                   (set_heap w3
                      (<[b := OPerson (set_Person_residence pb3 (Some l))]>
                         (<[l := OLand (set_Land_resident land3 (Some b))]>
                            (heap w3))))
                   moved.1)
                (if bool_decide (uid_b ∈ newcomers (workforce w))
                 then Workforce_remove uid_b WNewcomers (workforce w)
                 else workforce w)).
  assert (Hb3 : heap w3 !! b = Some (OPerson pb3)).
  { unfold w3. cbn [heap set_heap].
    rewrite !lookup_insert_ne by done. apply lookup_insert_eq. }
  assert (Hs3 : heap w3 !! s = Some (OPerson ps3)).
  { unfold w3. cbn [heap set_heap].
    rewrite lookup_insert_ne by done. apply lookup_insert_eq. }
  assert (Hl3 : heap w3 !! l = Some (OLand land3)).
  { unfold w3. cbn [heap set_heap]. apply lookup_insert_eq. }
  assert (Hl4 : heap w4 !! l
                = Some (OLand (set_Land_resident land3 (Some b)))).
  { unfold w4. cbn [heap set_heap set_grid set_workforce].
    rewrite lookup_insert_ne by done. apply lookup_insert_eq. }
  assert (Hb4 : heap w4 !! b
                = Some (OPerson (set_Person_residence pb3 (Some l)))).
  { unfold w4. cbn [heap set_heap set_grid set_workforce].
    apply lookup_insert_eq. }
  assert (Hs4 : heap w4 !! s = Some (OPerson ps3)).
  { unfold w4. cbn [heap set_heap set_grid set_workforce].
    by rewrite !lookup_insert_ne by done. }
  assert (Hnew4 : uid_b ∉ newcomers (workforce w4)).
  { unfold w4. cbn [workforce set_workforce].
    case_bool_decide as E; [|done].
    destruct (workforce w); cbn. apply not_elem_of_difference. right.
    by apply elem_of_singleton. }
  assert (Hret4 : retiring (workforce w4) = retiring (workforce w)).
  { unfold w4. cbn [workforce set_workforce].
    case_bool_decide; [|done]. by destruct (workforce w). }
  assert (Hrun : Realtor_complete_transaction allocation w =
                 if bool_decide (uid_s ∈ retiring (workforce w))
                 then Person_remove s w4 else (w4, Ok tt)).
  { unfold Realtor_complete_transaction.
    erewrite (bind_ok (get_land _)) by (by apply get_land_ok).
    fold l. rewrite Howner, Hbuyer.
    erewrite (bind_ok (Realtor_transfer_property _ _ _))
      by (by eapply transfer_property_run).
    fold pb3 ps3 land3 w3. unfold bind at 1, read, id.
    destruct (isinstance_of_person w3 b pb3 Hb3) as [-> ->].
    destruct (isinstance_of_person w3 s ps3 Hs3) as [-> _].
    erewrite (bind_ok (Realtor_handle_person_purchase _ _ _))
      by (by eapply handle_person_purchase_run).
    change (set_workforce (set_grid _ _) _) with w4.
    unfold Realtor_handle_seller_departure.
    erewrite (bind_ok (get_person _)) by (by apply get_person_ok).
    unfold bind at 1, read. change (Person_unique_id ps3) with uid_s.
    rewrite Hret4.
    by destruct (bool_decide (uid_s ∈ retiring (workforce w))). }
  subst w'. rewrite Hrun.
  destruct (decide (uid_s ∈ retiring (workforce w))) as [Hret|Hret].
  - rewrite bool_decide_eq_true_2 by done.
    destruct (Person_remove_frame w4 s w4) as (Hh & _ & _ & Hwf);
      [by repeat split|].
    destruct (Person_remove_spec w4 s ps3 Hs4) as (Hcount & Hgone & Hok).
    rewrite !Hh. split; [done|]. split; [done|]. split; [done|].
    split; [by apply (Hwf WNewcomers)|]. split; [done|]. intros _.
    split; [exact Hcount|]. split; [exact Hgone|]. intros Hreg Hpart Hgrid.
    destruct (Hok Hreg Hpart Hgrid) as (Hres & _ & Hout). by split.
  - rewrite bool_decide_eq_false_2 by done. cbn [fst snd].
    split; [done|]. split; [done|]. split; [done|]. split; [done|].
    split; [done | done].
Qed.

(** ** Methods that only write the bid book *)

Section frame_bids.
Variable P : Model -> Prop.
Hypothesis P_bids : forall w x,
  P w -> P (set_realtor w (set_Realtor_bids (realtor w) x)).

Lemma bids_add_bid bidder property price :
  preserves P (Realtor_add_bid bidder property price).
Proof.
  unfold Realtor_add_bid.
  apply preserves_bind; [apply preserves_read|]. intros w0.
  repeat (case_match; [apply preserves_raise|]).
  apply preserves_bind; [apply preserves_lift|]. intros bid.
  apply preserves_modify. intros w Hw. by apply P_bids.
Qed.

Lemma bids_Person_bid self : preserves P (Person_bid self).
Proof.
  unfold Person_bid.
  apply preserves_bind; [apply preserves_get_person|]. intros p.
  apply preserves_bind; [apply preserves_read|]. intros w0.
  apply preserves_bind; [apply preserves_lift|]. intros M.
  apply preserves_for_each. intros sale_property. unfold Person_bid_on.
  apply preserves_bind; [apply preserves_get_land|]. intros prop.
  apply preserves_bind; [apply preserves_read|]. intros w1.
  apply preserves_bind; [apply preserves_lift|]. intros P_max_bid.
  destruct (flt (fmul _ _) _);
    (apply preserves_bind; [apply preserves_lift|]; intros bid;
     destruct (flt _ _); [apply bids_add_bid | apply preserves_ret]).
Qed.

Lemma bids_sell_home property allocations :
  preserves P (Realtor_sell_home property allocations).
Proof.
  unfold Realtor_sell_home.
  apply preserves_bind; [apply preserves_read|]. intros w0.
  case_match; [apply preserves_raise|].
  destruct (defaultdict_get _ _ _) as [bl bids].
  apply preserves_bind.
  { apply preserves_modify. intros w Hw. by apply P_bids. }
  intros _. case_bool_decide; [|apply preserves_ret].
  apply preserves_bind.
  { apply preserves_modify. intros w Hw. by apply P_bids. }
  intros _.
  apply preserves_bind; [apply preserves_or_raise|]. intros highest_bid.
  apply preserves_bind.
  { case_bool_decide; [|apply preserves_ret].
    apply preserves_bind; [apply preserves_or_raise|]. intros b.
    apply preserves_ret. }
  intros second.
  apply preserves_bind; [apply preserves_lift|]. intros allocation.
  apply preserves_ret.
Qed.

Lemma bids_allocate : preserves P Realtor_allocate.
Proof.
  unfold Realtor_allocate.
  apply preserves_bind; [apply preserves_read|]. intros keys.
  generalize (@nil Allocation).
  induction keys as [|k keys IH]; intros allocations; simpl.
  - apply preserves_ret.
  - apply preserves_bind; [apply bids_sell_home | apply IH].
Qed.

End frame_bids.

(** ** The sale listing only grows *)

Ltac listing_frame lem := apply lem; by intros.

Lemma listing_Person_step listing self :
  preserves (listing_extends listing) (Person_step self).
Proof.
  unfold Person_step.
  apply preserves_bind; [by apply preserves_update_person|]. intros _.
  apply preserves_bind; [by apply preserves_update_person|]. intros _.
  apply preserves_bind; [apply preserves_get_person|]. intros p.
  apply preserves_bind; [apply preserves_read|]. intros wf.
  case_bool_decide.
  { repeat case_match; try apply preserves_ret.
    listing_frame frame_Person_remove. }
  destruct (Person_residence p) as [residence|]; [|apply preserves_ret].
  case_bool_decide; [|apply preserves_ret].
  apply preserves_bind; [|intros _].
  - apply preserves_bind; [apply preserves_read|]. intros w0.
    case_match.
    + apply preserves_bind; [by apply preserves_modify|]. intros _.
      case_bool_decide; [|apply preserves_ret].
      apply preserves_modify. intros w Hw. unfold listing_extends in *.
      cbn. by apply prefix_app_r.
    + apply preserves_bind; [apply preserves_get_land|]. intros res.
      case_match; by apply preserves_modify.
  - apply preserves_bind; [apply preserves_read|]. intros sps.
    apply preserves_bind; [by apply preserves_update_person|]. intros _.
    by apply preserves_update_person.
Qed.

Lemma listing_complete_transaction listing allocation :
  preserves (listing_extends listing) (Realtor_complete_transaction allocation).
Proof.
  unfold Realtor_complete_transaction, Realtor_transfer_property.
  apply preserves_bind; [apply preserves_get_land|]. intros prop.
  apply preserves_bind.
  { repeat (apply preserves_bind; [|intros _]).
    1,2: by apply preserves_update_properties_owned.
    by apply preserves_update_land. }
  intros _. apply preserves_bind; [apply preserves_read|]. intros w.
  apply preserves_bind.
  - repeat case_match; try apply preserves_ret.
    + listing_frame frame_handle_investor_purchase.
    + listing_frame frame_handle_person_purchase.
  - intros _. repeat case_match; try apply preserves_ret.
    listing_frame frame_handle_seller_departure.
Qed.

Lemma listing_call_method listing step_name agent :
  preserves (listing_extends listing) (call_method step_name agent).
Proof.
  unfold call_method.
  apply preserves_bind; [apply preserves_get_obj|]. intros o.
  destruct step_name, o;
    try apply preserves_ret; try apply preserves_raise.
  - listing_frame frame_Land_step.
  - apply listing_Person_step.
  - listing_frame frame_Firm_step.
  - by apply bids_Person_bid.
Qed.

Lemma listing_run_op listing o w :
  listing_extends listing w -> listing_extends listing (run_op o w).
Proof.
  destruct o; simpl.
  - by apply bids_add_bid.
  - unfold Realtor_sell_homes, Realtor_complete_transactions.
    apply preserves_bind; [by apply bids_allocate|]. intros allocations.
    apply preserves_bind.
    { apply preserves_for_each, listing_complete_transaction. }
    intros _. apply preserves_bind; [|intros _; apply preserves_ret].
    by apply preserves_modify.
  - apply preserves_for_each, listing_complete_transaction.
  - unfold Schedule_step_breed.
    apply preserves_bind; [listing_frame frame_shuffled_keys|]. intros keys.
    apply preserves_for_each. intros key.
    apply preserves_bind; [listing_frame frame_breed_partition|].
    intros partition.
    apply preserves_bind; [apply preserves_or_raise|]. intros agent.
    apply listing_call_method.
  - apply listing_call_method.
  - listing_frame frame_Schedule_add.
  - listing_frame frame_Schedule_remove.
Qed.

(** X21.  No operation of the market takes a parcel off the sale listing:
    through any sequence of bids, sales, settlements, steps and scheduler
    calls, whether they return or raise, the listing only gets longer at
    its end.  A parcel that was sold is still listed afterwards. *)
Theorem sale_listing_only_grows (ops : list market_op) (w : Model) :
  Realtor_sale_listing (realtor w)
    `prefix_of`
    Realtor_sale_listing (realtor (foldl (flip run_op) w ops)).
Proof.
  change (listing_extends (Realtor_sale_listing (realtor w))
            (foldl (flip run_op) w ops)).
  assert (H : listing_extends (Realtor_sale_listing (realtor w)) w)
    by (by unfold listing_extends).
  revert H. generalize (Realtor_sale_listing (realtor w)). intros listing.
  revert w. induction ops as [|o ops IH]; intros w Hw; simpl; [done|].
  apply IH. by apply listing_run_op.
Qed.

(** ** Invariants behind the preconditions *)

(** X22.  [count] is never negative.  A person is constructed with
    [count = 0], [step()] only increments it, and no other operation of
    the market writes it: from a model where no person has a negative
    count, every sequence of operations, returning or raising, leads to
    such a model, and so does the construction of a person. *)
Theorem count_never_negative (ops : list market_op) (w : Model) :
  counts_nonneg w ->
  counts_nonneg (foldl (flip run_op) w ops) /\
  forall unique_id init_working_period savings residence,
    counts_nonneg
      (Person_init unique_id init_working_period savings residence w).1.
Proof.
  intros Hw. split.
  - revert w Hw. induction ops as [|o ops IH]; intros w Hw; simpl; [done|].
    apply IH. by apply counts_run_op.
  - intros. by apply counts_Person_init.
Qed.

(** X23.  The bid book built by [add_bid] is a dictionary from parcels to
    bids of persons.  Starting from an empty book, after any sequence of
    [add_bid] calls, accepted or refused, the keys of the book are
    distinct [Land] objects and every bid in it is by a [Person]: the
    type checks of [sell_homes] and of [Allocation] cannot fail on it. *)
Theorem book_of_add_bid_is_well_formed
    (calls : list (pyval * pyval * pyval)) (w : Model) :
  Realtor_bids (realtor w) = [] ->
  book_wf
    (foldl (fun w call => (Realtor_add_bid call.1.1 call.1.2 call.2 w).1)
       w calls).
Proof.
  intros Hempty. apply book_wf_empty in Hempty. revert w Hempty.
  induction calls as [|call calls IH]; intros w Hw; simpl; [done|].
  apply IH. by apply book_wf_add_bid.
Qed.

(** X24.  [add_bid] files bids per property in the order of submission.
    An accepted bid goes to the end of the list of its property, with
    mortgage 0; the bids on the other properties are untouched; a first
    bid on a property puts the property at the end of the book, and the
    order of the properties already there does not change. *)
Theorem add_bid_appends w bidder p property land price :
  heap w !! bidder = Some (OPerson p) ->
  heap w !! property = Some (OLand land) ->
  let book := Realtor_bids (realtor w) in
  let w' :=
    (Realtor_add_bid (VRef bidder) (VRef property) (VFloat price) w).1 in
  let book' := Realtor_bids (realtor w') in
  (Realtor_add_bid (VRef bidder) (VRef property) (VFloat price) w).2 = Ok tt /\
  dict_get property book'
  = Some (default [] (dict_get property book)
          ++ [mkBid bidder property price (Fin 0)]) /\
  (forall other, other <> property ->
                 dict_get other book' = dict_get other book) /\
  dict_keys book'
  = match dict_get property book with
    | Some _ => dict_keys book
    | None => dict_keys book ++ [property]
    end /\
  w' = set_realtor w (set_Realtor_bids (realtor w) book').
Proof.
  intros Hbidder Hproperty book w' book'. subst w' book'.
  rewrite (add_bid_accepted w bidder p property land price) by done.
  cbn [fst snd realtor set_realtor Realtor_bids set_Realtor_bids].
  fold book. unfold book_append, defaultdict_get. cbn [Bid_property].
  destruct (dict_get property book) as [old|] eqn:Hold; cbn [default].
  - split; [done|]. split; [apply dict_get_set_eq|].
    split; [intros other Hne; by apply dict_get_set_ne|].
    split; [|done]. apply dict_set_keys. by rewrite Hold.
  - assert (Hset :
      dict_set property ([] ++ [mkBid bidder property price (Fin 0)])
        (book ++ [(property, [])])
      = book ++ [(property, [mkBid bidder property price (Fin 0)])]).
    { apply dict_set_app_notin. by apply dict_get_None. }
    rewrite Hset. split; [done|]. split.
    { apply dict_get_app_notin. by apply dict_get_None. }
    split.
    { intros other Hne. rewrite dict_get_app. simpl.
      rewrite decide_False by done. by destruct (dict_get other book). }
    split; [|done]. unfold dict_keys. by rewrite fmap_app.
Qed.

(** ** Who [step()] takes out of the model *)

(** X25.  [step()] removes nobody but a newcomer without residence: for a
    person who is not a newcomer, or who has a residence, the scheduler,
    the removed-agent count and the grid are after the step what they
    were before it, in every branch and whether the step returns or
    raises. *)
Theorem Person_step_keeps_the_housed w self p :
  heap w !! self = Some (OPerson p) ->
  (Person_unique_id p ∈ newcomers (workforce w) ->
   is_Some (Person_residence p)) ->
  let w' := (Person_step self w).1 in
  schedule w' = schedule w /\
  removed_agents w' = removed_agents w /\
  grid w' = grid w.
Proof.
  intros Hself Hhoused. cbv zeta. person_step_start.
  case_bool_decide as Hnew.
  { destruct (Hhoused Hnew) as [r ->]. done. }
  destruct (Person_residence p) as [residence|]; [|done].
  case_bool_decide as Hret; [|done].
  set (w2 := set_heap _ _).
  set (P := fun w' : Model =>
              schedule w' = schedule w /\
              removed_agents w' = removed_agents w /\ grid w' = grid w).
  assert (HP : P w2) by done.
  match goal with
  | |- schedule (?c w2).1 = _ /\ _ =>
      enough (Hc : preserves P c) by exact (Hc w2 HP)
  end.
  apply preserves_bind; [|intros _].
  - apply preserves_bind; [apply preserves_read|]. intros w0.
    case_match.
    + apply preserves_bind; [by apply preserves_modify|]. intros _.
      case_bool_decide; [|apply preserves_ret]. by apply preserves_modify.
    + apply preserves_bind; [apply preserves_get_land|]. intros res.
      case_match; by apply preserves_modify.
  - apply preserves_bind; [apply preserves_read|]. intros sps.
    apply preserves_bind; [|intros _]; by apply preserves_update_person.
Qed.

(** ** The investor branch of the settlement *)

Lemma isinstance_class w a c :
  isinstance w (VRef a) c = bool_decide (class_at w a = Some c).
Proof.
  unfold isinstance, as_instance, class_at.
  destruct (heap w !! a) as [o|]; simpl.
  - case_decide as E.
    + rewrite E. by rewrite !bool_decide_eq_true_2 by eauto.
    + rewrite !bool_decide_eq_false_2; [done| |by intros []].
      intros [= ?]. done.
  - done.
Qed.

Lemma same_classes_insert w0 w a o o' :
  heap w !! a = Some o -> type_of o' = type_of o ->
  same_classes w0 w ->
  same_classes w0 (set_heap w (<[a := o']> (heap w))).
Proof.
  intros Ha Ht H a'. rewrite <- (H a'). unfold class_at. cbn [heap set_heap].
  destruct (decide (a' = a)) as [->|Hne].
  - by rewrite lookup_insert_eq, Ha; simpl; rewrite Ht.
  - by rewrite lookup_insert_ne.
Qed.

Ltac rental_frame lem :=
  apply lem;
  first
    [ by intros
    | intros ? ? ? ? ? ? ? [? ?]; split; [by eapply same_classes_insert|done]
    | intros ? ? ? ? ? ? [? ?]; split; [by eapply same_classes_insert|done] ].

Lemma rental_transfer_property w0 seller buyer sale_property :
  preserves (rental_kept w0)
    (Realtor_transfer_property seller buyer sale_property).
Proof.
  unfold Realtor_transfer_property.
  repeat (apply preserves_bind; [|intros _]).
  1,2: apply preserves_update_properties_owned;
       intros w a o l l' _ Ha Hl _ [Hc Hr]; split; [|done];
       eapply same_classes_insert; [done| |done]; by destruct o.
  apply preserves_update_land. intros w l Hl [Hc Hr]. split; [|done].
  by eapply same_classes_insert.
Qed.

Lemma rental_complete_transaction w0 allocation w :
  bought_by_person w0 allocation ->
  rental_kept w0 w ->
  rental_kept w0 (Realtor_complete_transaction allocation w).1.
Proof.
  intros Hbuyer HI. unfold Realtor_complete_transaction.
  unfold bind at 1.
  pose proof (preserves_get_land (fun x => x = w)
                (Allocation_property allocation) w eq_refl) as Hsame.
  destruct (get_land _ w) as [w1 [prop|e]]; simpl in Hsame; subst w1;
    [|done].
  unfold bind at 1.
  pose proof (rental_transfer_property w0 (Land_owner prop)
                (Allocation_successful_bidder allocation)
                (Allocation_property allocation) w HI) as Ht.
  destruct (Realtor_transfer_property _ _ _ w) as [w2 [[]|e]];
    simpl in Ht |- *; [|done].
  unfold bind at 1, read, id.
  refine (preserves_bind (rental_kept w0) _ _ _ _ w2 Ht).
  - unfold bought_by_person in Hbuyer.
    destruct (Allocation_successful_bidder allocation) as [b|];
      [|apply preserves_ret].
    rewrite !isinstance_class. destruct Ht as [Hc _].
    rewrite (Hc b), Hbuyer.
    rewrite bool_decide_eq_false_2 by done.
    rewrite bool_decide_eq_true_2 by done.
    rental_frame frame_handle_person_purchase.
  - intros _. repeat case_match; try apply preserves_ret.
    rental_frame frame_handle_seller_departure.
Qed.

Lemma as_instance_class w a c b :
  as_instance w (VRef a) c = Some b -> b = a /\ class_at w a = Some c.
Proof.
  unfold as_instance, class_at.
  destruct (heap w !! a) as [o|]; simpl; [|done].
  case_decide as E; [|done]. intros [= <-]. by rewrite E.
Qed.

Lemma Allocation_init_buyer w property bidder h s f allocation :
  Allocation_init w property (VRef bidder) h s f = Ok allocation ->
  bought_by_person w allocation.
Proof.
  unfold Allocation_init, bought_by_person.
  destruct (as_instance w property CLand); [|done].
  destruct (as_instance w (VRef bidder) CPerson) as [b|] eqn:E; [|done].
  apply as_instance_class in E as [-> E].
  destruct (as_number h); [|done]. destruct (as_number s); [|done].
  destruct (as_number f); [|done]. by intros [= <-].
Qed.

Lemma sell_home_buyers w0 property allocations w :
  same_classes w0 w ->
  Forall (bought_by_person w0) allocations ->
  forall allocations',
    (Realtor_sell_home property allocations w).2 = Ok allocations' ->
    Forall (bought_by_person w0) allocations'.
Proof.
  intros Hc Hacc allocations'. unfold Realtor_sell_home.
  unfold bind at 1, read, id.
  destruct (negb _); [done|].
  destruct (defaultdict_get _ _ _) as [property_bids bids].
  unfold bind at 1, modify.
  case_bool_decide; [|by intros [= <-]].
  unfold bind at 1. unfold bind at 1.
  destruct (sort_by_price_desc property_bids !! 0%nat) as [highest|];
    [|done].
  cbn [or_raise ret].
  set (second := if bool_decide _ then _ else _).
  unfold bind at 1.
  destruct (second _) as [w2 [second_highest|e]]; [|done].
  unfold bind at 1, lift.
  destruct (Allocation_init _ _ _ _ _ _) as [allocation|e] eqn:Hinit;
    [|done].
  intros [= <-]. apply Forall_app. split; [done|].
  apply Forall_singleton. apply Allocation_init_buyer in Hinit.
  unfold bought_by_person in *.
  destruct (Allocation_successful_bidder allocation); [|done].
  by rewrite <- (Hc a).
Qed.

Lemma sell_homes_loop_buyers w0 keys : forall allocations w,
  same_classes w0 w ->
  Forall (bought_by_person w0) allocations ->
  forall allocations',
    (Realtor_sell_homes_loop keys allocations w).2 = Ok allocations' ->
    Forall (bought_by_person w0) allocations'.
Proof.
  induction keys as [|k keys IH]; intros allocations w Hc Hacc allocations';
    simpl.
  - by intros [= <-].
  - unfold bind.
    pose proof (sell_home_buyers w0 k allocations w Hc Hacc) as Hstep.
    pose proof (bids_sell_home (same_classes w0) (fun _ _ H => H)
                  k allocations w Hc) as Hc1.
    destruct (Realtor_sell_home k allocations w) as [w1 [acc|e]];
      simpl in *; [|done].
    apply IH; [done|]. by apply Hstep.
Qed.

(** X26.  [sell_homes()] never lists a parcel for rent.  The bidder that
    [Allocation] accepts is a [Person] or [None], so by the time
    [complete_transactions] tests [isinstance(buyer, Investor)] the test
    cannot succeed: [handle_investor_purchase] is not reached from a
    sale, and the rental listing is after [sell_homes()] what it was
    before, whether the call returns or raises. *)
Theorem sell_homes_keeps_rental_listing w :
  Realtor_rental_listing (realtor (Realtor_sell_homes w).1)
  = Realtor_rental_listing (realtor w).
Proof.
  enough (H : rental_kept w (Realtor_sell_homes w).1) by apply H.
  assert (H0 : rental_kept w w) by done.
  unfold Realtor_sell_homes. unfold bind at 1.
  pose proof (bids_allocate (rental_kept w) (fun _ _ H => H) w H0) as H1.
  assert (Hb : forall allocations,
             (Realtor_allocate w).2 = Ok allocations ->
             Forall (bought_by_person w) allocations).
  { intros allocations. unfold Realtor_allocate, bind, read.
    by apply sell_homes_loop_buyers. }
  destruct (Realtor_allocate w) as [w1 [allocations|e]]; simpl in *; [|done].
  specialize (Hb allocations eq_refl).
  refine (preserves_bind (rental_kept w) _ _ _ _ w1 H1).
  - unfold Realtor_complete_transactions.
    apply preserves_for_each_in. intros allocation Hin w2.
    apply rental_complete_transaction.
    by eapply Forall_forall in Hb.
  - intros _. apply preserves_bind; [|intros _; apply preserves_ret].
    by apply preserves_modify.
Qed.

End facts.

(** * The theorems on the scenario *)

#[local] Existing Instance simple_runtime.

Lemma bid_book_never_holds_a_mortgage_witness :
  Realtor_bids (realtor scenario) = [] /\
  length (Realtor_bids (realtor (foldl (flip run_op) scenario scenario_ops)))
    = 1%nat /\
  forall property property_bids bid,
    (property, property_bids)
      ∈ Realtor_bids (realtor (foldl (flip run_op) scenario scenario_ops)) ->
    bid ∈ property_bids ->
    Bid_mortgage bid = Fin 0.
Proof.
  split; [reflexivity|]. split; [by vm_compute|].
  apply (bid_book_never_holds_a_mortgage scenario_ops scenario).
  reflexivity.
Defined.

(** C9 as stated fails: a negative price is accepted by the constructor. *)
Lemma Bid_with_negative_price_is_constructed :
  exists bid,
    Bid_init scenario (VRef 3%nat) (VRef 1%nat) (VFloat (Fin (-5)))
      default_amount = Ok bid /\
    flt (Bid_price bid) (Fin 0) = true.
Proof.
  exists (mkBid 3%nat 1%nat (Fin (-5)) (Fin 0)).
  split; [by vm_compute | reflexivity].
Qed.

(** C8 as stated fails: adding a second agent with a registered id
    succeeds and replaces the registration. *)
Lemma Schedule_add_replaces_registered_agent :
  dict_get CPerson (agents_by_breed (schedule scenario_twin))
    ≫= dict_get 3%Z = Some 3%nat /\
  (Schedule_add 9%nat scenario_twin).2 = Ok tt /\
  dict_get CPerson
    (agents_by_breed (schedule (Schedule_add 9%nat scenario_twin).1))
    ≫= dict_get 3%Z = Some 9%nat /\
  Schedule_agents (schedule (Schedule_add 9%nat scenario_twin).1) !! 3%Z
    = Some 9%nat.
Proof. by vm_compute. Qed.

Lemma Schedule_add_overwrites_witness :
  heap scenario_twin !! 9%nat
    = Some (OPerson (scenario_person 3 7 [] None)) /\
  exists w',
    Schedule_add 9%nat scenario_twin = (w', Ok tt) /\
    Schedule_agents (schedule w') !! 3%Z = Some 9%nat /\
    exists partition,
      dict_get CPerson (agents_by_breed (schedule w')) = Some partition /\
      dict_get 3%Z partition = Some 9%nat.
Proof.
  split; [by vm_compute|].
  apply (Schedule_add_overwrites scenario_twin 9%nat
           (OPerson (scenario_person 3 7 [] None))).
  by vm_compute.
Defined.



(** C3 as stated fails.  With a zero denominator the quotient of the
    parcel's net rent is an infinity: nothing is raised, and [Person.bid]
    submits a bid at [M + S]; called with a Python float [get_max_bid]
    raises.  With a negative denominator and a negative net rent the
    maximum bid is positive and a bid is submitted. *)
Lemma nonpositive_discount_raises_or_bids :
  (Bank_discount (r_target (params scenario_zero_discount)) (8 # 10)
     (delta (params scenario_zero_discount))
     (mortgage_period (params scenario_zero_discount))
     (p_dot (params scenario_zero_discount)) = Ok scenario_zero_denominator /\
   is_zero scenario_zero_denominator = true /\
   Bank_get_max_bid (np_float64 scenario_R_N) (2 # 1000) 0 (8 # 10) 0
     scenario_zero_discount = Ok PInf /\
   Bank_get_max_bid (py_float scenario_R_N) (2 # 1000) 0 (8 # 10) 0
     scenario_zero_discount = Raise ZeroDivisionError /\
   (Person_bid 3%nat scenario_zero_discount).2 = Ok tt /\
   flt (Fin 0) (Fin (scenario_zero_M + 100)) = true /\
   Realtor_bids (realtor (Person_bid 3%nat scenario_zero_discount).1)
     = [(1%nat, [mkBid 3%nat 1%nat (Fin (134450560000 # 500000)) (Fin 0)])]) /\
  (Bank_discount (r_target (params scenario_boom_remote)) (8 # 10)
     (delta (params scenario_boom_remote))
     (mortgage_period (params scenario_boom_remote))
     (p_dot (params scenario_boom_remote)) = Ok scenario_boom_discount /\
   flt scenario_boom_discount (Fin 0) = true /\
   (Person_bid 3%nat scenario_boom_remote).2 = Ok tt /\
   flt (Fin 0) (Fin (13446456000000 # 50000000)) = true /\
   Realtor_bids (realtor (Person_bid 3%nat scenario_boom_remote).1)
     = [(1%nat,
         [mkBid 3%nat 1%nat (Fin (13446456000000 # 50000000)) (Fin 0)])]).
Proof. repeat split; by vm_compute. Qed.

Lemma nonpositive_discount_outcome_witness :
  (let P_max_bid := fdiv scenario_R_NT scenario_boom_discount in
   Bank_get_max_bid (py_float scenario_R_N) scenario_r (5 # 100) (8 # 10)
     (Land_transport_cost scenario_land) scenario_boom = Ok P_max_bid /\
   Bank_get_max_bid (np_float64 scenario_R_N) scenario_r (5 # 100) (8 # 10)
     (Land_transport_cost scenario_land) scenario_boom = Ok P_max_bid /\
   is_nan P_max_bid = false /\
   flt (Fin 0) P_max_bid = false /\
   Person_bid_on 3%nat 100 scenario_r (8 # 10) 0 (5 # 100) 1%nat scenario_boom
   = (scenario_boom, Ok tt)) /\
  (Bank_get_max_bid (py_float scenario_R_N) (2 # 1000) 0 (8 # 10)
     (Land_transport_cost scenario_land) scenario_zero_discount
   = Raise ZeroDivisionError /\
   Bank_get_max_bid (np_float64 scenario_R_N) (2 # 1000) 0 (8 # 10)
     (Land_transport_cost scenario_land) scenario_zero_discount = Ok PInf /\
   Person_bid_on 3%nat 100 (2 # 1000) (8 # 10) scenario_zero_M 0 1%nat
     scenario_zero_discount
   = (with_book scenario_zero_discount
        (book_append
           (mkBid 3%nat 1%nat (Fin (scenario_zero_M + 100)) (Fin 0))
           (Realtor_bids (realtor scenario_zero_discount))),
      Ok tt)).
Proof.
  assert (H1 : heap scenario_boom !! 3%nat
               = Some (OPerson (scenario_person 3 100 [] None)))
    by (vm_compute; reflexivity).
  assert (H2 : heap scenario_boom !! 1%nat = Some (OLand scenario_land))
    by (vm_compute; reflexivity).
  assert (H3 : Bank_R_NT scenario_R_N scenario_r
                 (mortgage_period (params scenario_boom)) = Ok scenario_R_NT)
    by (vm_compute; reflexivity).
  assert (H4 : Bank_discount (5 # 100) (8 # 10)
                 (delta (params scenario_boom))
                 (mortgage_period (params scenario_boom))
                 (p_dot (params scenario_boom)) = Ok scenario_boom_discount)
    by (vm_compute; reflexivity).
  assert (H5 : Land_net_rent scenario_land scenario_boom = scenario_R_N)
    by (vm_compute; reflexivity).
  assert (H6 : (0 < 8 # 10)%Q) by (vm_compute; reflexivity).
  assert (Z3 : Bank_R_NT scenario_R_N (2 # 1000)
                 (mortgage_period (params scenario_zero_discount))
               = Ok scenario_zero_R_NT) by (vm_compute; reflexivity).
  assert (Z4 : Bank_discount 0 (8 # 10)
                 (delta (params scenario_zero_discount))
                 (mortgage_period (params scenario_zero_discount))
                 (p_dot (params scenario_zero_discount))
               = Ok scenario_zero_denominator) by (vm_compute; reflexivity).
  assert (Z5 : Land_net_rent scenario_land scenario_zero_discount
               = scenario_R_N) by (vm_compute; reflexivity).
  split.
  - destruct (nonpositive_discount_outcome scenario_boom scenario_R_N
                scenario_r (5 # 100) (8 # 10) scenario_R_NT
                scenario_boom_discount 3%nat 1%nat
                (scenario_person 3 100 [] None) scenario_land 100 0
                H3 H4 H1 H2 H5 H6) as [Hnegative _].
    apply (Hnegative (-7637809375000 # 7737809375000)); by vm_compute.
  - destruct (nonpositive_discount_outcome scenario_zero_discount
                scenario_R_N (2 # 1000) 0 (8 # 10) scenario_zero_R_NT
                scenario_zero_denominator 3%nat 1%nat
                (scenario_person 3 100 [] None) scenario_land 100
                scenario_zero_M Z3 Z4 H1 H2 Z5 H6) as [_ Hzero].
    destruct Hzero as (Hpy & Hnp & _ & Hbid); [by vm_compute|].
    split; [exact Hpy|]. split; [exact Hnp|]. exact Hbid.
Defined.


Lemma Firm_step_update_order_witness :
  exists f',
    Firm_step scenario = (set_firm scenario f', Ok tt) /\
    (Firm_wage f' == 49690)%Q /\
    (Firm_F_target f' * Firm_wage f'
     == Firm_F scenario_firm * Firm_wage_target f')%Q.
Proof.
  destruct (Firm_step_update_order scenario 1 1 1)
    as (f' & Hstep & HN & Hpop & Hn & Hy & HMPL & Hwt & Hw & Hwp & HFt & HF
        & Hyt & Hkt & Hk).
  - by vm_compute.
  - by vm_compute.
  - by vm_compute.
  - by vm_compute.
  - by vm_compute.
  - by vm_compute.
  - by vm_compute.
  - exists f'. split; [exact Hstep|]. rewrite HFt, Hw, Hwt.
    split; by vm_compute.
Defined.

Lemma newcomer_without_residence_is_removed_witness :
  removed_agents (Person_step 3%nat scenario).1 = 1%Z /\
  Schedule_agents (schedule (Person_step 3%nat scenario).1) !! 3%Z = None /\
  (Person_step 3%nat scenario).2 = Ok tt.
Proof.
  assert (H1 : heap scenario !! 3%nat
               = Some (OPerson (scenario_person 3 100 [] None)))
    by (vm_compute; reflexivity).
  assert (H2 : Person_unique_id (scenario_person 3 100 [] None)
               ∈ newcomers (workforce scenario)).
  { apply (bool_decide_unpack _). vm_compute. exact I. }
  assert (H3 : (0 <= Person_count (scenario_person 3 100 [] None))%Z)
    by (vm_compute; discriminate).
  assert (H4 : is_Some (Schedule_agents (schedule scenario) !! 3%Z)).
  { apply (bool_decide_unpack _). vm_compute. exact I. }
  assert (H5 : exists partition,
             dict_get CPerson (agents_by_breed (schedule scenario))
               = Some partition /\
             is_Some (dict_get 3%Z partition)).
  { exists [(2%Z, 2%nat); (3%Z, 3%nat); (4%Z, 4%nat); (5%Z, 5%nat)].
    split; [vm_compute; reflexivity|].
    apply (bool_decide_unpack _). vm_compute. exact I. }
  assert (H6 : (grid_remove_agent 3%nat (grid scenario)).2 = Ok tt)
    by (vm_compute; reflexivity).
  destruct (newcomer_without_residence_is_removed scenario 3%nat
              (scenario_person 3 100 [] None) H1 H2 eq_refl H3)
    as (Hcount & Hgone & Hok).
  split; [exact Hcount|]. split; [exact Hgone|]. exact (proj1 (Hok H4 H5 H6)).
Defined.

(** C2 as stated fails: with the parcel twice in the seller's list, one
    copy is left after the transfer and the parcel is in both lists. *)
Lemma sold_property_stays_with_seller :
  owned_by scenario_double_title 2%nat = [1%nat; 1%nat] /\
  owner_of scenario_double_title 1%nat = Some 2%nat /\
  (1%nat ∈ owned_by scenario_double_title 2%nat) /\
  (1%nat ∉ owned_by scenario_double_title 4%nat) /\
  (Realtor_complete_transactions [scenario_allocation]
     scenario_double_title).2 = Ok tt /\
  (1%nat ∈ owned_by scenario_resold 4%nat) /\
  (1%nat ∈ owned_by scenario_resold 2%nat).
Proof.
  split; [|split; [|split; [|split; [|split; [|split]]]]].
  - vm_compute. reflexivity.
  - vm_compute. reflexivity.
  - apply (bool_decide_unpack _). vm_compute. exact I.
  - apply (bool_decide_unpack _). vm_compute. exact I.
  - vm_compute. reflexivity.
  - apply (bool_decide_unpack _). vm_compute. exact I.
  - apply (bool_decide_unpack _). vm_compute. exact I.
Qed.

Lemma transfer_is_exclusive_witness :
  (1%nat ∈ owned_by scenario_sold 4%nat) /\
  (1%nat ∉ owned_by scenario_sold 2%nat) /\
  owner_of scenario_sold 1%nat = Some 4%nat.
Proof.
  assert (H1 : NoDup (Allocation_property <$> ([] ++ [scenario_allocation]))).
  { apply (bool_decide_unpack _). vm_compute. exact I. }
  assert (H2 : owner_of scenario (Allocation_property scenario_allocation)
               = Some 2%nat) by (vm_compute; reflexivity).
  assert (H3 : title_count (Allocation_property scenario_allocation) scenario
                 2%nat = Some 1%nat) by (vm_compute; reflexivity).
  assert (H4 : title_count (Allocation_property scenario_allocation) scenario
                 4%nat = Some 0%nat) by (vm_compute; reflexivity).
  exact (transfer_is_exclusive [] [] scenario_allocation scenario scenario
           2%nat 4%nat H1 eq_refl H2 eq_refl H3 H4).
Defined.

(** The scenario of the specification: bids of 100, 150 and 120 on one
    parcel give one allocation to the 150-bidder, with second-highest bid
    120 and final price 150, and the book is empty afterwards. *)
Example sell_homes_three_bids :
  (Realtor_sell_homes scenario_bids).2
    = Ok [mkAllocation 1%nat (Some 4%nat) (Fin 150) (Fin 120) (Fin 150)] /\
  Realtor_bids (realtor (Realtor_sell_homes scenario_bids).1) = [].
Proof. split; vm_compute; reflexivity. Qed.

Lemma sell_homes_clears_each_property_witness :
  exists allocations,
    Forall2 (fun entry a => clears entry.1 entry.2 a)
      (filter (fun entry => entry.2 <> [])
         (Realtor_bids (realtor scenario_bids))) allocations /\
    Realtor_allocate scenario_bids
    = (with_book scenario_bids
         (sorted_book (Realtor_bids (realtor scenario_bids))),
       Ok allocations) /\
    Realtor_sell_homes scenario_bids =
      (let settled :=
         Realtor_complete_transactions allocations
           (with_book scenario_bids
              (sorted_book (Realtor_bids (realtor scenario_bids)))) in
       match settled.2 with
       | Ok _ => (with_book settled.1 [], Ok allocations)
       | Raise e => (settled.1, Raise e)
       end).
Proof.
  apply (sell_homes_clears_each_property scenario_bids).
  - split.
    + apply (bool_decide_unpack _). vm_compute. exact I.
    + intros property bids Hin. apply list_elem_of_In in Hin.
      vm_compute in Hin. destruct Hin as [[= <- <-]|[]]. split.
      * eexists. vm_compute. reflexivity.
      * intros b Hb. apply list_elem_of_In in Hb.
        destruct Hb as [<-|[<-|[<-|[]]]]; eexists; vm_compute; reflexivity.
  - intros property bids b Hin Hb. apply list_elem_of_In in Hin.
    vm_compute in Hin. destruct Hin as [[= <- <-]|[]].
    apply list_elem_of_In in Hb.
    destruct Hb as [<-|[<-|[<-|[]]]]; reflexivity.
Defined.

(** C1 as stated fails: [add_bid] accepts a NaN, which compares false
    with every price, and the sort then leaves the bids as they are.  With
    bids of 150, NaN and 200 on the parcel, the allocation goes to the
    bidder of 150, and its second-highest bid is the NaN. *)
Lemma nan_bid_hides_the_highest_bid :
  (Realtor_add_bid (VRef 4%nat) (VRef 1%nat) (VFloat NaN)
     (Realtor_add_bid (VRef 3%nat) (VRef 1%nat) (VFloat (Fin 150))
        scenario).1).2 = Ok tt /\
  Realtor_bids (realtor scenario_nan_bids)
  = [(1%nat, [mkBid 3%nat 1%nat (Fin 150) (Fin 0);
              mkBid 4%nat 1%nat NaN (Fin 0);
              mkBid 5%nat 1%nat (Fin 200) (Fin 0)])] /\
  (Realtor_allocate scenario_nan_bids).2
  = Ok [mkAllocation 1%nat (Some 3%nat) (Fin 150) NaN (Fin 150)] /\
  (Realtor_sell_homes scenario_nan_bids).2
  = Ok [mkAllocation 1%nat (Some 3%nat) (Fin 150) NaN (Fin 150)] /\
  flt (Fin 150) (Fin 200) = true.
Proof. repeat split; by vm_compute. Qed.

Lemma Schedule_remove_outcomes_witness :
  (Schedule_remove 9%nat scenario_stray).2 = Raise KeyError /\
  Schedule_agents (schedule scenario_stray) !! 3%Z = Some 3%nat /\
  Schedule_agents (schedule (Schedule_remove 9%nat scenario_stray).1)
  = delete 3%Z (Schedule_agents (schedule scenario_stray)).
Proof.
  assert (H1 : heap scenario_stray !! 9%nat
               = Some (OLand (mkLand 3 (1, 1)%Z 0 None None 1 1)))
    by (vm_compute; reflexivity).
  assert (H2 : is_Some (Schedule_agents (schedule scenario_stray) !! 3%Z)).
  { apply (bool_decide_unpack _). vm_compute. exact I. }
  assert (H3 : dict_get 3%Z (partition_of CLand scenario_stray) = None)
    by (vm_compute; reflexivity).
  assert (H4 : Schedule_agents (schedule scenario_stray) !! 3%Z = Some 3%nat)
    by (vm_compute; reflexivity).
  destruct (Schedule_remove_outcomes scenario_stray 9%nat _ H1)
    as (_ & Hpartial & _).
  destruct (Hpartial H2 H3) as [Hraise Hflat].
  split; [exact Hraise|]. split; [exact H4 | exact Hflat].
Defined.

Lemma Schedule_add_then_remove_witness :
  exists w',
    (Schedule_add 3%nat >>> Schedule_remove 3%nat) scenario_unscheduled
    = (w', Ok tt) /\
    w' = set_schedule scenario_unscheduled (schedule w') /\
    Schedule_agents (schedule w')
    = Schedule_agents (schedule scenario_unscheduled) /\
    (forall breed,
       partition_of breed w' = partition_of breed scenario_unscheduled) /\
    Schedule_steps (schedule w')
    = Schedule_steps (schedule scenario_unscheduled) /\
    Schedule_time (schedule w') = Schedule_time (schedule scenario_unscheduled).
Proof.
  assert (H1 : heap scenario_unscheduled !! 3%nat
               = Some (OPerson (scenario_person 3 100 [] None)))
    by (vm_compute; reflexivity).
  assert (H2 : Schedule_agents (schedule scenario_unscheduled) !! 3%Z = None)
    by (vm_compute; reflexivity).
  assert (H3 : dict_get 3%Z (partition_of CPerson scenario_unscheduled) = None)
    by (vm_compute; reflexivity).
  exact (Schedule_add_then_remove scenario_unscheduled 3%nat _ H1 H2 H3).
Defined.

Lemma schedule_wf_add_remove_witness :
  schedule_wf scenario_unscheduled /\
  schedule_wf scenario_registered /\
  (Schedule_remove 3%nat scenario_registered).2 = Ok tt /\
  schedule_wf (Schedule_remove 3%nat scenario_registered).1.
Proof.
  assert (H0 : schedule_wf scenario_unscheduled).
  { split.
    - intros uid a.
      change (Schedule_agents (schedule scenario_unscheduled))
        with (∅ : gmap Z addr).
      rewrite lookup_empty. split; [done | by intros [? ?]].
    - by intros b uid a ?. }
  assert (H1 : heap scenario_unscheduled !! 3%nat
               = Some (OPerson (scenario_person 3 100 [] None)))
    by (vm_compute; reflexivity).
  assert (H2 : Schedule_agents (schedule scenario_unscheduled) !! 3%Z = None)
    by (vm_compute; reflexivity).
  destruct (schedule_wf_add_remove scenario_unscheduled 3%nat _ H0 H1)
    as [Hadd _].
  assert (H3 : heap scenario_registered !! 3%nat
               = Some (OPerson (scenario_person 3 100 [] None)))
    by (vm_compute; reflexivity).
  assert (H4 : Schedule_agents (schedule scenario_registered) !! 3%Z
               = Some 3%nat)
    by (vm_compute; reflexivity).
  destruct (schedule_wf_add_remove scenario_registered 3%nat _ (Hadd H2) H3)
    as [_ Hremove].
  split; [exact H0|]. split; [exact (Hadd H2)|]. exact (Hremove H4).
Defined.

Lemma get_breed_count_after_add_witness :
  (Schedule_get_breed_count CPerson scenario_twin).2 = Ok 4%Z /\
  (Schedule_get_breed_count CPerson (Schedule_add 9%nat scenario_twin).1).2
  = Ok 4%Z /\
  (Schedule_get_breed_count CPerson scenario_unscheduled).2 = Ok 0%Z /\
  (Schedule_get_breed_count CPerson scenario_registered).2 = Ok 1%Z.
Proof.
  assert (H1 : heap scenario_twin !! 9%nat
               = Some (OPerson (scenario_person 3 7 [] None)))
    by (vm_compute; reflexivity).
  assert (H2 : heap scenario_unscheduled !! 3%nat
               = Some (OPerson (scenario_person 3 100 [] None)))
    by (vm_compute; reflexivity).
  destruct (get_breed_count_after_add scenario_twin 9%nat _ CPerson H1)
    as (Hbefore & _ & Hafter & _).
  destruct (get_breed_count_after_add scenario_unscheduled 3%nat _ CPerson H2)
    as (Hbefore' & _ & Hafter' & _).
  split; [exact Hbefore|]. split; [exact Hafter|].
  split; [exact Hbefore' | exact Hafter'].
Defined.

Lemma Land_sweep_records_witness :
  exists w' records,
    Schedule_step_breed CLand m_step scenario = (w', Ok tt) /\
    step_price_data w' = step_price_data scenario ++ records /\
    length records = length [(1%Z, 1%nat)] /\
    Forall2 (fun key r =>
               exists a l, dict_get key [(1%Z, 1%nat)] = Some a /\
                           heap scenario !! a = Some (OLand l) /\
                           land_record scenario l r)
      (shuffle (dict_keys [(1%Z, 1%nat)]) (random scenario)).1 records /\
    heap w' = heap scenario /\ firm w' = firm scenario /\
    realtor w' = realtor scenario /\ workforce w' = workforce scenario.
Proof.
  assert (H1 : dict_get CLand (agents_by_breed (schedule scenario))
               = Some [(1%Z, 1%nat)]) by (vm_compute; reflexivity).
  assert (H2 : forall uid a, (uid, a) ∈ [(1%Z, 1%nat)] ->
                 exists l, heap scenario !! a = Some (OLand l)).
  { intros uid a Hin. apply list_elem_of_In in Hin.
    destruct Hin as [[= <- <-]|[]]. exists scenario_land.
    vm_compute. reflexivity. }
  exact (Land_sweep_records scenario [(1%Z, 1%nat)] H1 H2).
Defined.

Lemma Person_step_idle_witness :
  Person_step 2%nat scenario =
  (set_heap scenario
     (<[2%nat := OPerson (Person_ticked
                            (scenario_person 2 0 [1%nat] (Some 1%nat)))]>
        (heap scenario)), Ok tt).
Proof.
  assert (H1 : heap scenario !! 2%nat
               = Some (OPerson (scenario_person 2 0 [1%nat] (Some 1%nat))))
    by (vm_compute; reflexivity).
  assert (H2 : 2%Z ∉ newcomers (workforce scenario)).
  { apply (bool_decide_unpack _). vm_compute. exact I. }
  assert (H3 : 2%Z ∈ retiring (workforce scenario)).
  { apply (bool_decide_unpack _). vm_compute. exact I. }
  exact (Person_step_idle scenario 2%nat _ H1
           (or_intror (conj H2 (or_intror H3)))).
Defined.

Lemma Person_step_work_decision_witness :
  Person_step 4%nat scenario_sold =
  (set_workforce
     (set_heap scenario_sold
        (<[4%nat := OPerson (Person_paid
                               (scenario_person 4 150 [1%nat] (Some 1%nat))
                               1000)]> (heap scenario_sold)))
     (Workforce_add 4 WWorkers (workforce scenario_sold)),
   Ok tt) /\
  (4%Z ∈ workers (Workforce_add 4 WWorkers (workforce scenario_sold))).
Proof.
  assert (H1 : heap scenario_sold !! 4%nat
               = Some (OPerson (scenario_person 4 150 [1%nat] (Some 1%nat))))
    by (vm_compute; reflexivity).
  assert (H2 : heap scenario_sold !! 1%nat
               = Some (OLand (mkLand 1 (0, 0)%Z 0 (Some 4%nat) (Some 4%nat)
                                0 0)))
    by (vm_compute; reflexivity).
  assert (H3 : 4%Z ∉ newcomers (workforce scenario_sold)).
  { apply (bool_decide_unpack _). vm_compute. exact I. }
  assert (H4 : 4%Z ∉ retiring (workforce scenario_sold)).
  { apply (bool_decide_unpack _). vm_compute. exact I. }
  assert (H5 : (0 + 1 <= working_periods (params scenario_sold))%Z)
    by (vm_compute; discriminate).
  destruct (Person_step_work_decision scenario_sold 4%nat
              (scenario_person 4 150 [1%nat] (Some 1%nat)) 1%nat _
              H1 eq_refl H2 H3 H4 H5) as [Hstep Hiff].
  split; [exact Hstep|]. apply Hiff. vm_compute. reflexivity.
Defined.

Lemma Person_step_retirement_witness :
  Person_step 2%nat scenario_elder =
  (set_realtor
     (set_workforce
        (set_heap scenario_elder
           (<[2%nat := OPerson (Person_paid
                                  (scenario_person 2 0 [1%nat] (Some 1%nat))
                                  1000)]> (heap scenario_elder)))
        (Workforce_add 2 WRetiring (workforce scenario_elder)))
     (set_Realtor_sale_listing (realtor scenario_elder) [1%nat; 1%nat]),
   Ok tt).
Proof.
  assert (H1 : heap scenario_elder !! 2%nat
               = Some (OPerson (scenario_person 2 0 [1%nat] (Some 1%nat))))
    by (vm_compute; reflexivity).
  assert (H2 : 2%Z ∉ newcomers (workforce scenario_elder)).
  { apply (bool_decide_unpack _). vm_compute. exact I. }
  assert (H3 : 2%Z ∉ retiring (workforce scenario_elder)).
  { apply (bool_decide_unpack _). vm_compute. exact I. }
  assert (H4 : (working_periods (params scenario_elder) < 0 + 1)%Z)
    by (vm_compute; reflexivity).
  exact (proj1 (Person_step_retirement scenario_elder 2%nat
                  (scenario_person 2 0 [1%nat] (Some 1%nat)) 1%nat
                  H1 eq_refl H2 H3 H4)).
Defined.

Lemma Person_bid_nothing_for_sale_witness :
  Person_bid 3%nat scenario_no_rate
  = (scenario_no_rate, Raise ZeroDivisionError) /\
  Person_bid 3%nat scenario_unlisted = (scenario_unlisted, Ok tt).
Proof.
  assert (H1 : heap scenario_no_rate !! 3%nat
               = Some (OPerson (scenario_person 3 100 [] None)))
    by (vm_compute; reflexivity).
  assert (H2 : (r_prime (params scenario_no_rate) == 0)%Q)
    by (vm_compute; reflexivity).
  assert (H3 : heap scenario_unlisted !! 3%nat
               = Some (OPerson (scenario_person 3 100 [] None)))
    by (vm_compute; reflexivity).
  assert (H4 : ~ (r_prime (params scenario_unlisted) == 0)%Q)
    by (vm_compute; discriminate).
  split.
  - exact (proj1 (Person_bid_nothing_for_sale scenario_no_rate 3%nat _ H1) H2).
  - exact (proj2 (Person_bid_nothing_for_sale scenario_unlisted 3%nat _ H3)
             H4 eq_refl).
Defined.

Lemma Person_bid_on_price_witness :
  let price :=
    fmin (fadd (if flt scenario_P_max_bid (Fin 1)
                then fmul (Fin (8 # 10)) scenario_P_max_bid
                else Fin scenario_M) (Fin 100)) scenario_P_max_bid in
  Person_bid_on 3%nat 100 scenario_r (8 # 10) scenario_M (5 # 100) 1%nat
    scenario
  = (with_book scenario [(1%nat, [mkBid 3%nat 1%nat price (Fin 0)])],
     Ok tt) /\
  fle price scenario_P_max_bid = true /\
  flt (Fin 0) price = true.
Proof.
  assert (H1 : heap scenario !! 3%nat
               = Some (OPerson (scenario_person 3 100 [] None)))
    by (vm_compute; reflexivity).
  assert (H2 : heap scenario !! 1%nat = Some (OLand scenario_land))
    by (vm_compute; reflexivity).
  assert (H4 : Bank_get_max_bid (np_float64 (Land_net_rent scenario_land
                                               scenario))
                 scenario_r (5 # 100) (8 # 10)
                 (Land_transport_cost scenario_land) scenario
               = Ok scenario_P_max_bid) by (vm_compute; reflexivity).
  assert (H5 : (0 < 8 # 10)%Q) by (vm_compute; reflexivity).
  assert (H6 : (0 <= 100)%Q) by (vm_compute; discriminate).
  assert (H7 : (0 < scenario_M + 100)%Q) by (vm_compute; reflexivity).
  assert (H8 : flt (Fin 0) scenario_P_max_bid = true)
    by (vm_compute; reflexivity).
  destruct (Person_bid_on_price scenario 3%nat _ 100 scenario_r (8 # 10)
              scenario_M (5 # 100) 1%nat scenario_land
              scenario_P_max_bid H1 H2 H4 H5) as (Hrun & _ & Hnumber).
  destruct (Hnumber eq_refl) as [Hle Hpos].
  pose proof (proj2 (Hpos H6 H7) H8) as Hprice.
  cbv zeta in *. split; [|split; [exact Hle | exact Hprice]].
  rewrite Hrun, Hprice. reflexivity.
Defined.

Lemma Person_init_owned_witness :
  exists w',
    Person_init 9 0 0 (Some 1%nat) scenario
    = (w', Ok (fresh (dom (heap scenario)))) /\
    heap scenario !! fresh (dom (heap scenario)) = None /\
    w' = set_heap scenario (heap w') /\
    heap w' !! fresh (dom (heap scenario))
    = Some (OPerson (mkPerson 9 0 0 0 [1%nat] (Some 1%nat) 0 None)) /\
    heap w' !! 1%nat
    = Some (OLand (set_Land_resident
                     (set_Land_owner scenario_land
                        (Some (fresh (dom (heap scenario)))))
                     (Some (fresh (dom (heap scenario)))))) /\
    (forall a, a <> fresh (dom (heap scenario)) -> a <> 1%nat ->
               heap w' !! a = heap scenario !! a) /\
    owner_of w' 1%nat = Some (fresh (dom (heap scenario))) /\
    (forall a, a <> fresh (dom (heap scenario)) ->
               owned_by w' a = owned_by scenario a).
Proof.
  assert (H1 : heap scenario !! 1%nat = Some (OLand scenario_land))
    by (vm_compute; reflexivity).
  exact (Person_init_owned scenario 9 0 0 1%nat scenario_land H1).
Defined.

Lemma Firm_step_without_firms_witness :
  Firm_step scenario_no_firms =
  (set_firm scenario_no_firms
     (set_Firm_agglomeration_population
        (set_Firm_N (firm scenario_no_firms) (Firm_get_N scenario_no_firms))
        (Firm_mult (firm scenario_no_firms) * Firm_get_N scenario_no_firms
         + Firm_seed_population (firm scenario_no_firms))),
   Raise ZeroDivisionError).
Proof.
  assert (H1 : (Firm_F (firm scenario_no_firms) == 0)%Q)
    by (vm_compute; reflexivity).
  exact (Firm_step_without_firms scenario_no_firms H1).
Defined.

Lemma sale_of_unowned_parcel_witness :
  Realtor_complete_transactions [scenario_allocation] scenario_unowned
  = (set_heap scenario_unowned
       (<[4%nat := OPerson (scenario_person 4 150 [1%nat] None)]>
          (heap scenario_unowned)),
     Raise AttributeError) /\
  owner_of
    (Realtor_complete_transactions [scenario_allocation] scenario_unowned).1
    1%nat = None.
Proof.
  assert (H1 : heap scenario_unowned !! 1%nat
               = Some (OLand (mkLand 1 (0, 0)%Z 0 None None 0 0)))
    by (vm_compute; reflexivity).
  assert (H2 : heap scenario_unowned !! 4%nat
               = Some (OPerson (scenario_person 4 150 [] None)))
    by (vm_compute; reflexivity).
  destruct (sale_of_unowned_parcel scenario_unowned scenario_allocation []
              _ H1) as [_ Hsale].
  destruct (Hsale 4%nat _ [] eq_refl H2 eq_refl eq_refl)
    as (Hrun & _ & Howner).
  split; [exact Hrun|]. rewrite Hrun. exact Howner.
Defined.

(** The objects of the scenario, one by one. *)
Lemma scenario_objects (w : @Model simple_runtime) a o :
  heap w = scenario_heap ->
  heap w !! a = Some o ->
  (a, o) ∈ [(1%nat, OLand scenario_land);
             (2%nat, OPerson (scenario_person 2 0 [1%nat] (Some 1%nat)));
             (3%nat, OPerson (scenario_person 3 100 [] None));
             (4%nat, OPerson (scenario_person 4 150 [] None));
             (5%nat, OPerson (scenario_person 5 120 [] None));
             (6%nat, OFirm); (7%nat, OBank 7); (8%nat, ORealtor)].
Proof.
  intros -> H. by apply elem_of_list_to_map_2 in H.
Qed.

Lemma scenario_heap_counts (w : @Model simple_runtime) :
  heap w = scenario_heap -> counts_nonneg w.
Proof.
  intros Hw a p Hp. apply (scenario_objects w _ _ Hw) in Hp.
  repeat (apply elem_of_cons in Hp as [Hp|Hp]; [simplify_eq/=; lia|]).
  by apply elem_of_nil in Hp.
Qed.

Lemma scenario_heap_titles (w : @Model simple_runtime) :
  heap w = scenario_heap -> titles_consistent w.
Proof.
  intros Hw.
  assert (Howner : forall l a, owner_of w l = Some a ->
                               l = 1%nat /\ a = 2%nat).
  { intros l a. unfold owner_of.
    destruct (heap w !! l) as [o|] eqn:Hl; [|discriminate].
    apply (scenario_objects w _ _ Hw) in Hl.
    repeat (apply elem_of_cons in Hl as [Hl|Hl];
            [injection Hl as -> ->; try discriminate|]).
    - intros [= <-]. by split.
    - by apply elem_of_nil in Hl. }
  assert (H1 : owner_of w 1%nat = Some 2%nat).
  { unfold owner_of. rewrite Hw. reflexivity. }
  intros l a n. unfold title_count.
  destruct (heap w !! a) as [o|] eqn:Ha; [|discriminate].
  apply (scenario_objects w _ _ Hw) in Ha.
  repeat (apply elem_of_cons in Ha as [Ha|Ha];
          [injection Ha as -> ->; try discriminate|]);
    try (by apply elem_of_nil in Ha).
  - cbn. intros [= <-].
    case_decide as E1; case_decide as E2; try reflexivity.
    + subst l. destruct E2. exact H1.
    + apply Howner in E2 as [-> _]. by destruct E1.
  - cbn. intros [= <-]. rewrite decide_False; [reflexivity|].
    intros [_ ?]%Howner. discriminate.
  - cbn. intros [= <-]. rewrite decide_False; [reflexivity|].
    intros [_ ?]%Howner. discriminate.
  - cbn. intros [= <-]. rewrite decide_False; [reflexivity|].
    intros [_ ?]%Howner. discriminate.
Qed.

Lemma scenario_keeps_heap : heap scenario = scenario_heap.
Proof. vm_compute. reflexivity. Qed.

Lemma settlement_keeps_titles_witness :
  titles_consistent scenario /\
  Realtor_complete_transactions [scenario_allocation] scenario
  = (scenario_sold, Ok tt) /\
  titles_consistent scenario_sold.
Proof.
  assert (H1 : Realtor_complete_transactions [scenario_allocation] scenario
               = (scenario_sold, Ok tt)) by (vm_compute; reflexivity).
  split; [exact (scenario_heap_titles scenario scenario_keeps_heap)|]. split; [exact H1|].
  exact (proj1 (settlement_keeps_titles scenario scenario_sold
                  (scenario_heap_titles scenario scenario_keeps_heap))
           [scenario_allocation] H1).
Defined.

Lemma person_sale_settled_witness :
  heap scenario_sold !! 1%nat
  = Some (OLand (mkLand 1 (0, 0)%Z 0 (Some 4%nat) (Some 4%nat) 0 0)) /\
  heap scenario_sold !! 4%nat
  = Some (OPerson (scenario_person 4 150 [1%nat] (Some 1%nat))) /\
  heap scenario_sold !! 2%nat
  = Some (OPerson (scenario_person 2 0 [] (Some 1%nat))) /\
  (4%Z ∉ newcomers (workforce scenario_sold)) /\
  removed_agents scenario_sold = 1%Z /\
  Schedule_agents (schedule scenario_sold) !! 2%Z = None /\
  (Realtor_complete_transaction scenario_allocation scenario).2 = Ok tt.
Proof.
  assert (H1 : heap scenario !! 1%nat = Some (OLand scenario_land))
    by (vm_compute; reflexivity).
  assert (H2 : heap scenario !! 2%nat
               = Some (OPerson (scenario_person 2 0 [1%nat] (Some 1%nat))))
    by (vm_compute; reflexivity).
  assert (H3 : heap scenario !! 4%nat
               = Some (OPerson (scenario_person 4 150 [] None)))
    by (vm_compute; reflexivity).
  assert (H4 : 2%nat <> 4%nat) by discriminate.
  assert (H5 : list_remove 1%nat [1%nat] = Some []) by reflexivity.
  assert (H6 : (grid_move_agent 4%nat (0, 0)%Z (grid scenario)).2 = Ok tt)
    by reflexivity.
  assert (H7 : 2%Z ∈ retiring (workforce scenario)).
  { apply (bool_decide_unpack _). vm_compute. exact I. }
  assert (H8 : is_Some (Schedule_agents (schedule scenario) !! 2%Z)).
  { apply (bool_decide_unpack _). vm_compute. exact I. }
  assert (H9 : exists partition,
             dict_get CPerson (agents_by_breed (schedule scenario))
             = Some partition /\ is_Some (dict_get 2%Z partition)).
  { exists [(2%Z, 2%nat); (3%Z, 3%nat); (4%Z, 4%nat); (5%Z, 5%nat)].
    split; [vm_compute; reflexivity|].
    apply (bool_decide_unpack _). vm_compute. exact I. }
  assert (H10 : (grid_remove_agent 2%nat
                   (grid_move_agent 4%nat (0, 0)%Z (grid scenario)).1).2
                = Ok tt) by reflexivity.
  assert (Hsold : scenario_sold
                  = (Realtor_complete_transaction scenario_allocation
                       scenario).1) by (vm_compute; reflexivity).
  destruct (person_sale_settled scenario scenario_allocation scenario_land
              2%nat _ 4%nat _ [] H1 eq_refl eq_refl H2 H3 H4 H5 H6)
    as (Hl & Hb & Hs & Hnew & _ & Hretiring).
  destruct (Hretiring H7) as (Hcount & Hgone & Hok).
  destruct (Hok H8 H9 H10) as [Hres _].
  rewrite Hsold.
  split; [exact Hl|]. split; [exact Hb|]. split; [exact Hs|].
  split; [exact Hnew|]. split; [exact Hcount|]. split; [exact Hgone|].
  exact Hres.
Defined.

Lemma count_never_negative_witness :
  counts_nonneg scenario /\
  counts_nonneg (foldl (flip run_op) scenario scenario_ops) /\
  counts_nonneg (Person_init 9 0 0 (Some 1%nat) scenario).1.
Proof.
  pose proof (scenario_heap_counts scenario scenario_keeps_heap) as H0.
  destruct (count_never_negative scenario_ops scenario H0) as [Hops Hinit].
  split; [exact H0|]. split; [exact Hops | apply Hinit].
Defined.

Lemma book_of_add_bid_is_well_formed_witness :
  Realtor_bids (realtor scenario) = [] /\
  book_wf scenario_bids.
Proof.
  split; [reflexivity|].
  exact (book_of_add_bid_is_well_formed
           [(VRef 3%nat, VRef 1%nat, VInt 100);
            (VRef 4%nat, VRef 1%nat, VInt 150);
            (VRef 5%nat, VRef 1%nat, VInt 120)] scenario eq_refl).
Defined.

Lemma add_bid_appends_witness :
  (Realtor_add_bid (VRef 3%nat) (VRef 1%nat) (VFloat (Fin 100)) scenario).2
  = Ok tt /\
  dict_get 1%nat
    (Realtor_bids
       (realtor
          (Realtor_add_bid (VRef 3%nat) (VRef 1%nat) (VFloat (Fin 100))
             scenario).1))
  = Some [mkBid 3%nat 1%nat (Fin 100) (Fin 0)].
Proof.
  assert (H1 : heap scenario !! 3%nat
               = Some (OPerson (scenario_person 3 100 [] None)))
    by (vm_compute; reflexivity).
  assert (H2 : heap scenario !! 1%nat = Some (OLand scenario_land))
    by (vm_compute; reflexivity).
  destruct (add_bid_appends scenario 3%nat _ 1%nat _ (Fin 100) H1 H2)
    as (Hok & Hget & _).
  split; [exact Hok | exact Hget].
Defined.

Lemma Person_step_keeps_the_housed_witness :
  schedule (Person_step 4%nat scenario_sold).1 = schedule scenario_sold /\
  removed_agents (Person_step 4%nat scenario_sold).1
  = removed_agents scenario_sold /\
  grid (Person_step 4%nat scenario_sold).1 = grid scenario_sold.
Proof.
  assert (H1 : heap scenario_sold !! 4%nat
               = Some (OPerson (scenario_person 4 150 [1%nat] (Some 1%nat))))
    by (vm_compute; reflexivity).
  assert (H2 : 4%Z ∈ newcomers (workforce scenario_sold) ->
               is_Some (Person_residence
                          (scenario_person 4 150 [1%nat] (Some 1%nat))))
    by (intros _; exists 1%nat; reflexivity).
  exact (Person_step_keeps_the_housed scenario_sold 4%nat _ H1 H2).
Defined.
